(** * Citation extraction engine and task dispatcher

  A shallow embedding of [tools/citation_extractor.py] (class
  [CitationExtractor]) and of the [run] method of
  [agents/researcher_agent.py], together with the fragment of Python's
  [str] and [re] behaviour those files rely on. The collaborators of the
  dispatcher follow: the arXiv client of [tools/arxiv_search.py], the
  PDF processor of [tools/pdf_processor.py] and the citation summary of
  [main.py], each over the parts of its environment (tokenizer, clock,
  network, PDF reader) that it is given.

  Text is a [string] whose characters are read as the code points
  U+0000..U+00FF; the Unicode-aware predicates of Python ([str.isspace],
  [str.isdigit], the classes [\s] and [\d], [str.lower]) are given on that
  range. *)

From Stdlib Require Import String Ascii NArith ZArith Lia Bool.
From stdpp Require Import gmap strings list.

Local Open Scope string_scope.
Local Open Scope list_scope.

(** ** Python [str] primitives *)

Module Py.

Definition code (c : ascii) : N := N_of_ascii c.

Definition in_range (lo hi : N) (c : ascii) : bool :=
  ((lo <=? code c) && (code c <=? hi))%N.

(** [str.isspace] on one character, also the class [\s] of [re] and the
    characters removed by [str.strip()]: TAB..CR, FS..US, space, NEL and
    the no-break space. *)
Definition isspace (c : ascii) : bool :=
  in_range 9 13 c || in_range 28 32 c
  || (code c =? 133)%N || (code c =? 160)%N.

(** Decimal digits (category Nd): the class [\d] and what [int] reads. *)
Definition isdecimal (c : ascii) : bool := in_range 48 57 c.

(** [str.isdigit] on one character: the decimal digits and the
    superscripts one, two and three. *)
Definition isdigit (c : ascii) : bool :=
  isdecimal c || (code c =? 178)%N || (code c =? 179)%N || (code c =? 185)%N.

(** Simple lower- and upper-case mappings within the range. *)
Definition lower_char (c : ascii) : ascii :=
  if in_range 65 90 c || (in_range 192 222 c && negb (code c =? 215)%N)
  then ascii_of_N (code c + 32) else c.

Definition upper_char (c : ascii) : ascii :=
  if in_range 97 122 c || (in_range 224 254 c && negb (code c =? 247)%N)
  then ascii_of_N (code c - 32) else c.

Definition nl : ascii := "010"%char.

Fixpoint map_chars (f : ascii -> ascii) (s : string) : string :=
  match s with
  | EmptyString => EmptyString
  | String c s' => String (f c) (map_chars f s')
  end.

(** [s.lower()] *)
Definition lower (s : string) : string := map_chars lower_char s.

Fixpoint existsb_chars (f : ascii -> bool) (s : string) : bool :=
  match s with
  | EmptyString => false
  | String c s' => f c || existsb_chars f s'
  end.

(** [len(s)] *)
Definition len (s : string) : nat := String.length s.

Fixpoint drop (n : nat) (s : string) : string :=
  match n, s with
  | O, _ => s
  | S n', String _ s' => drop n' s'
  | S _, EmptyString => EmptyString
  end.

Fixpoint take (n : nat) (s : string) : string :=
  match n, s with
  | S n', String c s' => String c (take n' s')
  | _, _ => EmptyString
  end.

(** [s[a:b]] for non-negative bounds. *)
Definition slice (a b : nat) (s : string) : string := take (b - a) (drop a s).

(** [s.strip()] and [s.rstrip(chars)]: [f] tells which characters go. *)
Fixpoint lstrip_chars (f : ascii -> bool) (s : string) : string :=
  match s with
  | String c s' => if f c then lstrip_chars f s' else s
  | EmptyString => EmptyString
  end.

Fixpoint rstrip_chars (f : ascii -> bool) (s : string) : string :=
  match s with
  | EmptyString => EmptyString
  | String c s' =>
      match rstrip_chars f s' with
      | EmptyString => if f c then EmptyString else String c EmptyString
      | t => String c t
      end
  end.

Definition strip_chars (f : ascii -> bool) (s : string) : string :=
  rstrip_chars f (lstrip_chars f s).

Definition strip (s : string) : string := strip_chars isspace s.

(** [sub in s] *)
Fixpoint startswith (sub s : string) : bool :=
  match sub, s with
  | EmptyString, _ => true
  | String a sub', String b s' => Ascii.eqb a b && startswith sub' s'
  | String _ _, EmptyString => false
  end.

Fixpoint contains (sub s : string) : bool :=
  startswith sub s ||
  match s with
  | EmptyString => false
  | String _ s' => contains sub s'
  end.

(** [s.find(sub, start)], with [None] for Python's -1. *)
Fixpoint find_at (sub s : string) (i : nat) : option nat :=
  if startswith sub s then Some i
  else match s with
       | EmptyString => None
       | String _ s' => find_at sub s' (S i)
       end.

Definition find (sub s : string) (start : nat) : option nat :=
  if Nat.leb start (len s) then find_at sub (drop start s) start else None.

(** [s.split(":", 1)]: one piece when there is no colon, else the text
    before the first colon and everything after it. *)
Definition split_colon1 (s : string) : list string :=
  match find ":" s 0 with
  | None => [s]
  | Some i => [take i s; drop (S i) s]
  end.

(** [len(s.split()) >= 1]: some character of [s] is not white space. *)
Definition has_token (s : string) : bool :=
  existsb_chars (fun c => negb (isspace c)) s.

(** [s.replace(old, empty)] for a non-empty [old]: its occurrences are
    removed left to right without overlap. [skip] counts the characters of
    the current occurrence still to drop. *)
Fixpoint remove_all_from (old : string) (skip : nat) (s : string) : string :=
  match s with
  | EmptyString => EmptyString
  | String c s' =>
      match skip with
      | S n => remove_all_from old n s'
      | O =>
          if startswith old s then remove_all_from old (len old - 1) s'
          else String c (remove_all_from old 0 s')
      end
  end.

Definition remove_all (old s : string) : string := remove_all_from old 0 s.

(** [int(s)] in base ten: surrounding white space is skipped (TAB..CR,
    space, NEL and the no-break space; the separators FS..US are not), a
    sign is allowed, and single underscores may separate digits. [None]
    stands for [ValueError]. *)
Definition int_space (c : ascii) : bool :=
  in_range 9 13 c || (code c =? 32)%N || (code c =? 133)%N || (code c =? 160)%N.

Definition digit_val (c : ascii) : Z := Z.of_N (code c) - 48.

Fixpoint int_digits (acc : Z) (after_digit : bool) (s : string) : option Z :=
  match s with
  | EmptyString => if after_digit then Some acc else None
  | String c s' =>
      if isdecimal c then int_digits (10 * acc + digit_val c) true s'
      else if Ascii.eqb c "_" && after_digit then int_digits acc false s'
      else None
  end.

(** [sys.get_int_max_str_digits()]: the most digits [int] converts, by
    CPython's default. *)
Definition int_max_str_digits : nat := 4300.

(** The number of decimal digits in [s]: in a well-formed literal, the
    digits that are counted against the limit. *)
Fixpoint count_digits (s : string) : nat :=
  match s with
  | EmptyString => 0
  | String c s' =>
      if isdecimal c then S (count_digits s') else count_digits s'
  end.

(** A literal of more than [int_max_str_digits] digits, leading zeros
    included, is refused with [ValueError] like a malformed one. *)
Definition int (s : string) : option Z :=
  if Nat.ltb int_max_str_digits (count_digits s) then None
  else
    match strip_chars int_space s with
    | String c d =>
        if Ascii.eqb c "+" then int_digits 0 false d
        else if Ascii.eqb c "-" then option_map Z.opp (int_digits 0 false d)
        else int_digits 0 false (String c d)
    | EmptyString => None
    end.

End Py.

(** ** The fragment of Python's [re] used by the source

  Patterns stay the strings of the source; [Re.compile] parses them into
  a syntax tree and [Re.rmatch] is a backtracking matcher with the
  priorities of [re]: a greedy repetition tries one more iteration first,
  a lazy one tries to stop first, an alternation tries its left branch
  first. *)

Module Re.

Inductive cset_item : Type :=
| CChar (c : ascii)
| CRange (lo hi : ascii)
| CDigit
| CSpace.

Definition charset : Type := list cset_item.

Inductive regex : Type :=
| REmpty
| RChars (cs : charset)
| RAny
| RBol
| REol
| REos
| RSeq (r1 r2 : regex)
| RAlt (r1 r2 : regex)
| RRepeat (r : regex) (lo : nat) (hi : option nat) (greedy : bool)
| RGroup (idx : nat) (r : regex).

Record flags : Type := { IGNORECASE : bool; DOTALL : bool }.

Definition no_flags : flags := {| IGNORECASE := false; DOTALL := false |}.

(** *** Parsing pattern strings *)

Definition is_alnum (c : ascii) : bool :=
  Py.in_range 48 57 c || Py.in_range 65 90 c || Py.in_range 97 122 c.

Definition is_ascii_punct (c : ascii) : bool :=
  Py.in_range 33 126 c && negb (is_alnum c).

(** An escape inside a character class. *)
Definition class_escape (e : ascii) : option cset_item :=
  if Ascii.eqb e "d" then Some CDigit
  else if Ascii.eqb e "s" then Some CSpace
  else if Ascii.eqb e "n" then Some (CChar Py.nl)
  else if is_ascii_punct e then Some (CChar e)
  else None.

(** An escape outside a character class. *)
Definition atom_escape (e : ascii) : option regex :=
  if Ascii.eqb e "Z" then Some REos
  else option_map (fun it => RChars [it]) (class_escape e).

Definition class_atom (s : string) : option (cset_item * string) :=
  match s with
  | String c (String e s') =>
      if Ascii.eqb c "\" then it ← class_escape e; Some (it, s')
      else Some (CChar c, String e s')
  | _ => None
  end.

Fixpoint parse_class (fuel : nat) (s : string) (acc : charset)
  : option (charset * string) :=
  match fuel with
  | O => None
  | S f =>
      match s with
      | EmptyString => None
      | String c s' =>
          if Ascii.eqb c "]" then
            match acc with [] => None | _ => Some (rev acc, s') end
          else if Ascii.eqb c "^" && bool_decide (acc = []) then None
          else
            '(it, s1) ← class_atom s;
            match it, s1 with
            | CChar lo, String d (String h s2) =>
                if Ascii.eqb d "-" && negb (Ascii.eqb h "]") then
                  '(it2, s3) ← class_atom (String h s2);
                  match it2 with
                  | CChar hi => parse_class f s3 (CRange lo hi :: acc)
                  | _ => None
                  end
                else parse_class f s1 (it :: acc)
            | _, _ => parse_class f s1 (it :: acc)
            end
      end
  end.

Fixpoint parse_nat (s : string) (acc : option nat) : option nat * string :=
  match s with
  | String c s' =>
      if Py.isdecimal c
      then parse_nat s' (Some (10 * default 0 acc + N.to_nat (Py.code c) - 48))
      else (acc, s)
  | EmptyString => (acc, s)
  end.

(** The repetition suffix of an atom: [*], [+], [?] or [{n}], then an
    optional [?] that makes it lazy. *)
Definition parse_quant (a : regex) (s : string) : option (regex * string) :=
  let lazy (lo : nat) (hi : option nat) (s1 : string) :=
    match s1 with
    | String q s2 =>
        if Ascii.eqb q "?" then (RRepeat a lo hi false, s2)
        else (RRepeat a lo hi true, s1)
    | EmptyString => (RRepeat a lo hi true, s1)
    end in
  match s with
  | String c s1 =>
      if Ascii.eqb c "*" then Some (lazy 0 None s1)
      else if Ascii.eqb c "+" then Some (lazy 1 None s1)
      else if Ascii.eqb c "?" then Some (lazy 0 (Some 1) s1)
      else if Ascii.eqb c "{" then
        match parse_nat s1 None with
        | (Some n, String e s2) =>
            if Ascii.eqb e "}" then Some (lazy n (Some n) s2) else None
        | _ => None
        end
      else Some (a, s)
  | EmptyString => Some (a, s)
  end.

Definition mk_seq (r1 r2 : regex) : regex :=
  match r2 with
  | REmpty => r1
  | _ => RSeq r1 r2
  end.

Definition expect_close (x : regex * string * nat)
  : option (regex * string * nat) :=
  match x with
  | (r, String c s, g) => if Ascii.eqb c ")" then Some (r, s, g) else None
  | _ => None
  end.

(** [g] is the number the next capturing group receives. *)
Fixpoint parse_alt (fuel : nat) (s : string) (g : nat)
  : option (regex * string * nat) :=
  match fuel with
  | O => None
  | S f =>
      '(r1, s1, g1) ← parse_seq f s g;
      match s1 with
      | String c s2 =>
          if Ascii.eqb c "|" then
            '(r2, s3, g2) ← parse_alt f s2 g1; Some (RAlt r1 r2, s3, g2)
          else Some (r1, s1, g1)
      | EmptyString => Some (r1, s1, g1)
      end
  end
with parse_seq (fuel : nat) (s : string) (g : nat)
  : option (regex * string * nat) :=
  match fuel with
  | O => None
  | S f =>
      match s with
      | EmptyString => Some (REmpty, s, g)
      | String c _ =>
          if Ascii.eqb c ")" || Ascii.eqb c "|" then Some (REmpty, s, g)
          else
            '(a, s1, g1) ← parse_atom f s g;
            '(q, s2) ← parse_quant a s1;
            '(rest, s3, g2) ← parse_seq f s2 g1;
            Some (mk_seq q rest, s3, g2)
      end
  end
with parse_atom (fuel : nat) (s : string) (g : nat)
  : option (regex * string * nat) :=
  match fuel with
  | O => None
  | S f =>
      match s with
      | EmptyString => None
      | String c s1 =>
          if Ascii.eqb c "(" then
            if Py.startswith "?:" s1 then
              parse_alt f (Py.drop 2 s1) g ≫= expect_close
            else if Py.startswith "?" s1 then None
            else
              '(r, s2, g1) ← parse_alt f s1 (S g) ≫= expect_close;
              Some (RGroup g r, s2, g1)
          else if Ascii.eqb c "[" then
            '(cs, s2) ← parse_class (S (Py.len s1)) s1 [];
            Some (RChars cs, s2, g)
          else if Ascii.eqb c "\" then
            match s1 with
            | String e s2 => r ← atom_escape e; Some (r, s2, g)
            | EmptyString => None
            end
          else if Ascii.eqb c "." then Some (RAny, s1, g)
          else if Ascii.eqb c "^" then Some (RBol, s1, g)
          else if Ascii.eqb c "$" then Some (REol, s1, g)
          else if Py.contains (String c "") "*+?{})|]" then None
          else Some (RChars [CChar c], s1, g)
      end
  end.

(** [re.compile(pattern)]; [None] stands for a pattern outside the
    fragment. *)
Definition compile (pattern : string) : option regex :=
  match parse_alt (4 * Py.len pattern + 4) pattern 1 with
  | Some (r, EmptyString, _) => Some r
  | _ => None
  end.

(** *** Matching *)

Definition item_mem (it : cset_item) (c : ascii) : bool :=
  match it with
  | CChar a => Ascii.eqb a c
  | CRange lo hi => Py.in_range (Py.code lo) (Py.code hi) c
  | CDigit => Py.isdecimal c
  | CSpace => Py.isspace c
  end.

Definition cs_mem (cs : charset) (c : ascii) : bool :=
  existsb (fun it => item_mem it c) cs.

(** Under [IGNORECASE] a character is accepted when its lower- or
    upper-case form is in the set. *)
Definition char_ok (fl : flags) (cs : charset) (c : ascii) : bool :=
  if IGNORECASE fl
  then cs_mem cs (Py.lower_char c) || cs_mem cs (Py.upper_char c)
  else cs_mem cs c.

(** [.] excludes the newline unless [DOTALL] is set. *)
Definition any_ok (fl : flags) (c : ascii) : bool :=
  DOTALL fl || negb (Ascii.eqb c Py.nl).

(** Spans of the capturing groups that took part, most recent first. *)
Definition captures : Type := list (nat * (nat * nat)).

Definition orelse {A} (x : option A) (y : unit -> option A) : option A :=
  match x with
  | Some a => Some a
  | None => y tt
  end.

Definition below (count : nat) (hi : option nat) : bool :=
  match hi with
  | None => true
  | Some h => Nat.ltb count h
  end.

(** The loop of a repetition of [body] between [lo] and [hi] times, then
    [k]. A greedy repetition tries one more round first, a lazy one tries
    to stop first; a round past the lower bound must consume text. *)
Fixpoint repeat_loop {A}
  (body : nat -> string -> captures ->
          (nat -> string -> captures -> option A) -> option A)
  (lo : nat) (hi : option nat) (greedy : bool)
  (k : nat -> string -> captures -> option A)
  (fuel count i : nat) (s : string) (cs : captures) : option A :=
  let more (_ : unit) :=
    match fuel with
    | O => None
    | S f =>
        if below count hi then
          body i s cs (fun i' s' cs' =>
            if Nat.ltb count lo || Nat.ltb i i'
            then repeat_loop body lo hi greedy k f (S count) i' s' cs'
            else None)
        else None
    end in
  let stop (_ : unit) := if Nat.leb lo count then k i s cs else None in
  if greedy then orelse (more tt) stop else orelse (stop tt) more.

(** [rmatch fl r i s cs k]: match [r] at offset [i], where [s] is the text
    from [i] on, then continue with [k]; [None] makes the caller
    backtrack. *)
Fixpoint rmatch {A} (fl : flags) (r : regex) (i : nat) (s : string)
  (cs : captures) (k : nat -> string -> captures -> option A) : option A :=
  match r with
  | REmpty => k i s cs
  | RChars set =>
      match s with
      | String c s' => if char_ok fl set c then k (S i) s' cs else None
      | EmptyString => None
      end
  | RAny =>
      match s with
      | String c s' => if any_ok fl c then k (S i) s' cs else None
      | EmptyString => None
      end
  | RBol => if Nat.eqb i 0 then k i s cs else None
  | REol =>
      match s with
      | EmptyString => k i s cs
      | String c EmptyString => if Ascii.eqb c Py.nl then k i s cs else None
      | _ => None
      end
  | REos =>
      match s with
      | EmptyString => k i s cs
      | _ => None
      end
  | RSeq r1 r2 =>
      rmatch fl r1 i s cs (fun i' s' cs' => rmatch fl r2 i' s' cs' k)
  | RAlt r1 r2 =>
      orelse (rmatch fl r1 i s cs k) (fun _ => rmatch fl r2 i s cs k)
  | RGroup n r1 =>
      rmatch fl r1 i s cs (fun i' s' cs' => k i' s' ((n, (i, i')) :: cs'))
  | RRepeat r1 lo hi greedy =>
      repeat_loop (rmatch fl r1) lo hi greedy k (S (lo + Py.len s)) 0 i s cs
  end.

(** A match object: the searched text, the span of the whole match and
    the group spans. *)
Record Match : Type := {
  m_string : string;
  m_start : nat;
  m_end : nat;
  m_groups : captures
}.

(** Try the start offsets [i], [i+1], ... in turn. [adv] is the scanner's
    must-advance mark: an empty match at the first offset tried is
    refused. *)
Fixpoint search_from (fl : flags) (r : regex) (text : string) (i : nat)
  (s : string) (adv : bool) : option Match :=
  orelse
    (rmatch fl r i s [] (fun e _ cs =>
       if adv && Nat.eqb e i then None
       else Some {| m_string := text; m_start := i; m_end := e;
                    m_groups := cs |}))
    (fun _ =>
       match s with
       | EmptyString => None
       | String _ s' => search_from fl r text (S i) s' false
       end).

(** [m.group(0)] *)
Definition group0 (m : Match) : string :=
  Py.slice (m_start m) (m_end m) (m_string m).

Fixpoint lookup_group (n : nat) (cs : captures) : option (nat * nat) :=
  match cs with
  | [] => None
  | (j, sp) :: cs' => if Nat.eqb j n then Some sp else lookup_group n cs'
  end.

(** [m.span(n)] and [m.group(n)] for [n >= 1]. [None] stands for a group
    that took no part in the match (Python's [None]) and for a group the
    pattern does not have ([IndexError]). *)
Definition span (m : Match) (n : nat) : option (nat * nat) :=
  lookup_group n (m_groups m).

Definition group (m : Match) (n : nat) : option string :=
  '(a, b) ← span m n; Some (Py.slice a b (m_string m)).

(** The scanner behind [finditer], [findall] and [sub]: after a match the
    search resumes at its end, and after an empty match it must advance.
    The fuel [finditer] gives is never exhausted (lemma [scan_fuel]). *)
Fixpoint scan (fuel : nat) (fl : flags) (r : regex) (text : string)
  (pos : nat) (adv : bool) : list Match :=
  match fuel with
  | O => []
  | S f =>
      match search_from fl r text pos (Py.drop pos text) adv with
      | None => []
      | Some m =>
          m :: scan f fl r text (m_end m) (Nat.eqb (m_start m) (m_end m))
      end
  end.

(** [re.finditer(pattern, text)]. The library patterns all compile
    (lemma [patterns_compile] below); for a pattern outside the fragment
    the result is empty. *)
Definition finditer_flags (fl : flags) (pattern text : string) : list Match :=
  match compile pattern with
  | Some r => scan (2 * Py.len text + 2) fl r text 0 false
  | None => []
  end.

Definition finditer (pattern text : string) : list Match :=
  finditer_flags no_flags pattern text.

(** [re.search(pattern, text, flags)] *)
Definition search (fl : flags) (pattern text : string) : option Match :=
  r ← compile pattern; search_from fl r text 0 text false.

(** [re.match(pattern, text)]: the match must start at offset 0. *)
Definition match_ (pattern text : string) : option Match :=
  r ← compile pattern;
  rmatch no_flags r 0 text [] (fun e _ cs =>
    Some {| m_string := text; m_start := 0; m_end := e; m_groups := cs |}).

(** [re.findall(pattern, text)] for a pattern without groups. *)
Definition findall (pattern text : string) : list string :=
  group0 <$> finditer pattern text.

(** [re.sub(pattern, "", text)]: every match is deleted. *)
Fixpoint delete_spans (ms : list Match) (pos : nat) (text : string) : string :=
  match ms with
  | [] => Py.drop pos text
  | m :: ms' =>
      Py.slice pos (m_start m) text +:+ delete_spans ms' (m_end m) text
  end.

Definition sub_empty (pattern text : string) : string :=
  delete_spans (finditer pattern text) 0 text.

End Re.

(** ** [CitationExtractor] (tools/citation_extractor.py) *)

(** [self.patterns], in the order of [__init__]. *)
Definition patterns : list string := [
  "\[(\d+)\](?:\s*[A-Za-z\s\-\.\']+)?";
  "\[(\d+(?:,\s*\d+)*)\]";
  "\[(?:\d+)(?:\-\d+)*\]";
  "\((\d+)\)";
  "\((\d+(?:,\s*\d+)*)\)";
  "([A-Z][a-z]+(?:\s+[A-Z][a-z]+)*)\s+et\s+al\.\s*\((\d{4})\)";
  "\(([A-Z][a-z]+(?:\s+[A-Z][a-z]+)*)\s+et\s+al\.\s*,\s*(\d{4})\)";
  "([A-Z][a-z]+(?:\s+[A-Z][a-z]+)*)\s*\((\d{4})\)";
  "\(([A-Z][a-z]+(?:\s+[A-Z][a-z]+)*)\s*,\s*(\d{4})\)";
  "([A-Z][a-z]+(?:\s+[A-Z][a-z]+)*)\s+and\s+([A-Z][a-z]+(?:\s+[A-Z][a-z]+)*)\s*\((\d{4})\)";
  "\(([A-Z][a-z]+(?:\s+[A-Z][a-z]+)*)\s+and\s+([A-Z][a-z]+(?:\s+[A-Z][a-z]+)*),\s*(\d{4})\)";
  "\[([A-Za-z]+\d{2}(?:[a-z])?)\]";
  "([A-Z][a-z]+(?:\s+[A-Z][a-z]+)*)\s+et\s+al\.\s*\((\d{4}(?:[a-z])?)\)";
  "\(([A-Z][a-z]+(?:\s+[A-Z][a-z]+)*)\s+et\s+al\.\s*,\s*(\d{4}(?:[a-z])?)\)";
  "([A-Z][a-z]+(?:\s+[A-Z][a-z]+)*)(?:\s*,\s*[A-Z][a-z]+(?:\s+[A-Z][a-z]+)*)*\s+et\s+al\.\s*\((\d{4})\)";
  "\(([A-Z][a-z]+(?:\s+[A-Z][a-z]+)*)(?:\s*,\s*[A-Z][a-z]+(?:\s+[A-Z][a-z]+)*)*\s+et\s+al\.\s*,\s*(\d{4})\)";
  "([A-Z][a-z]+(?:\s+[A-Z][a-z]+)*)\s*\((\d{4}),\s*p\.\s*\d+\)";
  "\(([A-Z][a-z]+(?:\s+[A-Z][a-z]+)*)\s*,\s*(\d{4}),\s*p\.\s*\d+\)";
  "([A-Z][a-z]+(?:\s+[A-Z][a-z]+)*)\s*\((\d{4}),\s*vol\.\s*\d+\)";
  "\(([A-Z][a-z]+(?:\s+[A-Z][a-z]+)*)\s*,\s*(\d{4}),\s*vol\.\s*\d+\)"
].

(** The three dictionaries [extract_citations] builds. A numerical record
    also carries the constant entry ["type": "numerical"]. *)
Inductive Citation : Type :=
| Numerical (citation_text number citation_type context : string)
| TwoAuthor (author1 author2 year citation_type context : string)
| SingleAuthor (author year citation_type context : string).

Definition citation_type_of (c : Citation) : string :=
  match c with
  | Numerical _ _ t _ | TwoAuthor _ _ _ t _ | SingleAuthor _ _ t _ => t
  end.

Definition type_of (c : Citation) : option string :=
  match c with
  | Numerical _ _ _ _ => Some "numerical"
  | _ => None
  end.

Definition year_of (c : Citation) : option string :=
  match c with
  | Numerical _ _ _ _ => None
  | TwoAuthor _ _ y _ _ | SingleAuthor _ y _ _ => Some y
  end.

(** What the module's logger receives. *)
Inductive log_entry : Type :=
| LogError (msg : string)
| LogWarningMatch (matched : string)
| LogDebugFound (c : Citation)
| LogInfoFound (count : nat)
| LogInfoTask (msg : string)
| LogInfoTextLength (length : nat).

(** [_validate_year], with [datetime.now().year] as [current_year]. *)
Definition _validate_year (current_year : Z) (year : string) : bool :=
  let year := Re.sub_empty "[a-z]$" year in
  match Py.int year with
  | Some year_int => ((1800 <=? year_int) && (year_int <=? current_year + 1))%Z
  | None => false
  end.

Definition _validate_author (author : string) : bool :=
  Py.has_token author
  && bool_decide (is_Some (Re.match_ "^[A-Za-z\s\-\.\']+$" author))
  && Nat.leb 2 (Py.len author).

(** The locals [citations] and [seen_citations] of [extract_citations],
    and the log. *)
Record State : Type := {
  citations : list Citation;
  seen_citations : gset string;
  log : list log_entry
}.

(** [if citation_key not in seen_citations: citations.append(citation);
    seen_citations.add(citation_key)]; [debug] tells whether the
    [logger.debug] line follows. *)
Definition add_if_new (debug : bool) (citation : Citation)
  (citation_key : string) (st : State) : State :=
  if bool_decide (citation_key ∈ seen_citations st) then st
  else {| citations := citations st ++ [citation];
          seen_citations := {[citation_key]} ∪ seen_citations st;
          log := if debug then log st ++ [LogDebugFound citation]
                 else log st |}.

(** The condition of line 117: [or] binds weaker than [and]. *)
Definition is_numerical (pattern : string) (m : Re.Match) : bool :=
  Py.contains "[" pattern
  || (Py.contains "(" pattern && Py.existsb_chars Py.isdigit (Re.group0 m)).

(** [current_text[max(0, match.start() - 50):
                  min(len(current_text), match.end() + 50)].strip()] *)
Definition context_of (current_text : string) (m : Re.Match) : string :=
  Py.strip
    (Py.slice (Z.to_nat (Z.max 0 (Z.of_nat (Re.m_start m) - 50)))
              (Nat.min (Py.len current_text) (Re.m_end m + 50))
              current_text).

Definition numerical_citation (citation_type citation_text context num : string)
  : Citation * string :=
  (Numerical citation_text num citation_type context,
   citation_type +:+ "_" +:+ citation_text +:+ "_" +:+ num).

(** How the body of the [try] ends for the two named branches. *)
Inductive outcome : Type :=
| Raised
| Continue
| Built (citation : Citation) (citation_key : string).

Definition two_author_branch (current_year : Z)
  (current_text citation_type : string) (m : Re.Match) : outcome :=
  match Re.group m 1, Re.group m 2, Re.group m 3 with
  | Some g1, Some g2, Some g3 =>
      let author1 := Py.strip g1 in
      let author2 := Py.strip g2 in
      let year := Py.strip g3 in
      if negb (_validate_author author1 && _validate_author author2
               && _validate_year current_year year)
      then Continue
      else Built (TwoAuthor author1 author2 year citation_type
                    (context_of current_text m))
                 (citation_type +:+ "_" +:+ author1 +:+ "_" +:+ author2
                    +:+ "_" +:+ year)
  | _, _, _ => Raised
  end.

Definition single_author_branch (current_year : Z)
  (current_text citation_type : string) (m : Re.Match) : outcome :=
  match Re.group m 1, Re.group m 2 with
  | Some g1, Some g2 =>
      let author := Py.strip g1 in
      let year := Py.strip g2 in
      if negb (_validate_author author && _validate_year current_year year)
      then Continue
      else Built (SingleAuthor author year citation_type
                    (context_of current_text m))
                 (citation_type +:+ "_" +:+ author +:+ "_" +:+ year)
  | _, _ => Raised
  end.

(** Lines 164-171: the shared tail of the loop body and the handler of the
    [try]. *)
Definition finish (matched : string) (o : outcome) (st : State) : State :=
  match o with
  | Raised =>
      {| citations := citations st; seen_citations := seen_citations st;
         log := log st ++ [LogWarningMatch matched] |}
  | Continue => st
  | Built citation citation_key => add_if_new true citation citation_key st
  end.

(** The numerical branch: one record per digit run of the matched text.
    When the inner loop is over, [citation] and [citation_key] hold the
    values of its last round and control reaches the shared tail. *)
Definition numerical_branch (current_text citation_type : string)
  (m : Re.Match) (st : State) : State :=
  let citation_text := Re.group0 m in
  let numbers := Re.findall "\d+" citation_text in
  let build := numerical_citation citation_type citation_text
                 (context_of current_text m) in
  match last numbers with
  | None => st
  | Some num_last =>
      let st' := foldl (fun acc num =>
                          add_if_new false (build num).1 (build num).2 acc)
                       st numbers in
      finish citation_text (Built (build num_last).1 (build num_last).2) st'
  end.

(** The branch of the [if]/[elif]/[else] of lines 117-162 a match takes. *)
Inductive branch : Type :=
| NumericalBranch
| TwoAuthorBranch
| SingleAuthorBranch.

Definition route (pattern : string) (m : Re.Match) : branch :=
  if is_numerical pattern m then NumericalBranch
  else if Py.contains "and" pattern then TwoAuthorBranch
  else SingleAuthorBranch.

(** The body of [for match in matches]. *)
Definition handle_match (current_year : Z)
  (current_text citation_type pattern : string) (st : State) (m : Re.Match)
  : State :=
  match route pattern m with
  | NumericalBranch => numerical_branch current_text citation_type m st
  | TwoAuthorBranch =>
      finish (Re.group0 m)
        (two_author_branch current_year current_text citation_type m) st
  | SingleAuthorBranch =>
      finish (Re.group0 m)
        (single_author_branch current_year current_text citation_type m) st
  end.

(** The body of [for pattern in self.patterns]. *)
Definition handle_pattern (current_year : Z)
  (current_text citation_type : string) (st : State) (pattern : string)
  : State :=
  foldl (handle_match current_year current_text citation_type pattern) st
        (Re.finditer pattern current_text).

(** The body of [for current_text, citation_type in texts_to_process]. *)
Definition handle_region (current_year : Z) (st : State)
  (region : string * string) : State :=
  foldl (handle_pattern current_year region.1 region.2) st patterns.

Definition references_flags : Re.flags :=
  {| Re.IGNORECASE := true; Re.DOTALL := true |}.

Definition references_match (text : string) : option Re.Match :=
  Re.search references_flags
    "(?:References|Bibliography|Works Cited)\s*\n+(.*?)(?:\n\n|\Z)" text.

(** [references_match.group(1) if references_match else ""] *)
Definition references_text (text : string) : string :=
  match references_match text with
  | Some m => default "" (Re.group m 1)
  | None => ""
  end.

Definition texts_to_process (text : string) : list (string * string) :=
  [(text, "inline"); (references_text text, "reference")].

(** [citations = []] and [seen_citations = set()] *)
Definition initial_state (lg : list log_entry) : State :=
  {| citations := []; seen_citations := ∅; log := lg |}.

(** [extract_citations]: the returned list and the log after the call. *)
Definition extract_citations (current_year : Z) (text : string)
  (lg : list log_entry) : list Citation * list log_entry :=
  if bool_decide (text = "") then
    ([], lg ++ [LogError "Empty text provided for citation extraction"])
  else
    let st := foldl (handle_region current_year) (initial_state lg)
                    (texts_to_process text) in
    (citations st, log st ++ [LogInfoFound (length (citations st))]).

Module Result.
Record t : Type := {
  success : bool;
  citations : list Citation;
  error : option string
}.
End Result.

(** [process_text]. The [except] clause has nothing to catch in this
    model: [extract_citations] is total. *)
Definition process_text (current_year : Z) (text : string)
  (lg : list log_entry) : Result.t * list log_entry :=
  if bool_decide (text = "") then
    ({| Result.success := false; Result.citations := [];
        Result.error := Some "Empty text provided" |}, lg)
  else
    let '(found, lg') := extract_citations current_year text lg in
    ({| Result.success := true; Result.citations := found;
        Result.error := None |}, lg').

(** ** [ResearcherAgent.run] (agents/researcher_agent.py) *)

Module Agent.

(** What the [try] of [run] ends with. *)
Inductive raised (A : Type) : Type :=
| Return (a : A)
| ValueError (msg : string).
Arguments Return {A} a.
Arguments ValueError {A} msg.

Section Dispatcher.

(** The search client and the document fetcher are collaborators outside
    this development: [search_papers] and [process_paper] stand for the
    methods of those names, which catch their own failures and may log. *)
Variables SearchResult PaperResult : Type.
Variable search_papers :
  string -> option Z -> list log_entry -> SearchResult * list log_entry.
Variable process_paper :
  string -> list log_entry -> PaperResult * list log_entry.
Variable current_year : Z.

(** The dictionaries [run] returns. [Failure error] is
    [{"success": False, "error": error}]. *)
Inductive run_result : Type :=
| Failure (error : string)
| FromSearch (r : SearchResult)
| FromPaper (r : PaperResult)
| FromCitations (r : Result.t).

(** [ResearcherAgent.extract_citations] *)
Definition extract_citations (text : string) (lg : list log_entry)
  : Result.t * list log_entry :=
  process_text current_year text lg.

Definition is_search_task (task_lower : string) : bool :=
  Py.contains "search" task_lower
  && (Py.contains "paper" task_lower || Py.contains "research" task_lower).

Definition is_paper_task (task_lower : string) : bool :=
  existsb (fun word => Py.contains word task_lower)
          ["download"; "summarize"; "read"].

Definition is_citation_task (task_lower : string) : bool :=
  Py.contains "citation" task_lower || Py.contains "reference" task_lower.

Definition info (msg : string) (lg : list log_entry) : list log_entry :=
  lg ++ [LogInfoTask msg].

(** The body of the [try] in [run]. *)
Definition run_body (task : string) (max_results : option Z)
  (lg : list log_entry) : raised run_result * list log_entry :=
  let task_lower := Py.strip (Py.lower task) in
  if is_search_task task_lower then
    let query :=
      match Re.search Re.no_flags "about (.+)" task_lower with
      | Some m => Py.strip (default "" (Re.group m 1))
      | None =>
          Py.strip (Py.remove_all "papers" (Py.remove_all "search" task_lower))
      end in
    let '(r, lg') :=
      search_papers query max_results
        (info ("Executing search task with query: " +:+ query)
           (info ("DEBUG: Agent is searching for '" +:+ query +:+ "'") lg)) in
    (Return (FromSearch r), lg')
  else if is_paper_task task_lower then
    match Py.find "http" task 0 with
    | None => (ValueError "No URL found in task", lg)
    | Some url_start =>
        let url_end := default (Py.len task) (Py.find " " task url_start) in
        let url :=
          Py.rstrip_chars (fun c => Py.contains (String c "") ".,;")
                          (Py.slice url_start url_end task) in
        if bool_decide (url = "") then (ValueError "Invalid URL in task", lg)
        else
          let '(r, lg') :=
            process_paper url
              (info ("Executing paper processing task for URL: " +:+ url) lg) in
          (Return (FromPaper r), lg')
    end
  else if is_citation_task task_lower then
    match Py.split_colon1 task with
    | [_; part] =>
        let text := Py.strip part in
        if bool_decide (text = "") then
          (ValueError "Empty text for citation extraction", lg)
        else
          let '(r, lg') :=
            extract_citations text (lg ++ [LogInfoTextLength (Py.len text)]) in
          (Return (FromCitations r), lg')
    | _ => (ValueError "No text provided for citation extraction", lg)
    end
  else (ValueError ("Unknown task type: " +:+ task), lg).

(** [run], for a [task] that is a string. *)
Definition run (task : string) (max_results : option Z)
  (lg : list log_entry) : run_result * list log_entry :=
  if bool_decide (task = "") then
    (Failure "Invalid task: must be a non-empty string",
     lg ++ [LogError "Invalid task: must be a non-empty string"])
  else
    match run_body task max_results lg with
    | (Return r, lg') => (r, lg')
    | (ValueError msg, lg') =>
        (Failure msg, lg' ++ [LogError ("Invalid task format: " +:+ msg)])
    end.

(** The tasks that reach the third branch of [run]. *)
Definition reaches_citation_branch (task : string) : bool :=
  let task_lower := Py.strip (Py.lower task) in
  negb (bool_decide (task = ""))
  && negb (is_search_task task_lower)
  && negb (is_paper_task task_lower)
  && is_citation_task task_lower.

End Dispatcher.

End Agent.

(** ** Notions used to state the properties *)

(** The character [c] occurs in [s]. *)
Definition occurs (c : ascii) (s : string) : Prop :=
  exists a b, s = a +:+ String c b.

(** The words a pattern can match: the language of its syntax tree, where
    the anchors consume nothing. *)
Fixpoint iter (n : nat) (L : string -> Prop) (w : string) : Prop :=
  match n with
  | O => w = ""
  | S n' => exists w1 w2, w = w1 +:+ w2 /\ L w1 /\ iter n' L w2
  end.

Fixpoint lang (fl : Re.flags) (r : Re.regex) (w : string) : Prop :=
  match r with
  | Re.REmpty | Re.RBol | Re.REol | Re.REos => w = ""
  | Re.RChars cs => exists c, w = String c "" /\ Re.char_ok fl cs c = true
  | Re.RAny => exists c, w = String c "" /\ Re.any_ok fl c = true
  | Re.RSeq r1 r2 => exists w1 w2, w = w1 +:+ w2 /\ lang fl r1 w1 /\ lang fl r2 w2
  | Re.RAlt r1 r2 => lang fl r1 w \/ lang fl r2 w
  | Re.RGroup _ r1 => lang fl r1 w
  | Re.RRepeat r1 lo hi _ =>
      exists n, lo <= n /\ (forall h, hi = Some h -> n <= h)
                /\ iter n (lang fl r1) w
  end.

(** Group spans that are well formed and end at or before offset [n]. *)
Definition bounded (n : nat) (cs : Re.captures) : Prop :=
  Forall (fun g => g.2.1 <= g.2.2 /\ g.2.2 <= n) cs.

(** A matcher in continuation style is sound for [L] when whatever it
    hands to its continuation is the rest of the text after a word of
    [L], with group spans that end inside the text read so far. *)
Definition sound_for {A} (L : string -> Prop)
  (body : nat -> string -> Re.captures ->
          (nat -> string -> Re.captures -> option A) -> option A) : Prop :=
  forall i s cs k res,
    body i s cs k = Some res ->
    exists w s' cs',
      s = w +:+ s' /\ L w
      /\ (bounded i cs -> bounded (i + Py.len w) cs')
      /\ k (i + Py.len w) s' cs' = Some res.

(** What a match object returned by the scanner satisfies. *)
Record match_ok (fl : Re.flags) (r : Re.regex) (text : string) (m : Re.Match)
  : Prop := {
  ok_string : Re.m_string m = text;
  ok_order : Re.m_start m <= Re.m_end m;
  ok_bound : Re.m_end m <= Py.len text;
  ok_lang : lang fl r (Re.group0 m);
  ok_groups : bounded (Re.m_end m) (Re.m_groups m)
}.

(** A syntactic test: every word of the language of [r] contains a
    decimal digit. *)
Definition is_digit_class (it : Re.cset_item) : bool :=
  match it with
  | Re.CDigit => true
  | _ => false
  end.

Fixpoint needs_digit (r : Re.regex) : bool :=
  match r with
  | Re.RChars cs => forallb is_digit_class cs
  | Re.RSeq r1 r2 => needs_digit r1 || needs_digit r2
  | Re.RAlt r1 r2 => needs_digit r1 && needs_digit r2
  | Re.RGroup _ r1 => needs_digit r1
  | Re.RRepeat r1 lo _ _ => Nat.ltb 0 lo && needs_digit r1
  | _ => false
  end.

(** The key string the source builds for a record (lines 132, 149, 162). *)
Definition citation_key (c : Citation) : string :=
  match c with
  | Numerical citation_text number citation_type _ =>
      citation_type +:+ "_" +:+ citation_text +:+ "_" +:+ number
  | TwoAuthor author1 author2 year citation_type _ =>
      citation_type +:+ "_" +:+ author1 +:+ "_" +:+ author2 +:+ "_" +:+ year
  | SingleAuthor author year citation_type _ =>
      citation_type +:+ "_" +:+ author +:+ "_" +:+ year
  end.

(** The dedup key as a tuple: (citation_type, citation_text, number) for a
    numerical record, (citation_type, author(s), year) for a named one. *)
Inductive DedupKey : Type :=
| NumericalKey (citation_type citation_text number : string)
| NamedKey (citation_type : string) (authors : list string) (year : string).

Definition dedup_key (c : Citation) : DedupKey :=
  match c with
  | Numerical citation_text number citation_type _ =>
      NumericalKey citation_type citation_text number
  | TwoAuthor author1 author2 year citation_type _ =>
      NamedKey citation_type [author1; author2] year
  | SingleAuthor author year citation_type _ =>
      NamedKey citation_type [author] year
  end.

Definition render_key (k : DedupKey) : string :=
  match k with
  | NumericalKey citation_type citation_text number =>
      citation_type +:+ "_" +:+ citation_text +:+ "_" +:+ number
  | NamedKey citation_type authors year =>
      citation_type +:+ "_"
        +:+ foldr (fun a rest => a +:+ "_" +:+ rest) year authors
  end.

Definition is_numerical_record (c : Citation) : Prop :=
  exists citation_text number citation_type context,
    c = Numerical citation_text number citation_type context.

(** An outcome whose key is the key of its record. *)
Definition consistent (o : outcome) : Prop :=
  match o with
  | Built c key => key = citation_key c
  | _ => True
  end.

(** The records the loop body builds from one match, before the
    membership test on [seen_citations]. *)
Definition built_of (o : outcome) : list Citation :=
  match o with
  | Built c _ => [c]
  | _ => []
  end.

Definition candidates (current_year : Z)
  (current_text citation_type pattern : string) (m : Re.Match)
  : list Citation :=
  match route pattern m with
  | NumericalBranch =>
      (fun num =>
         (numerical_citation citation_type (Re.group0 m)
            (context_of current_text m) num).1)
        <$> Re.findall "\d+" (Re.group0 m)
  | TwoAuthorBranch =>
      built_of (two_author_branch current_year current_text citation_type m)
  | SingleAuthorBranch =>
      built_of (single_author_branch current_year current_text citation_type m)
  end.

(** [c] was built from a match of a library pattern in [current_text]. *)
Definition built_from (current_year : Z) (current_text citation_type : string)
  (c : Citation) : Prop :=
  exists pattern m,
    pattern ∈ patterns /\ m ∈ Re.finditer pattern current_text
    /\ c ∈ candidates current_year current_text citation_type pattern m.

(** The loop invariant behind the absence of duplicate keys. *)
Definition keys_ok (st : State) : Prop :=
  NoDup (citation_key <$> citations st)
  /\ forall c, c ∈ citations st -> citation_key c ∈ seen_citations st.

(** The part of the loop state the returned list depends on. *)
Definition data (st : State) : list Citation * gset string :=
  (citations st, seen_citations st).

(** The texts of the two scenarios of the specification. *)
Definition brackets_text : string := "See [1] and [2,3] for details.".

Definition smith_text : string :=
  "Smith (2020) showed X. " +:+ String Py.nl (String Py.nl "References")
  +:+ String Py.nl "Smith, J. (2020). Title.".


Definition number_of (c : Citation) : option string :=
  match c with
  | Numerical _ number _ _ => Some number
  | _ => None
  end.

(** The outcome the scenario on [brackets_text] describes: exactly three
    numerical records, numbered 1, 2 and 3, all tagged inline. *)
Definition three_inline_numbers (out : list Citation) : Prop :=
  length out = 3
  /\ number_of <$> out = [Some "1"; Some "2"; Some "3"]
  /\ Forall (fun c => citation_type_of c = "inline") out.

(** A named record with the given author and year. *)
Definition is_named (author year : string) (c : Citation) : Prop :=
  exists citation_type context,
    c = SingleAuthor author year citation_type context.

(** Two successive calls on the same text: the second starts from the log
    the first left. *)
Definition run_twice (current_year : Z) (text : string) (lg : list log_entry)
  : list Citation * list Citation :=
  let '(first, lg1) := extract_citations current_year text lg in
  let '(second, _) := extract_citations current_year text lg1 in
  (first, second).

(** Every pattern of the library contains "[", or contains "(" and
    forces a digit into each of its matches. *)
Definition forces_numerical (pattern : string) : bool :=
  Py.contains "[" pattern
  || (Py.contains "(" pattern
      && match Re.compile pattern with
         | Some r => needs_digit r
         | None => false
         end).


(** The offsets of the references block in the document: the span of
    group 1 of the heading match. *)
Definition references_block (text : string) : option (nat * nat) :=
  m ← references_match text; Re.span m 1.

(** The two scans of [extract_citations], each with the offset of the
    scanned text in the document. *)
Definition scans (text : string) (blk : nat * nat)
  : list (nat * string * string) :=
  [(0, text, "inline"); (blk.1, references_text text, "reference")].

Definition strictly_inside (blk : nat * nat) (a b : nat) : Prop :=
  blk.1 < a /\ b < blk.2.

Definition inside (blk : nat * nat) (a b : nat) : Prop :=
  blk.1 <= a /\ b <= blk.2.

Definition outside (blk : nat * nat) (a b : nat) : Prop :=
  b <= blk.1 \/ blk.2 <= a.

(** Tagging by position: a record whose match lies strictly inside the
    references block is tagged reference, one whose match lies outside it
    is tagged inline. *)
Definition tagged_by_position (current_year : Z) (text : string)
  (lg : list log_entry) : Prop :=
  forall blk c off current_text citation_type pattern m,
    references_block text = Some blk ->
    c ∈ (extract_citations current_year text lg).1 ->
    (off, current_text, citation_type) ∈ scans text blk ->
    pattern ∈ patterns ->
    m ∈ Re.finditer pattern current_text ->
    c ∈ candidates current_year current_text citation_type pattern m ->
    (strictly_inside blk (off + Re.m_start m) (off + Re.m_end m) ->
     citation_type_of c = "reference")
    /\ (outside blk (off + Re.m_start m) (off + Re.m_end m) ->
        citation_type_of c = "inline").

Definition block_text : string := "References" +:+ String Py.nl "(see [7])".

(** [m] is a match of a library pattern in [current_text], and [num] a
    digit run of the matched text. *)
Definition found_in (current_text pattern : string) (m : Re.Match)
  (num : string) : Prop :=
  pattern ∈ patterns /\ m ∈ Re.finditer pattern current_text
  /\ num ∈ Re.findall "\d+" (Re.group0 m).

(** The record of the digit run [num] of the match [m] found while
    [current_text] is scanned under the tag [citation_type]. *)
Definition scan_record (current_text citation_type : string) (m : Re.Match)
  (num : string) : Citation :=
  Numerical (Re.group0 m) num citation_type (context_of current_text m).

(** Tagging by scan: [out] is the records of the matches in the whole
    text, tagged inline, followed by the records of the matches in the
    references text, tagged reference. The latter matches lie inside the
    block [blk], which is where the references text sits in the document;
    every match of either scan, wherever it lies, has a record for each
    of its digit runs in the part of its scan. *)
Definition scan_tagged (text : string) (blk : nat * nat)
  (out : list Citation) : Prop :=
  exists inline_part reference_part,
    out = inline_part ++ reference_part
    /\ references_text text = Py.slice blk.1 blk.2 text
    /\ Forall (fun c => exists pattern m num,
                  found_in text pattern m num
                  /\ c = scan_record text "inline" m num)
              inline_part
    /\ Forall (fun c => exists pattern m num,
                  found_in (references_text text) pattern m num
                  /\ inside blk (blk.1 + Re.m_start m) (blk.1 + Re.m_end m)
                  /\ c = scan_record (references_text text) "reference"
                         m num)
              reference_part
    /\ (forall pattern m num,
          found_in text pattern m num ->
          exists context,
            Numerical (Re.group0 m) num "inline" context ∈ inline_part)
    /\ (forall pattern m num,
          found_in (references_text text) pattern m num ->
          exists context,
            Numerical (Re.group0 m) num "reference" context
            ∈ reference_part).

(** Stand-ins for the two collaborators of the dispatcher. *)
Definition no_search (query : string) (max_results : option Z)
  (lg : list log_entry) : unit * list log_entry := (tt, lg).

Definition no_paper (url : string) (lg : list log_entry)
  : unit * list log_entry := (tt, lg).

(** Stripping one trailing lowercase letter. *)
Definition is_lower (c : ascii) : bool := Py.in_range 97 122 c.

Fixpoint strip_trailing_letter (s : string) : string :=
  match s with
  | EmptyString => EmptyString
  | String c s' =>
      if is_lower c && bool_decide (s' = "") then ""
      else String c (strip_trailing_letter s')
  end.

(** The year bound of the validator. *)
Definition year_in_bounds (current_year : Z) (year : string) : Prop :=
  exists n, Py.int (strip_trailing_letter year) = Some n
            /\ (1800 <= n <= current_year + 1)%Z.

Definition ends_with (c : ascii) (s : string) : Prop :=
  exists pre, s = pre +:+ String c "".

(** What the pattern of [_validate_year] does, written by recursion on the
    text: [$] holds at the end of the text and before a last newline. *)
Definition eol (s : string) : bool :=
  match s with
  | EmptyString => true
  | String c EmptyString => Ascii.eqb c Py.nl
  | _ => false
  end.

Fixpoint first_hit (i : nat) (s : string) : option nat :=
  match s with
  | EmptyString => None
  | String c s' => if is_lower c && eol s' then Some i else first_hit (S i) s'
  end.

Fixpoint strip_eol_letter (s : string) : string :=
  match s with
  | EmptyString => EmptyString
  | String c s' =>
      if is_lower c && eol s' then s' else String c (strip_eol_letter s')
  end.

Definition letter_eol : Re.regex :=
  Re.RSeq (Re.RChars [Re.CRange "a" "z"]) Re.REol.

(** Two continuations that agree on every rest of [s], reached at the
    matching offset. *)
Definition agree {A} (i : nat) (s : string)
  (k1 k2 : nat -> string -> Re.captures -> option A) : Prop :=
  forall w s' cs', s = w +:+ s' -> k1 (i + Py.len w) s' cs' = k2 (i + Py.len w) s' cs'.

Definition extensional {A}
  (body : nat -> string -> Re.captures ->
          (nat -> string -> Re.captures -> option A) -> option A) : Prop :=
  forall i s cs k1 k2, agree i s k1 k2 -> body i s cs k1 = body i s cs k2.


(** ** Further notions for the properties of the extraction engine *)

Fixpoint all_chars (f : ascii -> bool) (s : string) : bool :=
  match s with
  | EmptyString => true
  | String c s' => f c && all_chars f s'
  end.

(** [u] occurs in [s] as a run of consecutive characters. *)
Definition substring_of (u s : string) : Prop :=
  exists pre post, s = pre +:+ u +:+ post.

Definition citation_text_of (c : Citation) : option string :=
  match c with
  | Numerical citation_text _ _ _ => Some citation_text
  | _ => None
  end.

Definition context_field (c : Citation) : string :=
  match c with
  | Numerical _ _ _ context | TwoAuthor _ _ _ _ context
  | SingleAuthor _ _ _ context => context
  end.

Definition is_bracket (c : ascii) : bool :=
  Ascii.eqb c "(" || Ascii.eqb c "[".

Definition is_bracket_item (it : Re.cset_item) : bool :=
  match it with
  | Re.CChar c => is_bracket c
  | _ => false
  end.

(** A syntactic test: every word of the language of [r] contains an
    opening parenthesis or square bracket. *)
Fixpoint needs_bracket (r : Re.regex) : bool :=
  match r with
  | Re.RChars cs => forallb is_bracket_item cs
  | Re.RSeq r1 r2 => needs_bracket r1 || needs_bracket r2
  | Re.RAlt r1 r2 => needs_bracket r1 && needs_bracket r2
  | Re.RGroup _ r1 => needs_bracket r1
  | Re.RRepeat r1 lo _ _ => Nat.ltb 0 lo && needs_bracket r1
  | _ => false
  end.

Definition digit_run : Re.regex :=
  Re.RRepeat (Re.RChars [Re.CDigit]) 1 None true.

(** Loop invariants behind "every match leaves a record": each key seen
    is the key of a record kept. *)
Definition seen_has_record (st : State) : Prop :=
  forall key, key ∈ seen_citations st ->
              exists c, c ∈ citations st /\ citation_key c = key.

(** [st'] extends the records of [st] by records that satisfy [P], and
    forgets no key. *)
Definition extends (P : Citation -> Prop) (st st' : State) : Prop :=
  (exists l, citations st' = citations st ++ l /\ Forall P l)
  /\ seen_citations st ⊆ seen_citations st'.

Definition quiet_text : string :=
  "Smith and Jones argued otherwise (see above).".

(** The value of a string of decimal digits read in base ten. *)
Fixpoint decimal_value (acc : Z) (s : string) : Z :=
  match s with
  | EmptyString => acc
  | String c s' => decimal_value (10 * acc + Py.digit_val c) s'
  end.

(** The characters [_validate_author] admits in a name. *)
Definition author_char (c : ascii) : bool :=
  Py.in_range 65 90 c || Py.in_range 97 122 c || Py.isspace c
  || Ascii.eqb c "-" || Ascii.eqb c "." || Ascii.eqb c "'".

Definition author_class : Re.charset :=
  [Re.CRange "A" "Z"; Re.CRange "a" "z"; Re.CSpace; Re.CChar "-";
   Re.CChar "."; Re.CChar "'"].

Definition author_regex : Re.regex :=
  Re.RSeq Re.RBol
    (Re.RSeq (Re.RRepeat (Re.RChars author_class) 1 None true) Re.REol).

(** The pattern of the search branch of [run]. *)
Definition about_regex : Re.regex :=
  Re.RSeq (Re.RChars [Re.CChar "a"])
    (Re.RSeq (Re.RChars [Re.CChar "b"])
       (Re.RSeq (Re.RChars [Re.CChar "o"])
          (Re.RSeq (Re.RChars [Re.CChar "u"])
             (Re.RSeq (Re.RChars [Re.CChar "t"])
                (Re.RSeq (Re.RChars [Re.CChar " "])
                   (Re.RGroup 1 (Re.RRepeat Re.RAny 1 None true))))))).

(** The instructions [main] builds for [run]. *)
Definition search_task (topic : string) : string :=
  "search papers about " +:+ topic.

Definition download_task (pdf_url : string) : string :=
  "download and summarize this paper: " +:+ pdf_url.

Definition is_url_trailer (c : ascii) : bool := Py.contains (String c "") ".,;".

Fixpoint last_char (s : string) : option ascii :=
  match s with
  | EmptyString => None
  | String c EmptyString => Some c
  | String _ s' => last_char s'
  end.

(** ** [ArxivSearch] (tools/arxiv_search.py) *)

Module Arxiv.

(** What the client does besides returning: the logging calls, one
    constructor for each, the line it prints and the call of
    [_check_rate_limit], which only waits and notes the time. *)
Inductive event : Type :=
| InfoProcessed (before after : nat)
| DebugKeyTerms (key_terms : list string)
| ErrorPreprocessing
| WarnNoPaperId (arxiv_url : string)
| WarnBadPaperId (paper_id : string)
| ErrorFormatting
| ErrorEmptyQuery
| PrintQuery (query : string)
| RateLimitCheck
| WarnSkipping (entry_id : string)
| ErrorApi (message : string)
| ErrorUnexpected (message : string).

(** *** [_format_pdf_url] *)

(** The class [[^/]]: every code point but the slash. *)
Definition not_slash : Re.charset :=
  [Re.CRange "000" "."; Re.CRange "0" "255"].

(** The syntax tree of [abs/([^/]+)$]. *)
Definition abs_regex : Re.regex :=
  Re.RSeq (Re.RChars [Re.CChar "a"])
    (Re.RSeq (Re.RChars [Re.CChar "b"])
       (Re.RSeq (Re.RChars [Re.CChar "s"])
          (Re.RSeq (Re.RChars [Re.CChar "/"])
             (Re.RSeq
                (Re.RGroup 1 (Re.RRepeat (Re.RChars not_slash) 1 None true))
                Re.REol)))).

Definition id_pattern : string := "^\d{4}\.\d{5}(?:v\d+)?$".

(** [s.split(c)[0]]: the text before the first [c]. *)
Fixpoint before_first (c : ascii) (s : string) : string :=
  match s with
  | EmptyString => EmptyString
  | String a s' =>
      if Ascii.eqb a c then EmptyString else String a (before_first c s')
  end.

(** A group that took no part would make [re.match] raise [TypeError],
    which the handler of line 119 turns into [None]. *)
Definition _format_pdf_url (arxiv_url : string) : option string * list event :=
  match Re.search_from Re.no_flags abs_regex arxiv_url 0 arxiv_url false with
  | None => (None, [WarnNoPaperId arxiv_url])
  | Some m =>
      match Re.group m 1 with
      | None => (None, [ErrorFormatting])
      | Some paper_id =>
          match Re.match_ id_pattern paper_id with
          | None => (None, [WarnBadPaperId paper_id])
          | Some _ =>
              let paper_id :=
                if Py.contains "v" paper_id then before_first "v" paper_id
                else paper_id in
              (Some ("https://arxiv.org/pdf/" +:+ paper_id +:+ ".pdf"), [])
          end
      end
  end.

(** *** [_preprocess_query] *)

(** [c.isalnum()] on the code points below 256. *)
Definition isalnum_char (c : ascii) : bool :=
  existsb (fun r => Py.in_range r.1 r.2 c)
    [(48, 57); (65, 90); (97, 122); (170, 170); (178, 179); (181, 181);
     (185, 186); (188, 190); (192, 214); (216, 246); (248, 255)]%N.

(** [s.isalnum()]: not empty, and every character alphanumeric. *)
Definition isalnum (s : string) : bool :=
  match s with
  | EmptyString => false
  | _ => all_chars isalnum_char s
  end.

(** [Counter(tokens)]: the distinct tokens in the order of their first
    occurrence, each with the number of its occurrences. *)
Fixpoint count_add (token : string) (acc : list (string * nat))
  : list (string * nat) :=
  match acc with
  | [] => [(token, 1)]
  | (t, n) :: acc' =>
      if String.eqb t token then (t, S n) :: acc'
      else (t, n) :: count_add token acc'
  end.

Definition Counter (tokens : list string) : list (string * nat) :=
  foldl (fun acc token => count_add token acc) [] tokens.

(** [sorted(items, key=count, reverse=True)]: the sort is stable, so an
    item goes behind the items that count at least as much. *)
Fixpoint insert_desc (x : string * nat) (l : list (string * nat))
  : list (string * nat) :=
  match l with
  | [] => [x]
  | y :: l' =>
      if Nat.ltb y.2 x.2 then x :: y :: l' else y :: insert_desc x l'
  end.

Definition sorted_desc (l : list (string * nat)) : list (string * nat) :=
  foldl (fun acc x => insert_desc x acc) [] l.

(** [term_freq.most_common(n)]; nothing for [n <= 0]. *)
Definition most_common (n : Z) (term_freq : list (string * nat))
  : list (string * nat) :=
  take (Z.to_nat n) (sorted_desc term_freq).

(** [sep.join(l)] *)
Fixpoint join (sep : string) (l : list string) : string :=
  match l with
  | [] => ""
  | [x] => x
  | x :: l' => x +:+ sep +:+ join sep l'
  end.

(** *** The results of the arXiv client *)

(** A [datetime]: the wall-clock reading in microseconds and, when the
    value is timezone aware, its offset from UTC. *)
Record datetime : Type := {
  wall : Z;
  utcoffset : option Z
}.

(** [d.replace(tzinfo=timezone.utc)] *)
Definition replace_utc (d : datetime) : datetime :=
  {| wall := wall d; utcoffset := Some 0%Z |}.

(** The instant an aware value denotes; aware values compare by it. *)
Definition instant (d : datetime) : Z :=
  (wall d - default 0 (utcoffset d))%Z.

(** An [arxiv.Result], with the attributes the loop reads. *)
Record entry : Type := {
  entry_id : string;
  r_title : string;
  r_authors : list string;
  r_summary : string;
  r_published : datetime;
  r_doi : option string
}.

(** What iterating over [search.results()] yields: results, then the end
    or an exception. *)
Inductive feed : Type :=
| Done
| Yield (result : entry) (rest : feed)
| RaiseArxivError (message : string)
| RaiseOther (message : string).

(** The dictionary built for a paper; [published] stands for the ISO text
    of that value. *)
Record paper_data : Type := {
  title : string;
  authors : list string;
  summary : string;
  published : datetime;
  pdf_url : string;
  doi : option string;
  arxiv_url : string
}.

(** The dictionary [search] returns: "results", and "error" when the
    search failed. *)
Record search_result : Type := {
  results : list paper_data;
  error : option string
}.

(** How the loop of [search] ends. *)
Inductive loop_end : Type :=
| Finished (results : list paper_data)
| ArxivError (message : string)
| OtherError (message : string).

(** [x or y] for an optional integer [x]. *)
Definition or_int (x : option Z) (y : Z) : Z :=
  match x with
  | Some n => if Z.eqb n 0 then y else n
  | None => y
  end.

Section Client.

(** The tokenizer and the stop words of NLTK, the clock and the arXiv API
    are outside this development. [word_tokenize] gives [None] when it
    raises; [date_filter_of days_back] is
    [datetime.now(timezone.utc) - timedelta(days=days_back)] as an
    instant, or the message of the exception it raises;
    [arxiv_results query max_results] is what the configured search
    yields. *)
Variable word_tokenize : string -> option (list string).
Variable stop_words : gset string.
Variable self_max_results : Z.
Variable date_filter_of : Z -> string + Z.
Variable arxiv_results : string -> Z -> feed.

Definition keep_token (token : string) : bool :=
  bool_decide (token ∉ stop_words) && isalnum token
  && Nat.ltb 2 (Py.len token).

Definition key_terms_of (tokens : list string) (max_terms : Z)
  : list string :=
  fst <$> most_common max_terms (Counter (List.filter keep_token tokens)).

Definition _preprocess_query (query : string) (max_terms : Z)
  : string * list event :=
  if Nat.leb (Py.len query) 200 then (query, [])
  else
    match word_tokenize (Py.lower query) with
    | Some tokens =>
        let key_terms := key_terms_of tokens max_terms in
        let processed_query := join " AND " key_terms in
        (processed_query,
         [InfoProcessed (Py.len query) (Py.len processed_query);
          DebugKeyTerms key_terms])
    | None => (Py.take 200 query, [ErrorPreprocessing])
    end.

(** The body of the loop of lines 165-199 for one result: the dictionary
    appended, if any, and the events. *)
Definition paper_of (date_filter : Z) (result : entry)
  : option paper_data * list event :=
  let published :=
    match utcoffset (r_published result) with
    | None => replace_utc (r_published result)
    | Some _ => r_published result
    end in
  if Z.ltb (instant published) date_filter then (None, [])
  else
    let '(url, ev) := _format_pdf_url (entry_id result) in
    match url with
    | None | Some EmptyString => (None, ev ++ [WarnSkipping (entry_id result)])
    | Some pdf_url =>
        (Some {| title := r_title result; authors := r_authors result;
                 summary := r_summary result; published := published;
                 pdf_url := pdf_url; doi := r_doi result;
                 arxiv_url := entry_id result |}, ev)
    end.

(** The loop over what is left of the feed: [results] and [tr] are the
    list and the events so far. *)
Fixpoint collect (date_filter limit : Z) (f : feed)
  (results : list paper_data) (tr : list event) : loop_end * list event :=
  match f with
  | Done => (Finished results, tr)
  | RaiseArxivError message => (ArxivError message, tr)
  | RaiseOther message => (OtherError message, tr)
  | Yield result rest =>
      match paper_of date_filter result with
      | (None, ev) => collect date_filter limit rest results (tr ++ ev)
      | (Some paper, ev) =>
          let results := results ++ [paper] in
          if Z.leb limit (Z.of_nat (length results))
          then (Finished results, tr ++ ev)
          else collect date_filter limit rest results (tr ++ ev)
      end
  end.

Definition search (query : string) (max_results : option Z) (days_back : Z)
  : search_result * list event :=
  if bool_decide (query = "") then
    ({| results := []; error := None |}, [ErrorEmptyQuery])
  else
    let tr := [PrintQuery query; RateLimitCheck] in
    let '(query, ev) :=
      if Nat.ltb 200 (Py.len query) then _preprocess_query query 10
      else (query, []) in
    let tr := tr ++ ev in
    match date_filter_of days_back with
    | inl message =>
        ({| results := []; error := Some "An unexpected error occurred" |},
         tr ++ [ErrorUnexpected message])
    | inr date_filter =>
        let limit := or_int max_results self_max_results in
        match collect date_filter limit (arxiv_results query limit) [] tr with
        | (Finished results, tr) =>
            ({| results := results; error := None |}, tr)
        | (ArxivError message, tr) =>
            ({| results := []; error := Some message |},
             tr ++ [ErrorApi message])
        | (OtherError message, tr) =>
            ({| results := [];
                error := Some "An unexpected error occurred" |},
             tr ++ [ErrorUnexpected message])
        end
    end.

End Client.

End Arxiv.

(** ** Notions for the properties of the arXiv client *)

(** [s] is made of exactly [n] decimal digits. *)
Definition digits (n : nat) (s : string) : bool :=
  Nat.eqb (Py.len s) n && all_chars Py.isdecimal s.

(** A version suffix: nothing, or "v" and at least one digit. *)
Definition is_version (v : string) : bool :=
  match v with
  | EmptyString => true
  | String c ds =>
      Ascii.eqb c "v" && Nat.ltb 0 (Py.len ds) && all_chars Py.isdecimal ds
  end.

(** A feed that yields the results of a list and ends. *)
Fixpoint feed_of (l : list Arxiv.entry) : Arxiv.feed :=
  match l with
  | [] => Arxiv.Done
  | result :: l' => Arxiv.Yield result (feed_of l')
  end.

(** The most results a search returns: the limit, but one when the limit
    is below one. *)
Definition cap (limit : Z) : nat := Z.to_nat (Z.max 1 limit).

(** How often [t] occurs in [l]. *)
Definition occurrences (t : string) (l : list string) : nat :=
  length (List.filter (String.eqb t) l).

(** A list of pairs in descending order of the counts. *)
Definition descending (l : list (string * nat)) : Prop :=
  forall a b x y, l = a ++ x :: b -> y ∈ b -> y.2 <= x.2.

(** Sample results of the arXiv API: the second has an identifier of the
    old scheme, the third is older than the others. *)
Definition sample_entry (id : string) (day : Z) : Arxiv.entry :=
  {| Arxiv.entry_id := id; Arxiv.r_title := "A title";
     Arxiv.r_authors := ["A. Author"]; Arxiv.r_summary := "A summary";
     Arxiv.r_published := {| Arxiv.wall := day; Arxiv.utcoffset := None |};
     Arxiv.r_doi := None |}.

Definition sample_entries : list Arxiv.entry :=
  [sample_entry "http://arxiv.org/abs/2101.00001v1" 50;
   sample_entry "http://arxiv.org/abs/cs/0001001v1" 50;
   sample_entry "http://arxiv.org/abs/2101.00002v3" 5;
   sample_entry "http://arxiv.org/abs/2101.00003v2" 50;
   sample_entry "http://arxiv.org/abs/2101.00004v1" 50].

(** [term_freq[t]], and 0 for a missing key. *)
Fixpoint count_in (t : string) (term_freq : list (string * nat)) : nat :=
  match term_freq with
  | [] => 0
  | (u, n) :: term_freq' =>
      if String.eqb u t then n else count_in t term_freq'
  end.

(** A query of more than 200 characters and a tokenizer for it. *)
Definition long_query : string :=
  "We study the dynamics of dark matter halos in galaxy clusters and the "
  +:+ "influence of dark energy on the formation of structure, with a "
  +:+ "comparison of simulations of dark matter and observations of "
  +:+ "galaxy clusters at high redshift".

Definition sample_tokenize (text : string) : option (list string) :=
  Some ["we"; "study"; "the"; "dynamics"; "of"; "dark"; "matter"; "halos";
        "in"; "galaxy"; "clusters"; "and"; "the"; "influence"; "of"; "dark";
        "energy"; "on"; "the"; "formation"; "of"; "structure"; ","; "with";
        "a"; "comparison"; "of"; "simulations"; "of"; "dark"; "matter";
        "and"; "observations"; "of"; "galaxy"; "clusters"; "at"; "high";
        "redshift"].

Definition sample_stop_words : gset string :=
  {["we"; "the"; "of"; "in"; "and"; "on"; "with"; "a"; "at"]}.

(** ** [PDFProcessor] (tools/pdf_processor.py) *)

Module Pdf.

Definition bytes : Type := list Byte.byte.

(** What the processor does besides returning: the requests, the waits
    and the logging calls, one constructor for each. *)
Inductive event : Type :=
| ErrorUrlFormat (url : string)
| WarnNoPdfSuffix (url : string)
| ErrorValidating (url message : string)
| ErrorInvalidUrl (url : string)
| InfoStarting (url : string)
| Get (url : string)
| ErrorContentType (url content_type : string)
| ErrorEmptyContent (url : string)
| InfoDownloaded (url : string) (content_length : nat)
| WarnAttemptFailed (attempt : nat) (url message : string)
| InfoWaiting (retry : nat)
| Sleep
| ErrorGaveUp (url : string) (max_retries : nat)
| ErrorNoContent
| ErrorReadFailed (message : string)
| ErrorNoPages
| InfoExtracting (pages : nat)
| DebugPage (i characters : nat)
| WarnNoPageText (i : nat)
| WarnPageFailed (i : nat) (message : string)
| ErrorNoText
| InfoExtracted (characters : nat).

(** A response: what [raise_for_status] raises, if anything, the
    content-type header, if any, and the body. *)
Record response : Type := {
  http_error : option string;
  content_type : option string;
  content : bytes
}.

(** [requests.get] raises a [RequestException] or responds. *)
Inductive get_outcome : Type :=
| RequestException (message : string)
| Responds (r : response).

(** The [RequestException] of lines 69-74, or the response that passed
    [raise_for_status]. *)
Definition checked (o : get_outcome) : string + response :=
  match o with
  | RequestException message => inl message
  | Responds r =>
      match http_error r with
      | Some message => inl message
      | None => inr r
      end
  end.

(** [page.extract_text()] returns a text or raises. *)
Inductive page : Type :=
| PageText (page_text : string)
| PageRaises (message : string).

(** The values of the dictionary [process_pdf] returns. *)
Inductive value : Type :=
| VNone
| VBool (b : bool)
| VStr (s : string).

(** [s.endswith(suffix)] *)
Fixpoint endswith (suffix s : string) : bool :=
  String.eqb suffix s
  || match s with
     | EmptyString => false
     | String _ s' => endswith suffix s'
     end.

Section Processor.

(** The URL parser, the network and the PDF reader are outside this
    development. [urlparse url] is the scheme and the network location,
    or the message of the exception; [requests_get history url] is what
    the request that follows the events [history] meets;
    [read_pdf pdf_content] is the list of pages, or the message of the
    exception the reader raises. *)
Variable urlparse : string -> string + string * string.
Variable requests_get : list event -> string -> get_outcome.
Variable read_pdf : bytes -> string + list page.
Variable max_retries : nat.

Definition _validate_pdf_url (url : string) (tr : list event)
  : bool * list event :=
  match urlparse url with
  | inr (scheme, netloc) =>
      if bool_decide (scheme = "") || bool_decide (netloc = "") then
        (false, tr ++ [ErrorUrlFormat url])
      else if endswith ".pdf" (Py.lower url) then (true, tr)
      else (true, tr ++ [WarnNoPdfSuffix url])
  | inl message => (false, tr ++ [ErrorValidating url message])
  end.

(** The loop of lines 67-97: [attempt] is the loop variable and
    [remaining] what is left of the range. *)
Fixpoint attempts (url : string) (remaining attempt : nat) (tr : list event)
  : option bytes * list event :=
  match remaining with
  | O => (None, tr)
  | S remaining' =>
      let tr := tr ++ [Get url] in
      match checked (requests_get tr url) with
      | inr r =>
          let content_type := Py.lower (default "" (content_type r)) in
          if negb (Py.contains "application/pdf" content_type) then
            (None, tr ++ [ErrorContentType url content_type])
          else
            let content_length := length (content r) in
            if Nat.eqb content_length 0 then
              (None, tr ++ [ErrorEmptyContent url])
            else (Some (content r), tr ++ [InfoDownloaded url content_length])
      | inl message =>
          let tr := tr ++ [WarnAttemptFailed (attempt + 1) url message] in
          if Nat.ltb attempt (max_retries - 1) then
            attempts url remaining' (S attempt)
              (tr ++ [InfoWaiting (attempt + 2); Sleep])
          else (None, tr ++ [ErrorGaveUp url max_retries])
      end
  end.

Definition download_pdf (url : string) (tr : list event)
  : option bytes * list event :=
  let '(valid, tr) := _validate_pdf_url url tr in
  if negb valid then (None, tr ++ [ErrorInvalidUrl url])
  else attempts url max_retries 0 (tr ++ [InfoStarting url]).

(** The loop of lines 125-135 over the pages from number [i] on. *)
Fixpoint pages_text (pages : list page) (i : nat) (text : string)
  (tr : list event) : string * list event :=
  match pages with
  | [] => (text, tr)
  | PageText page_text :: pages' =>
      if bool_decide (page_text = "") then
        pages_text pages' (S i) text (tr ++ [WarnNoPageText i])
      else
        pages_text pages' (S i)
          (text +:+ page_text +:+ String Py.nl (String Py.nl ""))
          (tr ++ [DebugPage i (Py.len page_text)])
  | PageRaises message :: pages' =>
      pages_text pages' (S i) text (tr ++ [WarnPageFailed i message])
  end.

Definition extract_text (pdf_content : bytes) (tr : list event)
  : option string * list event :=
  match pdf_content with
  | [] => (None, tr ++ [ErrorNoContent])
  | _ =>
      match read_pdf pdf_content with
      | inr [] => (None, tr ++ [ErrorNoPages])
      | inr pages =>
          let '(text, tr) :=
            pages_text pages 1 "" (tr ++ [InfoExtracting (length pages)]) in
          if bool_decide (text = "") then (None, tr ++ [ErrorNoText])
          else (Some (Py.strip text), tr ++ [InfoExtracted (Py.len text)])
      | inl message => (None, tr ++ [ErrorReadFailed message])
      end
  end.

Definition process_pdf (url : string) (tr : list event)
  : gmap string value * list event :=
  let result : gmap string value :=
    {[ "success" := VBool false; "url" := VStr url; "text" := VNone;
       "error" := VNone ]} in
  let '(pdf_content, tr) := download_pdf url tr in
  match pdf_content with
  | None | Some [] =>
      (<["error" := VStr "Failed to download PDF"]> result, tr)
  | Some pdf_content =>
      let '(text, tr) := extract_text pdf_content tr in
      match text with
      | None | Some EmptyString =>
          (<["error" := VStr "Failed to extract text from PDF"]> result, tr)
      | Some text =>
          (<["text" := VStr text]> (<["success" := VBool true]> result), tr)
      end
  end.

End Processor.

End Pdf.

(** ** Notions for the properties of the PDF processor *)

Definition is_get (e : Pdf.event) : bool :=
  match e with
  | Pdf.Get _ => true
  | _ => false
  end.

Definition is_sleep (e : Pdf.event) : bool :=
  match e with
  | Pdf.Sleep => true
  | _ => false
  end.

(** The requests and the waits among the events [ev]. *)
Definition gets (ev : list Pdf.event) : nat := length (List.filter is_get ev).

Definition sleeps (ev : list Pdf.event) : nat :=
  length (List.filter is_sleep ev).

(** The response accepted by [download_pdf]: it passed
    [raise_for_status], names a PDF content type and has a body. *)
Definition good_response (r : Pdf.response) : Prop :=
  Pdf.http_error r = None
  /\ Py.contains "application/pdf"
       (Py.lower (default "" (Pdf.content_type r))) = true
  /\ Pdf.content r <> [].

(** A network where the first request times out, and a reader that finds
    two pages. *)
(** The text a page contributes: none when the reader raises or gives an
    empty text. *)
Definition page_text_of (p : Pdf.page) : option string :=
  match p with
  | Pdf.PageText page_text =>
      if bool_decide (page_text = "") then None else Some page_text
  | Pdf.PageRaises _ => None
  end.

(** The texts, each followed by an empty line. *)
Fixpoint paragraphs (texts : list string) : string :=
  match texts with
  | [] => ""
  | t :: texts' =>
      t +:+ String Py.nl (String Py.nl "") +:+ paragraphs texts'
  end.

Definition sample_urlparse (url : string) : string + string * string :=
  if Py.startswith "https://" url then inr ("https", "arxiv.org")
  else inr ("", "").

Definition sample_get (history : list Pdf.event) (url : string)
  : Pdf.get_outcome :=
  if Nat.ltb (gets history) 2 then Pdf.RequestException "timed out"
  else Pdf.Responds {| Pdf.http_error := None;
                       Pdf.content_type := Some "application/pdf";
                       Pdf.content := [Byte.x25; Byte.x50; Byte.x44;
                                       Byte.x46] |}.

Definition sample_read_pdf (pdf_content : Pdf.bytes)
  : string + list Pdf.page :=
  inr [Pdf.PageText " As shown in [1], the effect is small. ";
       Pdf.PageText ""].

(** ** The citation summary of [main] (main.py) *)

Module Main.

(** [numerical_citations[num].append(citation_text)], with a new list for
    a new key; the dictionary keeps the keys in the order of insertion. *)
Fixpoint group_add (num citation_text : string)
  (numerical_citations : list (string * list string))
  : list (string * list string) :=
  match numerical_citations with
  | [] => [(num, [citation_text])]
  | (k, l) :: rest =>
      if String.eqb k num then (k, l ++ [citation_text]) :: rest
      else (k, l) :: group_add num citation_text rest
  end.

(** The body of the loop of lines 209-216; only a numerical record has
    the key "number". *)
Definition group_step
  (acc : list (string * list string) * list Citation) (citation : Citation)
  : list (string * list string) * list Citation :=
  match citation with
  | Numerical citation_text number _ _ =>
      (group_add number citation_text acc.1, acc.2)
  | _ => (acc.1, acc.2 ++ [citation])
  end.

(** Lines 203-216: the inline records, grouped by number. *)
Definition group_inline (citations : list Citation)
  : list (string * list string) * list Citation :=
  foldl group_step ([], [])
    (List.filter (fun c => String.eqb (citation_type_of c) "inline")
       citations).

(** [sorted(items, key=lambda x: int(x[0]))]: the keys are computed
    first, and [int] may raise; the sort is stable, so an item goes
    behind the items whose key is not greater. *)
Fixpoint insert_asc (x : Z * (string * list string))
  (l : list (Z * (string * list string))) : list (Z * (string * list string)) :=
  match l with
  | [] => [x]
  | y :: l' => if Z.ltb x.1 y.1 then x :: y :: l' else y :: insert_asc x l'
  end.

Definition sorted_by_int (items : list (string * list string))
  : option (list (string * list string)) :=
  match mapM (fun item : string * list string =>
                match Py.int item.1 with
                | Some n => Some (n, item)
                | None => None
                end) items with
  | Some keyed => Some ((foldl (fun acc x => insert_asc x acc) [] keyed).*2)
  | None => None
  end.

(** [len(list(set(l)))] *)
Definition distinct (l : list string) : nat :=
  size (list_to_set l : gset string).

(** Lines 218-222: for each number, in the order of the sort, the number
    and the count that are printed; [None] when [int] raises. *)
Definition numerical_lines (citations : list Citation)
  : option (list (string * nat)) :=
  match sorted_by_int (group_inline citations).1 with
  | Some items =>
      Some ((fun item : string * list string => (item.1, distinct item.2))
              <$> items)
  | None => None
  end.

End Main.

(** ** Notions for the properties of the citation summary *)

(** [numerical_citations[num]], and the empty list for a missing key. *)
Fixpoint group_in (num : string) (groups : list (string * list string))
  : list string :=
  match groups with
  | [] => []
  | (k, l) :: rest => if String.eqb k num then l else group_in num rest
  end.

(** The citation texts of the numerical records with number [num]. *)
Definition texts_of (num : string) (l : list Citation) : list string :=
  omap (fun c =>
          match c with
          | Numerical citation_text number _ _ =>
              if String.eqb number num then Some citation_text else None
          | _ => None
          end) l.

(** How many inline records have the number [num]. *)
Definition inline_count (num : string) (l : list Citation) : nat :=
  length (texts_of num
            (List.filter (fun c => String.eqb (citation_type_of c) "inline")
               l)).

(** No inline record has a number of more digits than [int] converts. *)
Definition short_numbers (l : list Citation) : bool :=
  forallb (fun c =>
             match c with
             | Numerical _ number citation_type _ =>
                 negb (String.eqb citation_type "inline")
                 || Nat.leb (Py.len number) Py.int_max_str_digits
             | _ => true
             end) l.

(** Lines in ascending order of the integers their numbers denote. *)
Definition ascending (lines : list (string * nat)) : Prop :=
  forall a b x y,
    lines = a ++ x :: b -> y ∈ b ->
    exists nx ny, Py.int x.1 = Some nx /\ Py.int y.1 = Some ny /\ (nx <= ny)%Z.

(** Keyed items in ascending order of the keys. *)
Definition increasing {A} (l : list (Z * A)) : Prop :=
  forall a b x y, l = a ++ x :: b -> y ∈ b -> (x.1 <= y.1)%Z.

(** ** Facts about strings *)

(** Membership in a list that evaluates to a list of closed terms. *)
Ltac elem_by_compute := apply list_elem_of_In; vm_compute; auto.

Lemma append_cons (x : ascii) (a b : string) :
  String x a +:+ b = String x (a +:+ b).
Proof. reflexivity. Qed.

Lemma append_assoc (a b c : string) : (a +:+ b) +:+ c = a +:+ (b +:+ c).
Proof.
  induction a as [|x a IH]; [reflexivity|].
  rewrite !append_cons. f_equal. exact IH.
Qed.

Lemma append_empty_r (a : string) : a +:+ "" = a.
Proof.
  induction a as [|x a IH]; [reflexivity|].
  rewrite append_cons. f_equal. exact IH.
Qed.

Lemma len_append (a b : string) : Py.len (a +:+ b) = Py.len a + Py.len b.
Proof.
  induction a as [|x a IH]; [reflexivity|].
  rewrite append_cons. cbn. f_equal. exact IH.
Qed.

Lemma take_len_append (a b : string) : Py.take (Py.len a) (a +:+ b) = a.
Proof.
  induction a as [|x a IH]; [by destruct b|].
  rewrite append_cons. cbn. f_equal. exact IH.
Qed.

Lemma drop_step (i : nat) (text : string) (c : ascii) (s : string) :
  Py.drop i text = String c s -> Py.drop (S i) text = s /\ S i <= Py.len text.
Proof.
  revert text. induction i as [|i IH]; intros text H.
  - simpl in H. subst text. simpl. split; [reflexivity | lia].
  - destruct text as [|x text]; simpl in H; [discriminate|].
    apply IH in H as [H1 H2]. split; [exact H1 | simpl; lia].
Qed.

Lemma drop_len (i : nat) (text : string) :
  i <= Py.len text -> Py.len (Py.drop i text) = Py.len text - i.
Proof.
  revert text. induction i as [|i IH]; intros text H; simpl.
  - unfold Py.len. lia.
  - destruct text as [|x text]; simpl in *; [lia|]. apply IH. lia.
Qed.

Lemma existsb_chars_append (f : ascii -> bool) (a b : string) :
  Py.existsb_chars f (a +:+ b) = Py.existsb_chars f a || Py.existsb_chars f b.
Proof.
  induction a as [|x a IH]; [reflexivity|].
  rewrite append_cons. cbn. rewrite <- orb_assoc. f_equal. exact IH.
Qed.

Lemma startswith_char (c : ascii) (s : string) :
  Py.startswith (String c "") s = true <-> exists b, s = String c b.
Proof.
  destruct s as [|x s]; simpl.
  - split; [discriminate | intros [b Hb]; discriminate].
  - rewrite andb_true_r. split.
    + intros H. apply Ascii.eqb_eq in H. subst. by eexists.
    + intros [b Hb]. injection Hb as -> _. apply Ascii.eqb_refl.
Qed.

Lemma contains_char_occurs (c : ascii) (s : string) :
  Py.contains (String c "") s = true <-> occurs c s.
Proof.
  induction s as [|x s IH].
  - simpl. split; [discriminate|]. intros (a & b & H). by destruct a.
  - change (Py.contains (String c "") (String x s))
      with (Py.startswith (String c "") (String x s)
            || Py.contains (String c "") s).
    rewrite orb_true_iff, startswith_char, IH. split.
    + intros [[b Hb] | (a & b & Hab)].
      * exists "", b. exact Hb.
      * exists (String x a), b. rewrite append_cons. by rewrite Hab.
    + intros (a & b & Hab). destruct a as [|y a].
      * left. by exists b.
      * right. rewrite append_cons in Hab. injection Hab as _ ->.
        by exists a, b.
Qed.

Lemma existsb_chars_occurs (f : ascii -> bool) (s : string) :
  Py.existsb_chars f s = true <-> exists c, occurs c s /\ f c = true.
Proof.
  induction s as [|x s IH]; simpl.
  - split; [discriminate|]. intros (c & (a & b & H) & _). by destruct a.
  - rewrite orb_true_iff, IH. split.
    + intros [H | (c & (a & b & Hab) & Hc)].
      * exists x. split; [by exists "", s | exact H].
      * exists c. split; [|exact Hc].
        exists (String x a), b. rewrite append_cons. by rewrite Hab.
    + intros (c & (a & b & Hab) & Hc). destruct a as [|y a].
      * injection Hab as -> _. by left.
      * rewrite append_cons in Hab. injection Hab as _ ->. right.
        exists c. split; [by exists a, b | exact Hc].
Qed.

(** ** The model on small inputs *)

Example compile_paren_number :
  Re.compile "\((\d+)\)"
  = Some (Re.RSeq (Re.RChars [Re.CChar "("])
            (Re.RSeq
               (Re.RGroup 1 (Re.RRepeat (Re.RChars [Re.CDigit]) 1 None true))
               (Re.RChars [Re.CChar ")"]))).
Proof. vm_compute. reflexivity. Qed.

Example finditer_bracket_with_words :
  (fun m => (Re.m_start m, Re.m_end m, Re.group0 m, Re.group m 1))
    <$> Re.finditer "\[(\d+)\](?:\s*[A-Za-z\s\-\.\']+)?" brackets_text
  = [(4, 12, "[1] and ", Some "1")].
Proof. vm_compute. reflexivity. Qed.

Example finditer_bracket_list :
  (fun m => (Re.m_start m, Re.m_end m, Re.group0 m, Re.group m 1))
    <$> Re.finditer "\[(\d+(?:,\s*\d+)*)\]" brackets_text
  = [(4, 7, "[1]", Some "1"); (12, 17, "[2,3]", Some "2,3")].
Proof. vm_compute. reflexivity. Qed.

Example findall_digit_runs : Re.findall "\d+" "[1, 22,333]" = ["1"; "22"; "333"].
Proof. vm_compute. reflexivity. Qed.

Example references_text_smith :
  references_text smith_text = "Smith, J. (2020). Title."
  /\ references_block smith_text = Some (36, 60).
Proof. vm_compute. split; reflexivity. Qed.

Example references_text_none : references_text brackets_text = "".
Proof. vm_compute. reflexivity. Qed.

Example validate_year_samples :
  _validate_year 2026 "2020" = true /\ _validate_year 2026 "2020a" = true
  /\ _validate_year 2026 "1799" = false /\ _validate_year 2026 "2028" = false
  /\ _validate_year 2026 "20a0" = false.
Proof. vm_compute. repeat split. Qed.

Example validate_author_samples :
  _validate_author "Smith" = true /\ _validate_author "O'Neil-Smith Jr." = true
  /\ _validate_author "S" = false /\ _validate_author "Smith2" = false
  /\ _validate_author "  " = false.
Proof. vm_compute. repeat split. Qed.

Example single_author_branch_smith :
  single_author_branch 2026 "Smith (2020) showed X." "inline"
    {| Re.m_string := "Smith (2020) showed X."; Re.m_start := 0;
       Re.m_end := 12; Re.m_groups := [(2, (7, 11)); (1, (0, 5))] |}
  = Built (SingleAuthor "Smith" "2020" "inline" "Smith (2020) showed X.")
          "inline_Smith_2020".
Proof. vm_compute. reflexivity. Qed.

Example run_search_topic :
  (Agent.run string unit (fun query _ lg => (query, lg)) no_paper 2026
     "search papers about dark matter" None []).1
  = Agent.FromSearch string unit "dark matter".
Proof. vm_compute. reflexivity. Qed.

Example run_unknown_task :
  (Agent.run unit unit no_search no_paper 2026 "hello" None []).1
  = Agent.Failure unit unit "Unknown task type: hello".
Proof. vm_compute. reflexivity. Qed.

(** ** Soundness of the matcher *)

Lemma repeat_loop_eq {A}
  (body : nat -> string -> Re.captures ->
          (nat -> string -> Re.captures -> option A) -> option A)
  (lo : nat) (hi : option nat) (greedy : bool)
  (k : nat -> string -> Re.captures -> option A)
  (fuel count i : nat) (s : string) (cs : Re.captures) :
  Re.repeat_loop body lo hi greedy k fuel count i s cs =
  let more :=
    match fuel with
    | O => None
    | S f =>
        if Re.below count hi then
          body i s cs (fun i' s' cs' =>
            if Nat.ltb count lo || Nat.ltb i i'
            then Re.repeat_loop body lo hi greedy k f (S count) i' s' cs'
            else None)
        else None
    end in
  let stop := if Nat.leb lo count then k i s cs else None in
  if greedy
  then match more with Some a => Some a | None => stop end
  else match stop with Some a => Some a | None => more end.
Proof. destruct fuel, greedy; reflexivity. Qed.

Lemma repeat_loop_sound {A} (L : string -> Prop)
  (body : nat -> string -> Re.captures ->
          (nat -> string -> Re.captures -> option A) -> option A)
  (lo : nat) (hi : option nat) (greedy : bool)
  (k : nat -> string -> Re.captures -> option A) :
  sound_for L body ->
  forall fuel count i s cs res,
    Re.repeat_loop body lo hi greedy k fuel count i s cs = Some res ->
    exists n w s' cs',
      s = w +:+ s' /\ iter n L w /\ lo <= count + n
      /\ (forall h, hi = Some h -> count <= h -> count + n <= h)
      /\ (bounded i cs -> bounded (i + Py.len w) cs')
      /\ k (i + Py.len w) s' cs' = Some res.
Proof.
  intros Hbody.
  induction fuel as [|f IH]; intros count i s cs res H;
    rewrite repeat_loop_eq in H; cbv zeta in H.
  all: set (stop := if Nat.leb lo count then k i s cs else None) in H.
  all: assert (Hstop : stop = Some res ->
         exists n w s' cs',
           s = w +:+ s' /\ iter n L w /\ lo <= count + n
           /\ (forall h, hi = Some h -> count <= h -> count + n <= h)
           /\ (bounded i cs -> bounded (i + Py.len w) cs')
           /\ k (i + Py.len w) s' cs' = Some res)
    by (unfold stop; intros Hs;
        destruct (Nat.leb lo count) eqn:Hlo; [|discriminate];
        apply Nat.leb_le in Hlo;
        exists 0, "", s, cs; simpl; rewrite !Nat.add_0_r;
        repeat split; [lia | intros; lia | done | exact Hs]).
  - destruct greedy; [exact (Hstop H)|].
    destruct stop; [exact (Hstop H) | discriminate].
  - set (more := if Re.below count hi then _ else None) in H.
    assert (Hmore : more = Some res ->
      exists n w s' cs',
        s = w +:+ s' /\ iter n L w /\ lo <= count + n
        /\ (forall h, hi = Some h -> count <= h -> count + n <= h)
        /\ (bounded i cs -> bounded (i + Py.len w) cs')
        /\ k (i + Py.len w) s' cs' = Some res).
    { unfold more. intros Hm.
      destruct (Re.below count hi) eqn:Hb; [|discriminate].
      apply Hbody in Hm as (w1 & s1 & cs1 & -> & Hw1 & Hb1 & Hk).
      destruct (Nat.ltb count lo || Nat.ltb i (i + Py.len w1)); [|discriminate].
      apply IH in Hk as (n & w2 & s2 & cs2 & -> & Hw2 & Hlo & Hhi & Hb2 & Hk).
      exists (S n), (w1 +:+ w2), s2, cs2.
      rewrite append_assoc, len_append, Nat.add_assoc.
      repeat split; [|lia| |exact (fun Hcs => Hb2 (Hb1 Hcs))|exact Hk].
      - simpl. by exists w1, w2.
      - intros h -> Hc. unfold Re.below in Hb. apply Nat.ltb_lt in Hb.
        specialize (Hhi h eq_refl). lia. }
    destruct greedy.
    + destruct more; [exact (Hmore H) | exact (Hstop H)].
    + destruct stop; [exact (Hstop H) | exact (Hmore H)].
Qed.

Lemma bounded_mono (n n' : nat) (cs : Re.captures) :
  n <= n' -> bounded n cs -> bounded n' cs.
Proof.
  intros Hn H. eapply Forall_impl; [exact H|].
  intros g [H1 H2]. simpl. lia.
Qed.

Lemma rmatch_sound {A} (fl : Re.flags) (r : Re.regex) :
  sound_for (A := A) (lang fl r) (Re.rmatch fl r).
Proof.
  induction r as [ | set | | | | | r1 IH1 r2 IH2 | r1 IH1 r2 IH2
                 | r1 IH1 lo hi greedy | idx r1 IH1 ];
    intros i s cs k res H;
    [simpl in H .. | | simpl in H];
    [ | | | | | | | | change (Re.repeat_loop (Re.rmatch fl r1) lo hi greedy k
                              (S (lo + Py.len s)) 0 i s cs = Some res) in H | ].
  - exists "", s, cs. simpl. by rewrite Nat.add_0_r.
  - destruct s as [|c s']; [discriminate|].
    destruct (Re.char_ok fl set c) eqn:Hc; [|discriminate].
    exists (String c ""), s', cs. simpl. rewrite Nat.add_1_r.
    split; [reflexivity|]. split; [by exists c|].
    split; [apply bounded_mono; lia | exact H].
  - destruct s as [|c s']; [discriminate|].
    destruct (Re.any_ok fl c) eqn:Hc; [|discriminate].
    exists (String c ""), s', cs. simpl. rewrite Nat.add_1_r.
    split; [reflexivity|]. split; [by exists c|].
    split; [apply bounded_mono; lia | exact H].
  - destruct (Nat.eqb i 0); [|discriminate].
    exists "", s, cs. simpl. by rewrite Nat.add_0_r.
  - exists "", s, cs. simpl. rewrite Nat.add_0_r.
    split; [reflexivity|]. split; [reflexivity|]. split; [done|].
    destruct s as [|c [|d s']]; [exact H | | discriminate].
    by destruct (Ascii.eqb c Py.nl).
  - destruct s; [|discriminate].
    exists "", "", cs. simpl. by rewrite Nat.add_0_r.
  - apply IH1 in H as (w1 & s1 & cs1 & -> & Hw1 & Hb1 & H).
    apply IH2 in H as (w2 & s2 & cs2 & -> & Hw2 & Hb2 & H).
    exists (w1 +:+ w2), s2, cs2.
    rewrite append_assoc, len_append, Nat.add_assoc.
    split; [reflexivity|]. split; [by exists w1, w2|].
    split; [exact (fun Hcs => Hb2 (Hb1 Hcs)) | exact H].
  - unfold Re.orelse in H.
    destruct (Re.rmatch fl r1 i s cs k) eqn:E.
    + injection H as ->.
      apply IH1 in E as (w & s' & cs' & -> & Hw & Hb & Hk).
      exists w, s', cs'. split; [reflexivity|]. split; [by left | done].
    + apply IH2 in H as (w & s' & cs' & -> & Hw & Hb & Hk).
      exists w, s', cs'. split; [reflexivity|]. split; [by right | done].
  - apply (repeat_loop_sound (lang fl r1)) in H; [|exact IH1].
    destruct H as (n & w & s' & cs' & -> & Hw & Hlo & Hhi & Hb & Hk).
    exists w, s', cs'. split; [reflexivity|]. split; [|done].
    exists n. split; [lia|]. split; [|exact Hw].
    intros h Hh. specialize (Hhi h Hh). lia.
  - apply IH1 in H as (w & s' & cs' & -> & Hw & Hb & Hk).
    exists w, s', ((idx, (i, i + Py.len w)) :: cs').
    split; [reflexivity|]. split; [exact Hw|]. split; [|exact Hk].
    intros Hcs. apply Forall_cons. split; [simpl; lia | exact (Hb Hcs)].
Qed.

Lemma search_from_eq (fl : Re.flags) (r : Re.regex) (text : string) (i : nat)
  (s : string) (adv : bool) :
  Re.search_from fl r text i s adv =
  match Re.rmatch fl r i s [] (fun e _ cs =>
          if adv && Nat.eqb e i then None
          else Some {| Re.m_string := text; Re.m_start := i; Re.m_end := e;
                       Re.m_groups := cs |}) with
  | Some m => Some m
  | None =>
      match s with
      | EmptyString => None
      | String _ s' => Re.search_from fl r text (S i) s' false
      end
  end.
Proof. destruct s; reflexivity. Qed.

Lemma search_from_sound (fl : Re.flags) (r : Re.regex) (text : string) :
  forall s i adv m,
    Py.drop i text = s -> i <= Py.len text ->
    Re.search_from fl r text i s adv = Some m ->
    match_ok fl r text m.
Proof.
  induction s as [|c s' IH]; intros i adv m Hs Hi H;
    rewrite search_from_eq in H.
  all: match type of H with
       | match ?x with _ => _ end = _ => destruct x as [m'|] eqn:E
       end.
  all: try discriminate.
  all: try (apply drop_step in Hs as [Hs Hi']; by eapply IH).
  all: injection H as ->.
  all: apply rmatch_sound in E as (w & t & cs' & Hw & HL & Hb & Hk).
  all: destruct (adv && Nat.eqb (i + Py.len w) i); [discriminate|].
  all: injection Hk as <-.
  all: assert (Hlen : Py.len (Py.drop i text) = Py.len text - i)
         by (by apply drop_len).
  all: rewrite Hs, Hw, len_append in Hlen.
  all: split; simpl; [reflexivity | lia | lia | | by apply Hb, Forall_nil].
  all: unfold Re.group0, Py.slice; simpl.
  all: replace (i + Py.len w - i) with (Py.len w) by lia.
  all: by rewrite Hs, Hw, take_len_append.
Qed.

Lemma scan_sound (fl : Re.flags) (r : Re.regex) (text : string) :
  forall fuel pos adv m,
    pos <= Py.len text ->
    m ∈ Re.scan fuel fl r text pos adv ->
    match_ok fl r text m.
Proof.
  induction fuel as [|f IH]; intros pos adv m Hpos Hin; simpl in Hin.
  - by apply elem_of_nil in Hin.
  - destruct (Re.search_from fl r text pos (Py.drop pos text) adv)
      as [m0|] eqn:E; [|by apply elem_of_nil in Hin].
    apply search_from_sound in E; [|reflexivity|exact Hpos].
    apply elem_of_cons in Hin as [-> | Hin]; [exact E|].
    eapply IH; [|exact Hin]. by destruct E.
Qed.

Lemma finditer_sound (pattern text : string) (m : Re.Match) :
  m ∈ Re.finditer pattern text ->
  exists r, Re.compile pattern = Some r /\ match_ok Re.no_flags r text m.
Proof.
  unfold Re.finditer, Re.finditer_flags. intros Hin.
  destruct (Re.compile pattern) as [r|]; [|by apply elem_of_nil in Hin].
  exists r. split; [reflexivity|].
  eapply scan_sound; [|exact Hin]. lia.
Qed.

(** ** The fuel of the matcher is never exhausted *)

Lemma agree_here {A} (i : nat) (s : string)
  (k1 k2 : nat -> string -> Re.captures -> option A) (cs : Re.captures) :
  agree i s k1 k2 -> k1 i s cs = k2 i s cs.
Proof.
  intros H. specialize (H "" s cs eq_refl). simpl in H.
  by rewrite Nat.add_0_r in H.
Qed.

Lemma agree_after {A} (i : nat) (w s' : string)
  (k1 k2 : nat -> string -> Re.captures -> option A) :
  agree i (w +:+ s') k1 k2 -> agree (i + Py.len w) s' k1 k2.
Proof.
  intros H w2 s2 cs2 ->.
  specialize (H (w +:+ w2) s2 cs2). rewrite len_append, Nat.add_assoc in H.
  apply H. by rewrite append_assoc.
Qed.

Lemma repeat_loop_ext {A}
  (body : nat -> string -> Re.captures ->
          (nat -> string -> Re.captures -> option A) -> option A)
  (lo : nat) (hi : option nat) (greedy : bool) :
  extensional body ->
  forall fuel count i s cs k1 k2,
    agree i s k1 k2 ->
    Re.repeat_loop body lo hi greedy k1 fuel count i s cs
    = Re.repeat_loop body lo hi greedy k2 fuel count i s cs.
Proof.
  intros Hbody. induction fuel as [|f IH]; intros count i s cs k1 k2 Hk;
    rewrite !repeat_loop_eq; cbv zeta; rewrite (agree_here _ _ _ _ cs Hk);
    [reflexivity|].
  replace (body i s cs (fun i' s' cs' =>
             if Nat.ltb count lo || Nat.ltb i i'
             then Re.repeat_loop body lo hi greedy k1 f (S count) i' s' cs'
             else None))
    with (body i s cs (fun i' s' cs' =>
             if Nat.ltb count lo || Nat.ltb i i'
             then Re.repeat_loop body lo hi greedy k2 f (S count) i' s' cs'
             else None)); [reflexivity|].
  apply Hbody. intros w s' cs' ->.
  destruct (Nat.ltb count lo || Nat.ltb i (i + Py.len w)); [|reflexivity].
  symmetry. apply IH. by apply agree_after.
Qed.

Lemma rmatch_ext {A} (fl : Re.flags) (r : Re.regex) :
  extensional (A := A) (Re.rmatch fl r).
Proof.
  induction r as [ | set | | | | | r1 IH1 r2 IH2 | r1 IH1 r2 IH2
                 | r1 IH1 lo hi greedy | idx r1 IH1 ];
    intros i s cs k1 k2 Hk; cbn [Re.rmatch].
  - by apply agree_here.
  - destruct s as [|c s']; [reflexivity|].
    destruct (Re.char_ok fl set c); [|reflexivity].
    specialize (Hk (String c "") s' cs eq_refl). simpl in Hk.
    by rewrite Nat.add_1_r in Hk.
  - destruct s as [|c s']; [reflexivity|].
    destruct (Re.any_ok fl c); [|reflexivity].
    specialize (Hk (String c "") s' cs eq_refl). simpl in Hk.
    by rewrite Nat.add_1_r in Hk.
  - by rewrite (agree_here _ _ _ _ cs Hk).
  - by rewrite (agree_here _ _ _ _ cs Hk).
  - by rewrite (agree_here _ _ _ _ cs Hk).
  - apply IH1. intros w s' cs' ->. apply IH2. by apply agree_after.
  - by rewrite (IH1 _ _ _ _ _ Hk), (IH2 _ _ _ _ _ Hk).
  - apply repeat_loop_ext; [exact IH1 | exact Hk].
  - apply IH1. intros w s' cs' Hs. by apply Hk.
Qed.

(** With fuel above the lower bound still owed plus the length of the
    text, the loop of a repetition gives the same result as with any
    larger fuel. *)
Lemma repeat_loop_fuel {A}
  (body : nat -> string -> Re.captures ->
          (nat -> string -> Re.captures -> option A) -> option A)
  (lo : nat) (hi : option nat) (greedy : bool)
  (k : nat -> string -> Re.captures -> option A) :
  extensional body ->
  forall fuel fuel' count i s cs,
    (lo - count) + Py.len s < fuel -> fuel <= fuel' ->
    Re.repeat_loop body lo hi greedy k fuel' count i s cs
    = Re.repeat_loop body lo hi greedy k fuel count i s cs.
Proof.
  intros Hbody. induction fuel as [|f IH];
    intros fuel' count i s cs Hlt Hle; [lia|].
  destruct fuel' as [|f']; [lia|].
  rewrite !repeat_loop_eq; cbv zeta.
  replace (body i s cs (fun i' s' cs' =>
             if Nat.ltb count lo || Nat.ltb i i'
             then Re.repeat_loop body lo hi greedy k f' (S count) i' s' cs'
             else None))
    with (body i s cs (fun i' s' cs' =>
             if Nat.ltb count lo || Nat.ltb i i'
             then Re.repeat_loop body lo hi greedy k f (S count) i' s' cs'
             else None)); [reflexivity|].
  apply Hbody. intros w s' cs' ->. rewrite len_append in Hlt.
  destruct (Nat.ltb count lo) eqn:E1; simpl.
  - apply Nat.ltb_lt in E1. symmetry. apply IH; lia.
  - destruct (Nat.ltb i (i + Py.len w)) eqn:E2; [|reflexivity].
    apply Nat.ltb_lt in E2. apply Nat.ltb_ge in E1.
    symmetry. apply IH; lia.
Qed.

Lemma rmatch_repeat_fuel {A} (fl : Re.flags) (r : Re.regex) (lo : nat)
  (hi : option nat) (greedy : bool) (i : nat) (s : string)
  (cs : Re.captures) (k : nat -> string -> Re.captures -> option A)
  (fuel : nat) :
  S (lo + Py.len s) <= fuel ->
  Re.repeat_loop (Re.rmatch fl r) lo hi greedy k fuel 0 i s cs
  = Re.rmatch fl (Re.RRepeat r lo hi greedy) i s cs k.
Proof.
  intros H. cbn [Re.rmatch].
  apply repeat_loop_fuel; [apply rmatch_ext | lia | exact H].
Qed.

Lemma search_from_advances (fl : Re.flags) (r : Re.regex) (text : string) :
  forall s i adv m,
    Py.drop i text = s -> i <= Py.len text ->
    Re.search_from fl r text i s adv = Some m ->
    i <= Re.m_start m /\ (adv = true -> i < Re.m_end m).
Proof.
  induction s as [|c s' IH]; intros i adv m Hs Hi H;
    pose proof (search_from_sound fl r text _ i adv m Hs Hi H) as Hok;
    rewrite search_from_eq in H.
  all: match type of H with
       | match ?x with _ => _ end = _ => destruct x as [m'|] eqn:E
       end.
  all: try discriminate.
  all: try (apply drop_step in Hs as [Hs Hi'];
            destruct (IH _ _ _ Hs Hi' H) as [H1 _];
            destruct Hok as [_ Ho _ _ _]; split; intros; lia).
  all: injection H as ->.
  all: apply rmatch_sound in E as (w & t & cs' & Hw & HL & Hb & Hk).
  all: destruct (adv && Nat.eqb (i + Py.len w) i) eqn:Ea; [discriminate|].
  all: injection Hk as <-; simpl.
  all: split; [lia|]; intros ->; simpl in Ea.
  all: apply Nat.eqb_neq in Ea; lia.
Qed.

(** With fuel above twice the length of the text left plus one, the
    scanner gives the same matches as with any larger fuel. *)
Lemma scan_fuel (fl : Re.flags) (r : Re.regex) (text : string) :
  forall (fuel fuel' pos : nat) (adv : bool),
    pos <= Py.len text ->
    2 * (Py.len text - pos) + (if adv then 0 else 1) < fuel ->
    fuel <= fuel' ->
    Re.scan fuel' fl r text pos adv = Re.scan fuel fl r text pos adv.
Proof.
  induction fuel as [|f IH]; intros fuel' pos adv Hpos Hlt Hle; [lia|].
  destruct fuel' as [|f']; [lia|]. simpl.
  destruct (Re.search_from fl r text pos (Py.drop pos text) adv)
    as [m|] eqn:E; [|reflexivity].
  f_equal.
  destruct (search_from_sound _ _ _ _ _ _ _ eq_refl Hpos E)
    as [_ Hord Hend _ _].
  destruct (search_from_advances _ _ _ _ _ _ _ eq_refl Hpos E) as [Hge Hadv].
  apply IH; [exact Hend | | lia].
  destruct (Nat.eqb (Re.m_start m) (Re.m_end m)) eqn:Ee.
  - apply Nat.eqb_eq in Ee. destruct adv; [specialize (Hadv eq_refl)|]; lia.
  - apply Nat.eqb_neq in Ee. destruct adv; lia.
Qed.

(** [finditer] does not depend on the fuel of its scanner. *)
Lemma finditer_fuel (pattern text : string) (r : Re.regex) (fuel : nat) :
  Re.compile pattern = Some r -> 2 * Py.len text + 2 <= fuel ->
  Re.scan fuel Re.no_flags r text 0 false = Re.finditer pattern text.
Proof.
  intros Hc Hf. unfold Re.finditer, Re.finditer_flags. rewrite Hc.
  apply scan_fuel; lia.
Qed.

(** ** Matches of the library patterns *)

Lemma needs_digit_sound (r : Re.regex) :
  forall w, needs_digit r = true -> lang Re.no_flags r w ->
            Py.existsb_chars Py.isdigit w = true.
Proof.
  induction r as [ | set | | | | | r1 IH1 r2 IH2 | r1 IH1 r2 IH2
                 | r1 IH1 lo hi greedy | idx r1 IH1 ];
    intros w Hn Hw; simpl in Hn; try discriminate.
  - destruct Hw as (c & -> & Hc). simpl. rewrite orb_false_r.
    unfold Re.char_ok, Re.cs_mem in Hc. simpl in Hc.
    apply existsb_exists in Hc as (it & Hit & Hc).
    rewrite forallb_forall in Hn. specialize (Hn it Hit).
    destruct it; try discriminate. simpl in Hc.
    unfold Py.isdigit. by rewrite Hc.
  - destruct Hw as (w1 & w2 & -> & H1 & H2).
    rewrite existsb_chars_append. apply orb_true_iff.
    apply orb_true_iff in Hn as [Hn | Hn]; [left | right]; auto.
  - apply andb_true_iff in Hn as [Hn1 Hn2].
    destruct Hw as [Hw | Hw]; auto.
  - apply andb_true_iff in Hn as [Hlo Hn]. apply Nat.ltb_lt in Hlo.
    destruct Hw as (n & Hle & _ & Hit).
    destruct n as [|n]; [lia|].
    destruct Hit as (w1 & w2 & -> & H1 & _).
    rewrite existsb_chars_append. apply orb_true_iff. left. auto.
  - simpl in Hw. auto.
Qed.

Lemma patterns_force_numerical : forallb forces_numerical patterns = true.
Proof. vm_compute. reflexivity. Qed.

Lemma patterns_compile :
  forallb (fun p => bool_decide (is_Some (Re.compile p))) patterns = true.
Proof. vm_compute. reflexivity. Qed.

Lemma library_match_has_digit (pattern text : string) (m : Re.Match) :
  pattern ∈ patterns -> Py.contains "[" pattern = false ->
  m ∈ Re.finditer pattern text ->
  Py.contains "(" pattern = true
  /\ Py.existsb_chars Py.isdigit (Re.group0 m) = true.
Proof.
  intros Hp Hb Hm.
  pose proof patterns_force_numerical as HF.
  rewrite forallb_forall in HF.
  specialize (HF pattern (proj1 (list_elem_of_In _ _) Hp)).
  unfold forces_numerical in HF. rewrite Hb in HF. simpl in HF.
  apply andb_true_iff in HF as [Hparen HF]. split; [exact Hparen|].
  apply finditer_sound in Hm as (r & Hc & Hok).
  rewrite Hc in HF. eapply needs_digit_sound; [exact HF|]. by destruct Hok.
Qed.

Lemma library_route (pattern text : string) (m : Re.Match) :
  pattern ∈ patterns -> m ∈ Re.finditer pattern text ->
  route pattern m = NumericalBranch.
Proof.
  intros Hp Hm. unfold route, is_numerical.
  destruct (Py.contains "[" pattern) eqn:Hb; [reflexivity|].
  destruct (library_match_has_digit pattern text m Hp Hb Hm) as [-> ->].
  reflexivity.
Qed.

(** ** The loops of [extract_citations] *)

Lemma foldl_invariant {A B} (P : A -> Prop) (f : A -> B -> A) (l : list B) :
  forall a, P a -> (forall a x, x ∈ l -> P a -> P (f a x)) -> P (foldl f a l).
Proof.
  induction l as [|x l IH]; intros a Ha Hf; simpl; [exact Ha|].
  apply IH.
  - apply Hf; [left | exact Ha].
  - intros a' y Hy. apply Hf. by right.
Qed.

Lemma foldl_related {A B} (R : A -> A -> Prop) (f g : A -> B -> A)
  (l : list B) :
  (forall a b x, R a b -> R (f a x) (g b x)) ->
  forall a b, R a b -> R (foldl f a l) (foldl g b l).
Proof.
  intros Hf. induction l as [|x l IH]; intros a b Hab; simpl; auto.
Qed.

(** *** Which records a step can add *)

Lemma add_if_new_elem (d : bool) (c : Citation) (k : string) (st : State)
  (c' : Citation) :
  c' ∈ citations (add_if_new d c k st) -> c' ∈ citations st \/ c' = c.
Proof.
  unfold add_if_new. case_bool_decide as Hseen; simpl; [by left|].
  intros Hc. apply elem_of_app in Hc as [Hc | Hc]; [by left|].
  right. by apply list_elem_of_singleton in Hc.
Qed.

Lemma finish_elem (matched : string) (o : outcome) (st : State)
  (c : Citation) :
  c ∈ citations (finish matched o st) -> c ∈ citations st \/ c ∈ built_of o.
Proof.
  destruct o as [| |c0 k]; simpl; [by left | by left |].
  intros H. apply add_if_new_elem in H as [H | ->]; [by left|].
  right. by left.
Qed.

Lemma numerical_branch_elem (current_text citation_type : string)
  (m : Re.Match) (st : State) (c : Citation) :
  c ∈ citations (numerical_branch current_text citation_type m st) ->
  c ∈ citations st
  \/ c ∈ (fun num =>
            (numerical_citation citation_type (Re.group0 m)
               (context_of current_text m) num).1)
         <$> Re.findall "\d+" (Re.group0 m).
Proof.
  unfold numerical_branch.
  set (build := numerical_citation _ _ _).
  set (numbers := Re.findall _ _).
  destruct (last numbers) as [num_last|] eqn:Hlast; [|by left].
  apply last_Some_elem_of in Hlast.
  intros H. apply finish_elem in H as [H | H].
  - revert H. apply (foldl_invariant
      (fun st' => c ∈ citations st' ->
                  c ∈ citations st \/ c ∈ (fun num => (build num).1) <$> numbers)).
    + by left.
    + intros a num Hnum IH H.
      apply add_if_new_elem in H as [H | ->]; [by apply IH|].
      right. exact (list_elem_of_fmap_2 (fun n => (build n).1) _ _ Hnum).
  - right. simpl in H. apply list_elem_of_singleton in H as ->.
    exact (list_elem_of_fmap_2 (fun n => (build n).1) _ _ Hlast).
Qed.

Lemma handle_match_elem (current_year : Z)
  (current_text citation_type pattern : string) (st : State) (m : Re.Match)
  (c : Citation) :
  c ∈ citations (handle_match current_year current_text citation_type
                   pattern st m) ->
  c ∈ citations st
  \/ c ∈ candidates current_year current_text citation_type pattern m.
Proof.
  unfold handle_match, candidates. destruct (route pattern m).
  - apply numerical_branch_elem.
  - apply finish_elem.
  - apply finish_elem.
Qed.

Lemma handle_region_elem (current_year : Z) (st : State)
  (region : string * string) (c : Citation) :
  c ∈ citations (handle_region current_year st region) ->
  c ∈ citations st \/ built_from current_year region.1 region.2 c.
Proof.
  unfold handle_region.
  apply (foldl_invariant
    (fun st' => c ∈ citations st' ->
                c ∈ citations st \/ built_from current_year region.1 region.2 c)).
  - by left.
  - intros a pattern Hp IH. unfold handle_pattern.
    apply (foldl_invariant
      (fun st' => c ∈ citations st' ->
                  c ∈ citations st
                  \/ built_from current_year region.1 region.2 c)).
    + exact IH.
    + intros a' m Hm IH' H.
      apply handle_match_elem in H as [H | H]; [by apply IH'|].
      right. by exists pattern, m.
Qed.

Lemma extract_citations_empty (current_year : Z) (lg : list log_entry) :
  (extract_citations current_year "" lg).1 = [].
Proof. reflexivity. Qed.

Lemma extract_citations_eq (current_year : Z) (text : string)
  (lg : list log_entry) :
  text <> "" ->
  (extract_citations current_year text lg).1
  = citations
      (handle_region current_year
         (handle_region current_year (initial_state lg) (text, "inline"))
         (references_text text, "reference")).
Proof.
  intros Hne. unfold extract_citations.
  rewrite (bool_decide_eq_false_2 _ Hne). reflexivity.
Qed.

(** Every returned record was built from a match of a library pattern in
    one of the two texts, with the tag of that text. *)
Lemma extract_citations_elem (current_year : Z) (text : string)
  (lg : list log_entry) (c : Citation) :
  c ∈ (extract_citations current_year text lg).1 ->
  built_from current_year text "inline" c
  \/ built_from current_year (references_text text) "reference" c.
Proof.
  destruct (decide (text = "")) as [-> | Hne].
  - rewrite extract_citations_empty. intros Hc. by apply elem_of_nil in Hc.
  - rewrite extract_citations_eq by exact Hne. intros Hc.
    apply handle_region_elem in Hc as [Hc | Hc]; [|by right].
    apply handle_region_elem in Hc as [Hc | Hc]; [|by left].
    by apply elem_of_nil in Hc.
Qed.

Lemma candidates_numerical (current_year : Z)
  (current_text citation_type pattern : string) (m : Re.Match) (c : Citation) :
  pattern ∈ patterns -> m ∈ Re.finditer pattern current_text ->
  c ∈ candidates current_year current_text citation_type pattern m ->
  exists number,
    c = Numerical (Re.group0 m) number citation_type
          (context_of current_text m).
Proof.
  intros Hp Hm. unfold candidates.
  rewrite (library_route pattern current_text m Hp Hm).
  intros H. apply list_elem_of_fmap in H as (num & -> & _). by exists num.
Qed.

(** *** Keys stay distinct *)

Lemma add_if_new_keys (d : bool) (c : Citation) (k : string) (st : State) :
  k = citation_key c -> keys_ok st -> keys_ok (add_if_new d c k st).
Proof.
  intros -> [Hnd Hseen]. unfold add_if_new.
  case_bool_decide as Hin; [by split|].
  split; simpl.
  - rewrite fmap_app. apply NoDup_app. split; [exact Hnd|]. split.
    + intros key Hkey Hkey'. apply list_elem_of_singleton in Hkey' as ->.
      apply list_elem_of_fmap in Hkey as (c' & Heq & Hc').
      apply Hin. rewrite Heq. by apply Hseen.
    + apply NoDup_singleton.
  - intros c' Hc'. apply elem_of_app in Hc' as [Hc' | Hc'].
    + apply elem_of_union_r. by apply Hseen.
    + apply list_elem_of_singleton in Hc' as ->.
      apply elem_of_union_l. by apply elem_of_singleton.
Qed.

Lemma finish_keys (matched : string) (o : outcome) (st : State) :
  consistent o -> keys_ok st -> keys_ok (finish matched o st).
Proof.
  destruct o as [| |c k]; simpl; intros Ho Hst; [exact Hst | exact Hst |].
  by apply add_if_new_keys.
Qed.

Lemma two_author_branch_consistent (current_year : Z)
  (current_text citation_type : string) (m : Re.Match) :
  consistent (two_author_branch current_year current_text citation_type m).
Proof.
  unfold two_author_branch.
  destruct (Re.group m 1), (Re.group m 2), (Re.group m 3); simpl; try exact I.
  by destruct (negb _).
Qed.

Lemma single_author_branch_consistent (current_year : Z)
  (current_text citation_type : string) (m : Re.Match) :
  consistent (single_author_branch current_year current_text citation_type m).
Proof.
  unfold single_author_branch.
  destruct (Re.group m 1), (Re.group m 2); simpl; try exact I.
  by destruct (negb _).
Qed.

Lemma numerical_branch_keys (current_text citation_type : string)
  (m : Re.Match) (st : State) :
  keys_ok st -> keys_ok (numerical_branch current_text citation_type m st).
Proof.
  intros Hst. unfold numerical_branch.
  destruct (last _) as [num_last|]; [|exact Hst].
  apply finish_keys; [reflexivity|].
  apply foldl_invariant; [exact Hst|].
  intros a num _ Ha. by apply add_if_new_keys.
Qed.

Lemma handle_match_keys (current_year : Z)
  (current_text citation_type pattern : string) (st : State) (m : Re.Match) :
  keys_ok st ->
  keys_ok (handle_match current_year current_text citation_type pattern st m).
Proof.
  intros Hst. unfold handle_match. destruct (route pattern m).
  - by apply numerical_branch_keys.
  - apply finish_keys; [apply two_author_branch_consistent | exact Hst].
  - apply finish_keys; [apply single_author_branch_consistent | exact Hst].
Qed.

Lemma handle_region_keys (current_year : Z) (st : State)
  (region : string * string) :
  keys_ok st -> keys_ok (handle_region current_year st region).
Proof.
  intros Hst. unfold handle_region.
  apply foldl_invariant; [exact Hst|].
  intros a pattern _ Ha. unfold handle_pattern.
  apply foldl_invariant; [exact Ha|].
  intros a' m _ Ha'. by apply handle_match_keys.
Qed.

Lemma extract_citations_keys (current_year : Z) (text : string)
  (lg : list log_entry) :
  NoDup (citation_key <$> (extract_citations current_year text lg).1).
Proof.
  destruct (decide (text = "")) as [-> | Hne].
  - rewrite extract_citations_empty. apply NoDup_nil_2.
  - rewrite extract_citations_eq by exact Hne.
    assert (H0 : keys_ok (initial_state lg)).
    { split; [apply NoDup_nil_2|].
      intros c Hc. by apply elem_of_nil in Hc. }
    apply (handle_region_keys current_year _ (text, "inline")) in H0.
    apply (handle_region_keys current_year _
             (references_text text, "reference")) in H0.
    destruct H0 as [H0 _]. exact H0.
Qed.

Lemma citation_key_render (c : Citation) :
  citation_key c = render_key (dedup_key c).
Proof. destruct c; reflexivity. Qed.

(** *** The log does not influence the records *)

Lemma add_if_new_data (d1 d2 : bool) (c : Citation) (k : string)
  (st1 st2 : State) :
  data st1 = data st2 ->
  data (add_if_new d1 c k st1) = data (add_if_new d2 c k st2).
Proof.
  unfold data, add_if_new. intros [= Hc Hs]. rewrite Hs.
  case_bool_decide; simpl; by rewrite Hc, ?Hs.
Qed.

Lemma finish_data (matched : string) (o : outcome) (st1 st2 : State) :
  data st1 = data st2 ->
  data (finish matched o st1) = data (finish matched o st2).
Proof.
  destruct o as [| |c k]; simpl; intros H; [exact H | exact H |].
  by apply add_if_new_data.
Qed.

Lemma handle_match_data (current_year : Z)
  (current_text citation_type pattern : string) (st1 st2 : State)
  (m : Re.Match) :
  data st1 = data st2 ->
  data (handle_match current_year current_text citation_type pattern st1 m)
  = data (handle_match current_year current_text citation_type pattern st2 m).
Proof.
  intros H. unfold handle_match. destruct (route pattern m).
  - unfold numerical_branch. destruct (last _); [|exact H].
    apply finish_data.
    apply (foldl_related (fun a b => data a = data b)); [|exact H].
    intros a b num Hab. by apply add_if_new_data.
  - by apply finish_data.
  - by apply finish_data.
Qed.

Lemma handle_region_data (current_year : Z) (st1 st2 : State)
  (region : string * string) :
  data st1 = data st2 ->
  data (handle_region current_year st1 region)
  = data (handle_region current_year st2 region).
Proof.
  unfold handle_region.
  apply (foldl_related (fun a b => data a = data b)).
  intros a b pattern Hab. unfold handle_pattern.
  apply (foldl_related (fun a b => data a = data b)); [|exact Hab].
  intros a' b' m Hab'. by apply handle_match_data.
Qed.

Lemma extract_citations_log_irrelevant (current_year : Z) (text : string)
  (lg1 lg2 : list log_entry) :
  (extract_citations current_year text lg1).1
  = (extract_citations current_year text lg2).1.
Proof.
  destruct (decide (text = "")) as [-> | Hne]; [reflexivity|].
  rewrite !extract_citations_eq by exact Hne.
  assert (H : data (initial_state lg1) = data (initial_state lg2))
    by reflexivity.
  apply (handle_region_data current_year _ _ (text, "inline")) in H.
  apply (handle_region_data current_year _ _
           (references_text text, "reference")) in H.
  exact (f_equal fst H).
Qed.

Lemma process_text_log_irrelevant (current_year : Z) (text : string)
  (lg1 lg2 : list log_entry) :
  (process_text current_year text lg1).1
  = (process_text current_year text lg2).1.
Proof.
  unfold process_text. case_bool_decide as Hempty; [reflexivity|].
  pose proof (extract_citations_log_irrelevant current_year text lg1 lg2) as H.
  destruct (extract_citations current_year text lg1) as [f1 l1].
  destruct (extract_citations current_year text lg2) as [f2 l2].
  simpl in *. by rewrite H.
Qed.

(** ** The properties *)

(** C1. A match is handled by the numerical branch exactly when the
    character "[" occurs in the pattern string, or "(" occurs in it and the
    matched text contains a digit character. In particular a pattern
    with "(" whose match has a digit takes the numerical branch whatever
    citation style it was written for. *)
Theorem numerical_branch_condition (pattern : string) (m : Re.Match) :
  (route pattern m = NumericalBranch <->
   occurs "[" pattern
   \/ (occurs "(" pattern
       /\ exists c, occurs c (Re.group0 m) /\ Py.isdigit c = true))
  /\ (route pattern m = NumericalBranch ->
      forall current_year current_text citation_type st,
        handle_match current_year current_text citation_type pattern st m
        = numerical_branch current_text citation_type m st).
Proof.
  split.
  - unfold route, is_numerical.
    rewrite <- !contains_char_occurs, <- existsb_chars_occurs.
    destruct (Py.contains "[" pattern); simpl; [by split; [left|]|].
    destruct (Py.contains "(" pattern); simpl.
    + destruct (Py.existsb_chars Py.isdigit (Re.group0 m)); simpl.
      * split; [by right|done].
      * destruct (Py.contains "and" pattern);
          (split; [done | by intros [? | [_ ?]]]).
    + destruct (Py.contains "and" pattern);
        (split; [done | by intros [? | [? _]]]).
  - intros Hr current_year current_text citation_type st.
    unfold handle_match. by rewrite Hr.
Qed.

(** C2. No two records of the returned list share a dedup key, the key of
    a numerical record being (citation_type, citation_text, number) and
    that of a named record (citation_type, author(s), year). *)
Theorem no_duplicate_dedup_keys (current_year : Z) (text : string)
  (lg : list log_entry) :
  NoDup (dedup_key <$> (extract_citations current_year text lg).1).
Proof.
  pose proof (extract_citations_keys current_year text lg) as H.
  erewrite list_fmap_ext in H; [|intros i c _; apply citation_key_render].
  rewrite (list_fmap_compose dedup_key render_key) in H.
  by apply NoDup_fmap_1 in H.
Qed.

(** C4. On the text of the Smith scenario the returned list has a record
    tagged reference, but no named record: the three records are all
    numerical. *)
Theorem smith_scenario_records (current_year : Z) (lg : list log_entry) :
  (extract_citations current_year smith_text lg).1
  = [Numerical "(2020)" "2020" "inline" smith_text;
     Numerical "Smith (2020)" "2020" "inline" smith_text;
     Numerical "(2020)" "2020" "reference" "Smith, J. (2020). Title."]
  /\ (exists c, c ∈ (extract_citations current_year smith_text lg).1
                /\ citation_type_of c = "reference")
  /\ ~ exists c, c ∈ (extract_citations current_year smith_text lg).1
                 /\ is_named "Smith" "2020" c.
Proof.
  assert (E : (extract_citations current_year smith_text lg).1
    = [Numerical "(2020)" "2020" "inline" smith_text;
       Numerical "Smith (2020)" "2020" "inline" smith_text;
       Numerical "(2020)" "2020" "reference" "Smith, J. (2020). Title."])
    by (vm_compute; reflexivity).
  rewrite E. split; [reflexivity|]. split.
  - eexists. split; [do 2 right; left|]. reflexivity.
  - intros (c & Hc & ct & ctx & ->).
    repeat (apply elem_of_cons in Hc as [Hc | Hc]; [discriminate|]).
    by apply elem_of_nil in Hc.
Qed.

(** C5, as stated, fails: on the text of the brackets scenario the
    returned list is not made of exactly three records. *)
Lemma brackets_scenario_not_three :
  ~ three_inline_numbers (extract_citations 2026 brackets_text []).1.
Proof. intros [Hlen _]. vm_compute in Hlen. discriminate. Qed.

(** C5, amended. On the text of the brackets scenario four numerical
    records are returned, all tagged inline: the first pattern matches
    "[1]" together with the words after it, the second matches "[1]"
    alone, and "[2,3]" gives the numbers 2 and 3. *)
Theorem brackets_scenario_records (current_year : Z) (lg : list log_entry) :
  (extract_citations current_year brackets_text lg).1
  = [Numerical "[1] and " "1" "inline" brackets_text;
     Numerical "[1]" "1" "inline" brackets_text;
     Numerical "[2,3]" "2" "inline" brackets_text;
     Numerical "[2,3]" "3" "inline" brackets_text].
Proof. vm_compute. reflexivity. Qed.

(** C6. On the empty text [process_text] returns the failure result with
    the error "Empty text provided", and [extract_citations] returns the
    empty list after logging an error. *)
Theorem empty_text_result (current_year : Z) (lg : list log_entry) :
  process_text current_year "" lg
  = ({| Result.success := false; Result.citations := [];
        Result.error := Some "Empty text provided" |}, lg)
  /\ extract_citations current_year "" lg
     = ([], lg ++ [LogError "Empty text provided for citation extraction"]).
Proof. split; reflexivity. Qed.

(** C8. Two successive calls of [extract_citations] on the same text, in
    the same year, return the same list; the list does not depend on
    what was logged before. *)
Theorem extract_citations_deterministic (current_year : Z) (text : string)
  (lg lg' : list log_entry) :
  (run_twice current_year text lg).1 = (run_twice current_year text lg).2
  /\ (extract_citations current_year text lg).1
     = (extract_citations current_year text lg').1.
Proof.
  split; [|apply extract_citations_log_irrelevant].
  unfold run_twice.
  destruct (extract_citations current_year text lg) as [first lg1] eqn:E1.
  destruct (extract_citations current_year text lg1) as [second lg2] eqn:E2.
  simpl.
  pose proof (extract_citations_log_irrelevant current_year text lg lg1) as H.
  by rewrite E1, E2 in H.
Qed.

(** C10. Every returned record is a numerical one; no record with an
    author or authors entry is produced. Every pattern of the library
    contains "[", or contains "(" and has a digit in every match, so
    every match of a library pattern takes the numerical branch. *)
Theorem all_records_numerical :
  (forall current_year text lg,
      Forall (fun c => is_numerical_record c /\ type_of c = Some "numerical")
             (extract_citations current_year text lg).1)
  /\ Forall (fun pattern =>
               occurs "[" pattern
               \/ (occurs "(" pattern
                   /\ forall text m,
                        m ∈ Re.finditer pattern text ->
                        exists c, occurs c (Re.group0 m)
                                  /\ Py.isdigit c = true))
            patterns
  /\ (forall pattern text m,
        pattern ∈ patterns -> m ∈ Re.finditer pattern text ->
        route pattern m = NumericalBranch).
Proof.
  split; [|split].
  - intros current_year text lg. apply Forall_forall. intros c Hc.
    apply extract_citations_elem in Hc
      as [(p & m & Hp & Hm & Hc) | (p & m & Hp & Hm & Hc)];
      apply (candidates_numerical _ _ _ _ _ _ Hp Hm) in Hc as [num ->];
      (split; [by repeat eexists | reflexivity]).
  - apply Forall_forall. intros pattern Hp.
    destruct (Py.contains "[" pattern) eqn:Hb.
    + left. by apply contains_char_occurs.
    + right. split.
      * apply contains_char_occurs.
        pose proof patterns_force_numerical as HF.
        rewrite forallb_forall in HF.
        specialize (HF pattern (proj1 (list_elem_of_In _ _) Hp)).
        unfold forces_numerical in HF. rewrite Hb in HF. simpl in HF.
        by apply andb_true_iff in HF as [HF _].
      * intros text m Hm. apply existsb_chars_occurs.
        by destruct (library_match_has_digit pattern text m Hp Hb Hm).
  - intros pattern text m. apply library_route.
Qed.

(** ** The references block *)

Lemma span_bounds (fl : Re.flags) (r : Re.regex) (text : string)
  (m : Re.Match) (n a b : nat) :
  match_ok fl r text m -> Re.span m n = Some (a, b) ->
  a <= b /\ b <= Py.len text.
Proof.
  intros [_ _ Hend _ Hg]. unfold Re.span.
  induction Hg as [|[j sp] cs [H1 H2] _ IH]; simpl; [discriminate|].
  destruct (Nat.eqb j n); [|exact IH].
  intros [= ->]. simpl in *. lia.
Qed.

Lemma take_0 (s : string) : Py.take 0 s = "".
Proof. by destruct s. Qed.

Lemma len_take (n : nat) (s : string) :
  n <= Py.len s -> Py.len (Py.take n s) = n.
Proof.
  revert s. induction n as [|n IH]; intros s H; [by destruct s|].
  destruct s as [|c s]; simpl in *; [lia|]. f_equal. apply IH. lia.
Qed.

Lemma len_slice (a b : nat) (s : string) :
  a <= b -> b <= Py.len s -> Py.len (Py.slice a b s) = b - a.
Proof.
  intros Hab Hb. unfold Py.slice. apply len_take.
  rewrite drop_len; lia.
Qed.

Lemma references_block_bounds (text : string) (blk : nat * nat) :
  references_block text = Some blk ->
  blk.1 <= blk.2 /\ blk.2 <= Py.len text
  /\ references_text text = Py.slice blk.1 blk.2 text.
Proof.
  unfold references_block, references_text, references_match, Re.search.
  destruct (Re.compile _) as [r|]; simpl; [|discriminate].
  destruct (Re.search_from _ _ _ _ _ _) as [m|] eqn:E; simpl; [|discriminate].
  apply search_from_sound in E; [|reflexivity|lia].
  intros Hsp. destruct blk as [a b].
  destruct (span_bounds _ _ _ _ _ _ _ E Hsp) as [H1 H2].
  split; [exact H1|]. split; [exact H2|].
  unfold Re.group. rewrite Hsp. simpl. by destruct E as [-> _ _ _ _].
Qed.

(** C3, as stated, fails: in [block_text] the match "[7]" lies strictly
    inside the references block, and the record built from it while the
    whole text is scanned is tagged inline. *)
Lemma tagged_by_position_fails : ~ tagged_by_position 2026 block_text [].
Proof.
  intros H.
  destruct (H (11, 20)
              (Numerical "[7]" "7" "inline" block_text)
              0 block_text "inline"
              "\[(\d+)\](?:\s*[A-Za-z\s\-\.\']+)?"
              {| Re.m_string := block_text; Re.m_start := 16; Re.m_end := 19;
                 Re.m_groups := [(1, (17, 18))] |}) as [Hin _].
  - vm_compute. reflexivity.
  - elem_by_compute.
  - elem_by_compute.
  - elem_by_compute.
  - elem_by_compute.
  - elem_by_compute.
  - assert (Hs : strictly_inside (11, 20) (0 + 16) (0 + 19))
      by (unfold strictly_inside; simpl; lia).
    specialize (Hin Hs). discriminate.
Qed.

(** ** The dispatcher *)

Lemma find_at_first (c : ascii) (before after : string) (i : nat) :
  ~ occurs c before ->
  Py.find_at (String c "") (before +:+ String c after) i
  = Some (i + Py.len before).
Proof.
  revert i. induction before as [|x before IH]; intros i Hno.
  - simpl. rewrite Ascii.eqb_refl. simpl. by rewrite Nat.add_0_r.
  - rewrite append_cons. simpl.
    destruct (Ascii.eqb c x) eqn:E.
    + apply Ascii.eqb_eq in E as ->. exfalso. apply Hno. by exists "", before.
    + simpl. rewrite IH.
      * f_equal. lia.
      * intros (a & b & Hab). apply Hno.
        exists (String x a), b. rewrite append_cons. by rewrite Hab.
Qed.

Lemma find_at_none (c : ascii) (s : string) (i : nat) :
  ~ occurs c s -> Py.find_at (String c "") s i = None.
Proof.
  revert i. induction s as [|x s IH]; intros i Hno; [reflexivity|].
  simpl. destruct (Ascii.eqb c x) eqn:E.
  - apply Ascii.eqb_eq in E as ->. exfalso. apply Hno. by exists "", s.
  - simpl. apply IH. intros (a & b & Hab). apply Hno.
    exists (String x a), b. rewrite append_cons. by rewrite Hab.
Qed.

Lemma drop_past_char (a b : string) (c : ascii) :
  Py.drop (S (Py.len a)) (a +:+ String c b) = b.
Proof. induction a as [|x a IH]; [reflexivity | exact IH]. Qed.

Lemma split_colon1_first (before after : string) :
  ~ occurs ":" before ->
  Py.split_colon1 (before +:+ ":" +:+ after) = [before; after].
Proof.
  intros Hno. unfold Py.split_colon1, Py.find.
  change (":" +:+ after) with (String ":" after).
  change (Nat.leb 0 ?n) with true. cbv iota.
  change (Py.drop 0 ?s) with s.
  rewrite find_at_first by exact Hno.
  change (0 + Py.len before) with (Py.len before). cbv beta iota.
  by rewrite take_len_append, drop_past_char.
Qed.

Lemma split_colon1_none (task : string) :
  ~ occurs ":" task -> Py.split_colon1 task = [task].
Proof.
  intros Hno. unfold Py.split_colon1, Py.find.
  change (Nat.leb 0 ?n) with true. cbv iota.
  change (Py.drop 0 ?s) with s.
  by rewrite find_at_none.
Qed.

(** C9. For a task that reaches the citation branch of [run]: when the
    task has a colon and the stripped text after its first colon is not
    empty, [run] returns what the extraction engine returns on that text;
    when the task has no colon, or nothing but white space after the
    first colon, [run] returns a failure result with an error string. In
    both cases [run] returns a result. *)
Theorem run_citation_task {SearchResult PaperResult : Type}
  (search_papers :
     string -> option Z -> list log_entry -> SearchResult * list log_entry)
  (process_paper : string -> list log_entry -> PaperResult * list log_entry)
  (current_year : Z) (task : string) (max_results : option Z)
  (lg : list log_entry) :
  Agent.reaches_citation_branch task = true ->
  (forall before after,
      task = before +:+ ":" +:+ after -> ~ occurs ":" before ->
      Py.strip after <> "" ->
      forall lg',
        (Agent.run _ _ search_papers process_paper current_year
           task max_results lg).1
        = Agent.FromCitations _ _
            (process_text current_year (Py.strip after) lg').1)
  /\ ((~ occurs ":" task
       \/ exists before after,
            task = before +:+ ":" +:+ after /\ ~ occurs ":" before
            /\ Py.strip after = "") ->
      exists error,
        (Agent.run _ _ search_papers process_paper current_year
           task max_results lg).1
        = Agent.Failure _ _ error).
Proof.
  unfold Agent.reaches_citation_branch. intros Hreach.
  apply andb_true_iff in Hreach as [Hreach Hcit].
  apply andb_true_iff in Hreach as [Hreach Hpaper].
  apply andb_true_iff in Hreach as [Hne Hsearch].
  apply negb_true_iff in Hne, Hsearch, Hpaper.
  unfold Agent.run, Agent.run_body. rewrite Hne, Hsearch, Hpaper, Hcit.
  split.
  - intros before after -> Hno Hafter lg'.
    rewrite split_colon1_first by exact Hno.
    rewrite (bool_decide_eq_false_2 _ Hafter).
    unfold Agent.extract_citations.
    rewrite (process_text_log_irrelevant current_year _ lg'
               (lg ++ [LogInfoTextLength (Py.len (Py.strip after))])).
    by destruct (process_text _ _ _).
  - intros [Hno | (before & after & -> & Hno & Hafter)].
    + rewrite split_colon1_none by exact Hno. by eexists.
    + rewrite split_colon1_first by exact Hno.
      rewrite Hafter. by eexists.
Qed.

Lemma run_citation_task_witness :
  (Agent.run _ _ no_search no_paper 2026
     "extract citations: Smith (2020) argued..." None []).1
  = Agent.FromCitations _ _
      (process_text 2026 "Smith (2020) argued..." []).1.
Proof.
  apply (proj1 (run_citation_task no_search no_paper 2026
                  "extract citations: Smith (2020) argued..." None []
                  eq_refl)
           "extract citations" " Smith (2020) argued...").
  - reflexivity.
  - intros H. apply contains_char_occurs in H. vm_compute in H. discriminate.
  - vm_compute. discriminate.
Defined.

(** ** The year validator *)

Lemma letter_eol_compile : Re.compile "[a-z]$" = Some letter_eol.
Proof. vm_compute. reflexivity. Qed.

Lemma char_ok_lower (c : ascii) :
  Re.char_ok Re.no_flags [Re.CRange "a" "z"] c = is_lower c.
Proof.
  unfold Re.char_ok, Re.cs_mem.
  cbn [Re.IGNORECASE Re.no_flags existsb Re.item_mem].
  rewrite orb_false_r. reflexivity.
Qed.

Lemma rmatch_letter_eol {A} (i : nat) (s : string) (cs : Re.captures)
  (k : nat -> string -> Re.captures -> option A) :
  Re.rmatch Re.no_flags letter_eol i s cs k
  = match s with
    | String c s' => if is_lower c && eol s' then k (S i) s' cs else None
    | EmptyString => None
    end.
Proof.
  destruct s as [|c s']; [reflexivity|].
  unfold letter_eol. cbn [Re.rmatch]. rewrite char_ok_lower.
  destruct (is_lower c); [|reflexivity]. cbn [andb].
  by destruct s' as [|d [|e s'']].
Qed.

Lemma search_letter_eol (text : string) :
  forall s i adv,
    Re.search_from Re.no_flags letter_eol text i s adv
    = (fun j => {| Re.m_string := text; Re.m_start := j; Re.m_end := S j;
                   Re.m_groups := [] |}) <$> first_hit i s.
Proof.
  induction s as [|c s' IH]; intros i adv; rewrite search_from_eq,
    rmatch_letter_eol; [reflexivity|].
  simpl first_hit. destruct (is_lower c && eol s').
  - replace (Nat.eqb (S i) i) with false
      by (symmetry; apply Nat.eqb_neq; lia).
    by rewrite andb_false_r.
  - apply IH.
Qed.

Lemma first_hit_spec (s : string) :
  forall i,
    match first_hit i s with
    | None => strip_eol_letter s = s
    | Some j =>
        exists pre c s',
          s = pre +:+ String c s' /\ j = i + Py.len pre /\ eol s' = true
          /\ strip_eol_letter s = pre +:+ s'
    end.
Proof.
  induction s as [|c s IH]; intros i; [reflexivity|].
  simpl. destruct (is_lower c && eol s) eqn:E.
  - exists "", c, s. simpl. rewrite Nat.add_0_r.
    apply andb_true_iff in E as [_ E]. done.
  - specialize (IH (S i)). destruct (first_hit (S i) s) as [j|].
    + destruct IH as (pre & c' & s' & -> & -> & He & Hs).
      exists (String c pre), c', s'. rewrite !append_cons. simpl.
      repeat split; [lia | exact He | by rewrite Hs].
    + by rewrite IH.
Qed.

Lemma first_hit_eol (s : string) (i : nat) :
  eol s = true -> first_hit i s = None.
Proof.
  destruct s as [|c [|d s]]; simpl; try done.
  intros H. apply Ascii.eqb_eq in H as ->. reflexivity.
Qed.

(** The substitution of [_validate_year] deletes the lowercase letter that
    stands at the end of the text or before its last newline. *)
Lemma sub_empty_letter_eol (s : string) :
  Re.sub_empty "[a-z]$" s = strip_eol_letter s.
Proof.
  unfold Re.sub_empty, Re.finditer, Re.finditer_flags.
  rewrite letter_eol_compile.
  replace (2 * Py.len s + 2) with (S (S (2 * Py.len s))) by lia.
  cbn [Re.scan]. change (Py.drop 0 s) with s.
  rewrite search_letter_eol.
  pose proof (first_hit_spec s 0) as H.
  destruct (first_hit 0 s) as [j|]; cbn [fmap option_fmap option_map].
  - destruct H as (pre & c & s' & -> & -> & He & ->).
    cbn [Re.m_end Re.m_start Nat.add].
    rewrite search_letter_eol, drop_past_char, (first_hit_eol _ _ He).
    cbn [fmap option_fmap option_map Re.delete_spans Re.m_end Re.m_start].
    unfold Py.slice. rewrite Nat.sub_0_r. change (Py.drop 0 ?x) with x.
    by rewrite take_len_append, drop_past_char.
  - cbn [Re.delete_spans]. change (Py.drop 0 ?x) with x. by rewrite H.
Qed.

Lemma rstrip_chars_last (f : ascii -> bool) (s : string) (c : ascii) :
  ends_with c (Py.rstrip_chars f s) -> f c = false.
Proof.
  induction s as [|x s IH]; intros [pre Hpre]; simpl in Hpre.
  - by destruct pre.
  - destruct (Py.rstrip_chars f s) as [|y t] eqn:E.
    + destruct (f x) eqn:Hx; [by destruct pre|].
      destruct pre as [|z pre]; [by injection Hpre as -> | ].
      rewrite append_cons in Hpre. injection Hpre as _ Hpre. by destruct pre.
    + destruct pre as [|z pre]; [discriminate|].
      rewrite append_cons in Hpre. injection Hpre as _ Hpre.
      apply IH. by exists pre.
Qed.

Lemma strip_not_newline (s : string) : ~ ends_with Py.nl (Py.strip s).
Proof.
  intros H. apply rstrip_chars_last in H. discriminate.
Qed.

Lemma strip_eol_trailing (s : string) :
  ~ ends_with Py.nl s -> strip_eol_letter s = strip_trailing_letter s.
Proof.
  induction s as [|c s IH]; intros Hnl; [reflexivity|]. simpl.
  assert (Hs : ~ ends_with Py.nl s).
  { intros [pre ->]. apply Hnl. exists (String c pre).
    by rewrite append_cons. }
  destruct s as [|d [|e s]].
  - simpl. rewrite andb_true_r. by destruct (is_lower c).
  - simpl. destruct (Ascii.eqb d Py.nl) eqn:E.
    + apply Ascii.eqb_eq in E as ->. exfalso. apply Hs. by exists "".
    + rewrite !andb_false_r. f_equal; by apply IH.
  - rewrite !andb_false_r. f_equal; by apply IH.
Qed.

Lemma validate_year_bounds (current_year : Z) (year : string) :
  ~ ends_with Py.nl year -> _validate_year current_year year = true ->
  year_in_bounds current_year year.
Proof.
  intros Hnl. unfold _validate_year, year_in_bounds.
  rewrite sub_empty_letter_eol, strip_eol_trailing by exact Hnl.
  destruct (Py.int (strip_trailing_letter year)) as [n|]; [|discriminate].
  intros H. apply andb_true_iff in H as [H1 H2].
  exists n. split; [reflexivity|]. lia.
Qed.

Lemma named_branch_year (current_year : Z)
  (current_text citation_type : string) (m : Re.Match) (c : Citation)
  (key : string) :
  two_author_branch current_year current_text citation_type m = Built c key
  \/ single_author_branch current_year current_text citation_type m
     = Built c key ->
  exists year, year_of c = Some year /\ year_in_bounds current_year year.
Proof.
  unfold two_author_branch, single_author_branch. intros [H | H].
  - destruct (Re.group m 1), (Re.group m 2), (Re.group m 3) as [g3|];
      try discriminate.
    destruct (_validate_author _ && _validate_author _
              && _validate_year current_year (Py.strip g3)) eqn:E;
      simpl in H; [|discriminate].
    injection H as <- _. exists (Py.strip g3). split; [reflexivity|].
    apply andb_true_iff in E as [_ E].
    apply validate_year_bounds; [apply strip_not_newline | exact E].
  - destruct (Re.group m 1), (Re.group m 2) as [g2|]; try discriminate.
    destruct (_validate_author _
              && _validate_year current_year (Py.strip g2)) eqn:E;
      simpl in H; [|discriminate].
    injection H as <- _. exists (Py.strip g2). split; [reflexivity|].
    apply andb_true_iff in E as [_ E].
    apply validate_year_bounds; [apply strip_not_newline | exact E].
Qed.


(** ** More facts about strings *)

Lemma take_drop (n : nat) (s : string) : Py.take n s +:+ Py.drop n s = s.
Proof.
  revert s. induction n as [|n IH]; intros s; [by destruct s|].
  destruct s as [|c s]; [reflexivity|].
  cbn [Py.take Py.drop]. rewrite append_cons. f_equal. apply IH.
Qed.

Lemma substring_of_refl (s : string) : substring_of s s.
Proof. exists "", "". by rewrite append_empty_r. Qed.

Lemma substring_of_trans (a b c : string) :
  substring_of a b -> substring_of b c -> substring_of a c.
Proof.
  intros (p1 & q1 & ->) (p2 & q2 & ->).
  exists (p2 +:+ p1), (q1 +:+ q2). by rewrite !append_assoc.
Qed.

Lemma slice_substring (a b : nat) (s : string) :
  substring_of (Py.slice a b s) s.
Proof.
  exists (Py.take a s), (Py.drop (b - a) (Py.drop a s)).
  unfold Py.slice. by rewrite take_drop, take_drop.
Qed.

Lemma existsb_chars_substring (f : ascii -> bool) (u s : string) :
  substring_of u s -> Py.existsb_chars f u = true ->
  Py.existsb_chars f s = true.
Proof.
  intros (pre & post & ->) H.
  rewrite !existsb_chars_append, H. by rewrite orb_true_r.
Qed.

Lemma all_chars_append (f : ascii -> bool) (a b : string) :
  all_chars f (a +:+ b) = all_chars f a && all_chars f b.
Proof.
  induction a as [|x a IH]; [reflexivity|].
  rewrite append_cons. cbn. rewrite <- andb_assoc. f_equal. exact IH.
Qed.

Lemma iter_chars (P : ascii -> bool) (n : nat) (w : string) :
  iter n (fun w => exists c, w = String c "" /\ P c = true) w ->
  Py.len w = n /\ all_chars P w = true.
Proof.
  revert w. induction n as [|n IH]; intros w H; simpl in H.
  - by subst.
  - destruct H as (w1 & w2 & -> & (c & -> & Hc) & H2).
    apply IH in H2 as [H2 H3]. rewrite append_cons. cbn.
    rewrite Hc. split; [by f_equal|exact H3].
Qed.

Lemma digit_run_compile : Re.compile "\d+" = Some digit_run.
Proof. vm_compute. reflexivity. Qed.

(** What [re.findall(r'\d+', text)] returns: non-empty runs of decimal
    digits that occur in the text. *)
Lemma findall_digit_run (text num : string) :
  num ∈ Re.findall "\d+" text ->
  num <> "" /\ all_chars Py.isdecimal num = true /\ substring_of num text.
Proof.
  unfold Re.findall. intros H.
  apply list_elem_of_fmap in H as (m & -> & Hm).
  apply finditer_sound in Hm as (r & Hc & [Hs Ho Hb HL _]).
  rewrite digit_run_compile in Hc. injection Hc as <-.
  destruct HL as (n & Hn & _ & Hit).
  assert (Hit' : iter n (fun w => exists c, w = String c ""
                                  /\ Py.isdecimal c = true) (Re.group0 m)).
  { revert Hit. generalize (Re.group0 m). clear.
    induction n as [|n IH]; intros w H; simpl in *; [exact H|].
    destruct H as (w1 & w2 & -> & (c & -> & Hc) & H2).
    exists (String c ""), w2. split; [reflexivity|]. split; [|by apply IH].
    exists c. split; [reflexivity|].
    unfold Re.char_ok, Re.cs_mem in Hc. simpl in Hc.
    by rewrite orb_false_r in Hc. }
  apply iter_chars in Hit' as [Hlen Hall].
  split; [|split; [exact Hall|]].
  - intros E. rewrite E in Hlen. simpl in Hlen. lia.
  - unfold Re.group0. rewrite Hs. apply slice_substring.
Qed.

Lemma lstrip_chars_head (f : ascii -> bool) (c : ascii) (s : string) :
  f c = false -> Py.lstrip_chars f (String c s) = String c s.
Proof. intros H. simpl. by rewrite H. Qed.

Lemma rstrip_chars_none (f : ascii -> bool) (s : string) :
  all_chars (fun c => negb (f c)) s = true -> Py.rstrip_chars f s = s.
Proof.
  induction s as [|c s IH]; [reflexivity|]. cbn.
  intros H. apply andb_true_iff in H as [Hc Hs]. rewrite (IH Hs).
  apply negb_true_iff in Hc. destruct s; [by rewrite Hc | reflexivity].
Qed.


Lemma decimal_not_int_space (c : ascii) :
  Py.isdecimal c = true -> Py.int_space c = false.
Proof.
  unfold Py.isdecimal, Py.int_space, Py.in_range.
  generalize (Py.code c). intros n H.
  apply andb_true_iff in H as [H1 H2].
  apply N.leb_le in H1, H2.
  repeat (apply orb_false_iff; split).
  - apply andb_false_iff. right. apply N.leb_gt. lia.
  - apply N.eqb_neq. lia.
  - apply N.eqb_neq. lia.
  - apply N.eqb_neq. lia.
Qed.

Lemma decimal_not_sign (c : ascii) :
  Py.isdecimal c = true -> Ascii.eqb c "+" = false /\ Ascii.eqb c "-" = false.
Proof.
  intros H. split; apply Ascii.eqb_neq; intros ->; vm_compute in H;
    discriminate.
Qed.

Lemma decimal_value_nonneg (s : string) (acc : Z) :
  all_chars Py.isdecimal s = true -> (0 <= acc)%Z ->
  (0 <= decimal_value acc s)%Z.
Proof.
  revert acc. induction s as [|c s IH]; intros acc Hs Hacc; [exact Hacc|].
  cbn in Hs. apply andb_true_iff in Hs as [Hc Hs]. cbn. apply IH; [exact Hs|].
  unfold Py.digit_val. unfold Py.isdecimal, Py.in_range in Hc.
  apply andb_true_iff in Hc as [H1 _]. apply N.leb_le in H1. lia.
Qed.

Lemma int_digits_all (s : string) :
  forall acc b,
    all_chars Py.isdecimal s = true -> s <> "" \/ b = true ->
    Py.int_digits acc b s = Some (decimal_value acc s).
Proof.
  induction s as [|c s IH]; intros acc b Hs Hne.
  - destruct Hne as [Hne | ->]; [done | reflexivity].
  - cbn in Hs. apply andb_true_iff in Hs as [Hc Hs]. cbn.
    rewrite Hc. apply IH; [exact Hs | by right].
Qed.

(** [int] reads every non-empty string of decimal digits. *)
Lemma count_digits_all (s : string) :
  all_chars Py.isdecimal s = true -> Py.count_digits s = Py.len s.
Proof.
  induction s as [|c s IH]; [done|]. cbn [all_chars Py.count_digits Py.len String.length].
  intros H. apply andb_true_iff in H as [-> Hs]. f_equal. by apply IH.
Qed.

Lemma int_strip_digits (s : string) :
  s <> "" -> all_chars Py.isdecimal s = true ->
  match Py.strip_chars Py.int_space s with
  | String c d =>
      if Ascii.eqb c "+" then Py.int_digits 0 false d
      else if Ascii.eqb c "-"
           then option_map Z.opp (Py.int_digits 0 false d)
           else Py.int_digits 0 false (String c d)
  | EmptyString => None
  end = Some (decimal_value 0 s).
Proof.
  intros Hne Hs. unfold Py.strip_chars.
  destruct s as [|c s]; [done|].
  pose proof Hs as Hs'. cbn in Hs'. apply andb_true_iff in Hs' as [Hc _].
  rewrite lstrip_chars_head by (by apply decimal_not_int_space).
  rewrite rstrip_chars_none.
  - destruct (decimal_not_sign c Hc) as [-> ->].
    apply int_digits_all; [exact Hs | by left].
  - clear Hne Hc. revert Hs. generalize (String c s). clear.
    induction s as [|c s IH]; [done|]. cbn. intros H.
    apply andb_true_iff in H as [Hc Hs].
    rewrite (decimal_not_int_space c Hc). by apply IH.
Qed.

(** A non-empty run of at most [int_max_str_digits] decimal digits
    converts to the number it writes. *)
Lemma int_digit_string (s : string) :
  s <> "" -> all_chars Py.isdecimal s = true ->
  Py.len s <= Py.int_max_str_digits ->
  Py.int s = Some (decimal_value 0 s) /\ (0 <= decimal_value 0 s)%Z.
Proof.
  intros Hne Hs Hlen. split; [|by apply decimal_value_nonneg].
  unfold Py.int. rewrite (count_digits_all s Hs).
  replace (Nat.ltb Py.int_max_str_digits (Py.len s)) with false
    by (symmetry; apply Nat.ltb_ge; exact Hlen).
  by apply int_strip_digits.
Qed.

(** A longer run of digits is refused. *)
Lemma int_too_long (s : string) :
  all_chars Py.isdecimal s = true ->
  Py.int_max_str_digits < Py.len s -> Py.int s = None.
Proof.
  intros Hs Hlen. unfold Py.int. rewrite (count_digits_all s Hs).
  replace (Nat.ltb Py.int_max_str_digits (Py.len s)) with true
    by (symmetry; apply Nat.ltb_lt; exact Hlen).
  done.
Qed.

(** What [int] makes of a non-empty run of decimal digits. *)
Lemma int_digit_run (s : string) :
  s <> "" -> all_chars Py.isdecimal s = true ->
  Py.int s = if Nat.leb (Py.len s) Py.int_max_str_digits
             then Some (decimal_value 0 s) else None.
Proof.
  intros Hne Hs.
  destruct (Nat.leb (Py.len s) Py.int_max_str_digits) eqn:E.
  - apply Nat.leb_le in E. by apply int_digit_string.
  - apply Nat.leb_gt in E. by apply int_too_long.
Qed.

(** ** What every returned record looks like *)

Lemma references_text_substring (text : string) :
  substring_of (references_text text) text.
Proof.
  unfold references_text, references_match, Re.search.
  destruct (Re.compile _) as [r|]; simpl; [|by exists "", text].
  destruct (Re.search_from _ _ _ _ _ _) as [m|] eqn:E; [|by exists "", text].
  apply search_from_sound in E; [|reflexivity|lia].
  unfold Re.group. destruct (Re.span m 1) as [[a b]|]; simpl;
    [|by exists "", text].
  destruct E as [-> _ _ _ _]. apply slice_substring.
Qed.

Lemma region_substring (text : string) (region : string * string) :
  region ∈ texts_to_process text -> substring_of region.1 text.
Proof.
  unfold texts_to_process. intros H.
  apply elem_of_cons in H as [-> | H]; [apply substring_of_refl|].
  apply list_elem_of_singleton in H as ->. apply references_text_substring.
Qed.

(** Every returned record is the numerical record of a digit run of a
    match of a library pattern, in the whole text or in the references
    text. *)
Lemma extract_citations_record (current_year : Z) (text : string)
  (lg : list log_entry) (c : Citation) :
  c ∈ (extract_citations current_year text lg).1 ->
  exists region pattern m num,
    region ∈ texts_to_process text /\ pattern ∈ patterns
    /\ m ∈ Re.finditer pattern region.1
    /\ num ∈ Re.findall "\d+" (Re.group0 m)
    /\ c = Numerical (Re.group0 m) num region.2 (context_of region.1 m).
Proof.
  intros Hc. apply extract_citations_elem in Hc.
  assert (H : exists region, region ∈ texts_to_process text
                             /\ built_from current_year region.1 region.2 c).
  { destruct Hc as [Hc | Hc].
    - exists (text, "inline"). split; [left | exact Hc].
    - exists (references_text text, "reference").
      split; [right; left | exact Hc]. }
  destruct H as (region & Hr & p & m & Hp & Hm & Hcand).
  exists region, p, m. unfold candidates in Hcand.
  rewrite (library_route p region.1 m Hp Hm) in Hcand.
  apply list_elem_of_fmap in Hcand as (num & -> & Hnum).
  by exists num.
Qed.

Lemma needs_bracket_sound (r : Re.regex) :
  forall w, needs_bracket r = true -> lang Re.no_flags r w ->
            Py.existsb_chars is_bracket w = true.
Proof.
  induction r as [ | set | | | | | r1 IH1 r2 IH2 | r1 IH1 r2 IH2
                 | r1 IH1 lo hi greedy | idx r1 IH1 ];
    intros w Hn Hw; simpl in Hn; try discriminate.
  - destruct Hw as (c & -> & Hc). simpl. rewrite orb_false_r.
    unfold Re.char_ok, Re.cs_mem in Hc. simpl in Hc.
    apply existsb_exists in Hc as (it & Hit & Hc).
    rewrite forallb_forall in Hn. specialize (Hn it Hit).
    destruct it; try discriminate. simpl in Hc, Hn.
    apply Ascii.eqb_eq in Hc as ->. exact Hn.
  - destruct Hw as (w1 & w2 & -> & H1 & H2).
    rewrite existsb_chars_append. apply orb_true_iff.
    apply orb_true_iff in Hn as [Hn | Hn]; [left | right]; auto.
  - apply andb_true_iff in Hn as [Hn1 Hn2].
    destruct Hw as [Hw | Hw]; auto.
  - apply andb_true_iff in Hn as [Hlo Hn]. apply Nat.ltb_lt in Hlo.
    destruct Hw as (n & Hle & _ & Hit).
    destruct n as [|n]; [lia|].
    destruct Hit as (w1 & w2 & -> & H1 & _).
    rewrite existsb_chars_append. apply orb_true_iff. left. auto.
  - simpl in Hw. auto.
Qed.

Lemma patterns_need_bracket :
  forallb (fun p => match Re.compile p with
                    | Some r => needs_bracket r
                    | None => false
                    end) patterns = true.
Proof. vm_compute. reflexivity. Qed.

Lemma library_match_has_bracket (pattern text : string) (m : Re.Match) :
  pattern ∈ patterns -> m ∈ Re.finditer pattern text ->
  Py.existsb_chars is_bracket (Re.group0 m) = true.
Proof.
  intros Hp Hm. pose proof patterns_need_bracket as HF.
  rewrite forallb_forall in HF.
  specialize (HF pattern (proj1 (list_elem_of_In _ _) Hp)).
  apply finditer_sound in Hm as (r & Hc & Hok). rewrite Hc in HF.
  eapply needs_bracket_sound; [exact HF|]. by destruct Hok.
Qed.

Lemma finditer_group0 (pattern text : string) (m : Re.Match) :
  m ∈ Re.finditer pattern text ->
  substring_of (Re.group0 m) text
  /\ Py.len (Re.group0 m) = Re.m_end m - Re.m_start m
  /\ Re.m_start m <= Re.m_end m /\ Re.m_end m <= Py.len text.
Proof.
  intros Hm. apply finditer_sound in Hm as (r & _ & [Hs Ho Hb _ _]).
  unfold Re.group0. rewrite Hs.
  split; [apply slice_substring|]. split; [by apply len_slice|done].
Qed.

(** X1. The number of every returned record is a non-empty run of decimal
    digits that occurs in its citation_text; [int] reads it as the number
    it writes when it has at most 4300 digits, and raises [ValueError] on
    a longer one. *)
Theorem record_number_is_digit_run (current_year : Z) (text : string)
  (lg : list log_entry) :
  Forall (fun c =>
            exists citation_text number,
              citation_text_of c = Some citation_text
              /\ number_of c = Some number
              /\ number <> "" /\ all_chars Py.isdecimal number = true
              /\ substring_of number citation_text
              /\ Py.int number
                 = (if Nat.leb (Py.len number) Py.int_max_str_digits
                    then Some (decimal_value 0 number) else None)
              /\ (0 <= decimal_value 0 number)%Z)
         (extract_citations current_year text lg).1.
Proof.
  apply Forall_forall. intros c Hc.
  apply extract_citations_record in Hc
    as (region & p & m & num & _ & _ & _ & Hnum & ->).
  apply findall_digit_run in Hnum as (Hne & Hall & Hsub).
  exists (Re.group0 m), num.
  split; [done|]. split; [done|]. split; [done|]. split; [done|].
  split; [done|]. split; [by apply int_digit_run|].
  by apply decimal_value_nonneg.
Qed.

(** X2. The citation_text of every returned record is a non-empty piece
    of the input text that contains a decimal digit and an opening
    parenthesis or square bracket. *)
Theorem record_text_occurs_in_input (current_year : Z) (text : string)
  (lg : list log_entry) :
  Forall (fun c =>
            exists citation_text,
              citation_text_of c = Some citation_text
              /\ citation_text <> ""
              /\ substring_of citation_text text
              /\ Py.existsb_chars Py.isdecimal citation_text = true
              /\ Py.existsb_chars is_bracket citation_text = true)
         (extract_citations current_year text lg).1.
Proof.
  apply Forall_forall. intros c Hc.
  apply extract_citations_record in Hc
    as (region & p & m & num & Hr & Hp & Hm & Hnum & ->).
  exists (Re.group0 m). split; [reflexivity|].
  apply findall_digit_run in Hnum as (Hne & Hall & Hsub).
  assert (Hd : Py.existsb_chars Py.isdecimal (Re.group0 m) = true).
  { eapply existsb_chars_substring; [exact Hsub|].
    destruct num as [|d num]; [done|]. cbn in Hall |- *.
    apply andb_true_iff in Hall as [-> _]. reflexivity. }
  split; [|split; [|split; [exact Hd|]]].
  - intros E. rewrite E in Hd. discriminate.
  - eapply substring_of_trans; [|exact (region_substring _ _ Hr)].
    by destruct (finditer_group0 _ _ _ Hm).
  - exact (library_match_has_bracket _ _ _ Hp Hm).
Qed.

(** X3. A text without a decimal digit, or without an opening parenthesis
    or square bracket, yields no record. *)
Theorem no_digit_or_bracket_no_record (current_year : Z) (text : string)
  (lg : list log_entry) :
  Py.existsb_chars Py.isdecimal text = false
  \/ Py.existsb_chars is_bracket text = false ->
  (extract_citations current_year text lg).1 = [].
Proof.
  intros H.
  pose proof (record_text_occurs_in_input current_year text lg) as HF.
  destruct (extract_citations current_year text lg).1 as [|c l];
    [reflexivity|].
  apply Forall_cons in HF as [(t & _ & _ & Hsub & Hd & Hb) _]. exfalso.
  apply (existsb_chars_substring _ _ _ Hsub) in Hd, Hb.
  destruct H as [H | H]; congruence.
Qed.

Lemma no_digit_or_bracket_no_record_witness :
  (extract_citations 2026 quiet_text []).1 = [].
Proof.
  apply (no_digit_or_bracket_no_record 2026 quiet_text []).
  left. vm_compute. reflexivity.
Defined.

(** ** The context window *)

Lemma len_take_le (n : nat) (s : string) : Py.len (Py.take n s) <= n.
Proof.
  revert s. induction n as [|n IH]; intros s; [by destruct s|].
  destruct s as [|c s]; cbn; [lia|]. specialize (IH s). unfold Py.len in IH. lia.
Qed.

Lemma lstrip_chars_suffix (f : ascii -> bool) (s : string) :
  exists pre, s = pre +:+ Py.lstrip_chars f s.
Proof.
  induction s as [|c s [pre IH]]; [by exists ""|]. cbn.
  destruct (f c); [|by exists ""].
  exists (String c pre). rewrite append_cons. by f_equal.
Qed.

Lemma rstrip_chars_prefix (f : ascii -> bool) (s : string) :
  exists post, s = Py.rstrip_chars f s +:+ post.
Proof.
  induction s as [|c s [post IH]]; [by exists ""|]. cbn.
  destruct (Py.rstrip_chars f s) as [|d t] eqn:E.
  - destruct (f c); [by exists (String c s)|].
    exists s. reflexivity.
  - exists post. rewrite append_cons. by f_equal.
Qed.

Lemma strip_substring (s : string) : substring_of (Py.strip s) s.
Proof.
  unfold Py.strip, Py.strip_chars.
  destruct (lstrip_chars_suffix Py.isspace s) as [pre Hpre].
  destruct (rstrip_chars_prefix Py.isspace (Py.lstrip_chars Py.isspace s))
    as [post Hpost].
  exists pre, post. by rewrite <- Hpost.
Qed.

Lemma substring_len (u s : string) : substring_of u s -> Py.len u <= Py.len s.
Proof. intros (pre & post & ->). rewrite !len_append. lia. Qed.

Lemma lstrip_chars_result (f : ascii -> bool) (s : string) :
  Py.lstrip_chars f s = ""
  \/ exists c t, Py.lstrip_chars f s = String c t /\ f c = false.
Proof.
  induction s as [|c s IH]; [by left|]. cbn.
  destruct (f c) eqn:E; [exact IH|]. right. by exists c, s.
Qed.

Lemma rstrip_chars_idem (f : ascii -> bool) (s : string) :
  Py.rstrip_chars f (Py.rstrip_chars f s) = Py.rstrip_chars f s.
Proof.
  induction s as [|c s IH]; [reflexivity|]. cbn.
  destruct (Py.rstrip_chars f s) as [|d t] eqn:E.
  - destruct (f c) eqn:Ec; [reflexivity|]. cbn. by rewrite Ec.
  - cbn. cbn in IH. by rewrite IH.
Qed.

Lemma rstrip_chars_keeps_head (f : ascii -> bool) (c : ascii) (s : string) :
  f c = false -> exists t, Py.rstrip_chars f (String c s) = String c t.
Proof.
  intros Hc. cbn. destruct (Py.rstrip_chars f s) as [|d t].
  - rewrite Hc. by exists "".
  - by exists (String d t).
Qed.

(** [strip] leaves a stripped text unchanged. *)
Lemma strip_idem (s : string) : Py.strip (Py.strip s) = Py.strip s.
Proof.
  unfold Py.strip, Py.strip_chars.
  destruct (lstrip_chars_result Py.isspace s) as [-> | (c & t & -> & Hc)];
    [reflexivity|].
  destruct (rstrip_chars_keeps_head Py.isspace c t Hc) as [u Hu].
  rewrite Hu, lstrip_chars_head by exact Hc.
  rewrite <- Hu. apply rstrip_chars_idem.
Qed.

(** X4. The context of every returned record is a stripped piece of the
    input text, at most 100 characters longer than the citation_text. *)
Theorem record_context_window (current_year : Z) (text : string)
  (lg : list log_entry) :
  Forall (fun c =>
            exists citation_text,
              citation_text_of c = Some citation_text
              /\ Py.len (context_field c) <= Py.len citation_text + 100
              /\ Py.strip (context_field c) = context_field c
              /\ substring_of (context_field c) text)
         (extract_citations current_year text lg).1.
Proof.
  apply Forall_forall. intros c Hc.
  apply extract_citations_record in Hc
    as (region & p & m & num & Hr & Hp & Hm & Hnum & ->).
  exists (Re.group0 m). split; [reflexivity|]. cbn [context_field].
  destruct (finditer_group0 _ _ _ Hm) as (_ & Hlen & Ho & Hb).
  unfold context_of. split; [|split].
  - etransitivity; [apply substring_len, strip_substring|].
    unfold Py.slice. etransitivity; [apply len_take_le|].
    rewrite Hlen. lia.
  - apply strip_idem.
  - eapply substring_of_trans; [apply strip_substring|].
    eapply substring_of_trans; [apply slice_substring|].
    exact (region_substring _ _ Hr).
Qed.

(** ** Order of the records, and nothing lost *)

Lemma extends_refl (P : Citation -> Prop) (st : State) : extends P st st.
Proof.
  split; [|done]. exists []. by rewrite app_nil_r.
Qed.

Lemma extends_trans (P : Citation -> Prop) (a b c : State) :
  extends P a b -> extends P b c -> extends P a c.
Proof.
  intros [(l1 & E1 & F1) S1] [(l2 & E2 & F2) S2]. split.
  - exists (l1 ++ l2). rewrite E2, E1, <- app_assoc. split; [reflexivity|].
    by apply Forall_app.
  - set_solver.
Qed.

Lemma foldl_extends {B} (P : Citation -> Prop) (f : State -> B -> State)
  (l : list B) :
  forall st, (forall a x, x ∈ l -> extends P a (f a x)) ->
             extends P st (foldl f st l).
Proof.
  induction l as [|x l IH]; intros st Hf; simpl; [apply extends_refl|].
  eapply extends_trans; [apply Hf; left|].
  apply IH. intros a y Hy. apply Hf. by right.
Qed.

Lemma add_if_new_extends (P : Citation -> Prop) (d : bool) (c : Citation)
  (k : string) (st : State) :
  P c -> extends P st (add_if_new d c k st)
         /\ k ∈ seen_citations (add_if_new d c k st).
Proof.
  intros Hc. unfold add_if_new. case_bool_decide as Hin.
  - split; [apply extends_refl | exact Hin].
  - split; [split|]; simpl.
    + exists [c]. split; [reflexivity|]. by apply Forall_singleton.
    + set_solver.
    + set_solver.
Qed.

Lemma finish_extends (P : Citation -> Prop) (matched : string) (o : outcome)
  (st : State) :
  Forall P (built_of o) -> extends P st (finish matched o st).
Proof.
  destruct o as [| |c k]; simpl; intros Ho.
  - split; [|done]. exists []. simpl. by rewrite app_nil_r.
  - apply extends_refl.
  - rewrite Forall_singleton in Ho.
    by destruct (add_if_new_extends P true c k st Ho).
Qed.

Lemma numerical_branch_extends (P : Citation -> Prop)
  (current_text citation_type : string) (m : Re.Match) (st : State) :
  (forall num, num ∈ Re.findall "\d+" (Re.group0 m) ->
               P (numerical_citation citation_type (Re.group0 m)
                    (context_of current_text m) num).1) ->
  extends P st (numerical_branch current_text citation_type m st)
  /\ forall num, num ∈ Re.findall "\d+" (Re.group0 m) ->
       (numerical_citation citation_type (Re.group0 m)
          (context_of current_text m) num).2
       ∈ seen_citations (numerical_branch current_text citation_type m st).
Proof.
  intros HP. unfold numerical_branch.
  set (build := numerical_citation _ _ _) in *.
  set (numbers := Re.findall _ _) in *.
  destruct (last numbers) as [num_last|] eqn:Hlast.
  2:{ split; [apply extends_refl|]. intros num Hnum.
      destruct numbers; [by apply elem_of_nil in Hnum|].
      by apply last_None in Hlast. }
  apply last_Some_elem_of in Hlast.
  set (step := fun acc num =>
                 add_if_new false (build num).1 (build num).2 acc).
  assert (Hfold : forall l st0,
             (forall num, num ∈ l -> P (build num).1) ->
             extends P st0 (foldl step st0 l)
             /\ forall num, num ∈ l ->
                  (build num).2 ∈ seen_citations (foldl step st0 l)).
  { induction l as [|x l IH]; intros st0 Hl; simpl.
    - split; [apply extends_refl|]. intros num Hnum.
      by apply elem_of_nil in Hnum.
    - destruct (add_if_new_extends P false (build x).1 (build x).2 st0)
        as [He Hk]; [apply Hl; left|].
      destruct (IH (step st0 x)) as [He' Hk'];
        [intros num Hnum; apply Hl; by right|].
      split; [by eapply extends_trans|].
      intros num Hnum. apply elem_of_cons in Hnum as [-> | Hnum];
        [|by apply Hk'].
      destruct He' as [_ Hsub]. by apply Hsub. }
  destruct (Hfold numbers st HP) as [He Hk].
  assert (He' : extends P (foldl step st numbers)
                  (finish (Re.group0 m)
                     (Built (build num_last).1 (build num_last).2)
                     (foldl step st numbers))).
  { apply finish_extends. simpl. apply Forall_singleton. by apply HP. }
  split; [by eapply extends_trans|].
  intros num Hnum. destruct He' as [_ Hsub]. by apply Hsub, Hk.
Qed.

Lemma handle_match_extends (P : Citation -> Prop) (current_year : Z)
  (current_text citation_type pattern : string) (st : State) (m : Re.Match) :
  Forall P (candidates current_year current_text citation_type pattern m) ->
  extends P st
    (handle_match current_year current_text citation_type pattern st m).
Proof.
  unfold handle_match, candidates. destruct (route pattern m); intros HP.
  - apply numerical_branch_extends. intros num Hnum.
    rewrite Forall_forall in HP. apply HP.
    exact (list_elem_of_fmap_2 _ _ _ Hnum).
  - by apply finish_extends.
  - by apply finish_extends.
Qed.

Lemma candidates_tagged (current_year : Z)
  (current_text citation_type pattern : string) (m : Re.Match) :
  Forall (fun c => citation_type_of c = citation_type)
         (candidates current_year current_text citation_type pattern m).
Proof.
  unfold candidates, two_author_branch, single_author_branch.
  destruct (route pattern m).
  - apply Forall_forall. intros c Hc.
    by apply list_elem_of_fmap in Hc as (num & -> & _).
  - destruct (Re.group m 1), (Re.group m 2), (Re.group m 3);
      try apply Forall_nil_2.
    destruct (negb _); [apply Forall_nil_2 | by apply Forall_singleton].
  - destruct (Re.group m 1), (Re.group m 2); try apply Forall_nil_2.
    destruct (negb _); [apply Forall_nil_2 | by apply Forall_singleton].
Qed.

Lemma handle_region_extends (current_year : Z) (st : State)
  (region : string * string) :
  extends (fun c => citation_type_of c = region.2) st
          (handle_region current_year st region).
Proof.
  unfold handle_region. apply foldl_extends. intros a pattern _.
  unfold handle_pattern. apply foldl_extends. intros a' m _.
  apply handle_match_extends, candidates_tagged.
Qed.

(** X5. In the returned list the records tagged inline come first and the
    records tagged reference after them. *)
Theorem inline_records_before_reference (current_year : Z) (text : string)
  (lg : list log_entry) :
  exists inline_part reference_part,
    (extract_citations current_year text lg).1
    = inline_part ++ reference_part
    /\ Forall (fun c => citation_type_of c = "inline") inline_part
    /\ Forall (fun c => citation_type_of c = "reference") reference_part.
Proof.
  destruct (decide (text = "")) as [-> | Hne].
  - exists [], []. by rewrite extract_citations_empty.
  - rewrite extract_citations_eq by exact Hne.
    destruct (handle_region_extends current_year (initial_state lg)
                (text, "inline")) as [(l1 & E1 & F1) _].
    destruct (handle_region_extends current_year
                (handle_region current_year (initial_state lg)
                   (text, "inline"))
                (references_text text, "reference")) as [(l2 & E2 & F2) _].
    exists l1, l2. rewrite E2, E1. done.
Qed.

Lemma foldl_reaches {A B} (Q : A -> Prop) (f : A -> B -> A) (l : list B)
  (x : B) :
  x ∈ l -> (forall a, Q (f a x)) -> (forall a y, Q a -> Q (f a y)) ->
  forall a, Q (foldl f a l).
Proof.
  intros Hx Hhit Hkeep. induction l as [|y l IH]; intros a; simpl.
  - by apply elem_of_nil in Hx.
  - apply elem_of_cons in Hx as [<- | Hx]; [|by apply IH].
    apply foldl_invariant; [apply Hhit|]. intros a' z _. apply Hkeep.
Qed.

Lemma handle_match_seen_mono (current_year : Z)
  (current_text citation_type pattern : string) (st : State) (m : Re.Match) :
  seen_citations st
  ⊆ seen_citations
      (handle_match current_year current_text citation_type pattern st m).
Proof.
  destruct (handle_match_extends (fun _ => True) current_year current_text
              citation_type pattern st m) as [_ H]; [|exact H].
  apply Forall_forall. done.
Qed.

Lemma handle_region_seen_mono (current_year : Z) (st : State)
  (region : string * string) :
  seen_citations st ⊆ seen_citations (handle_region current_year st region).
Proof. by destruct (handle_region_extends current_year st region). Qed.

Lemma handle_region_sees (current_year : Z) (st : State)
  (region : string * string) (pattern : string) (m : Re.Match)
  (num : string) :
  pattern ∈ patterns -> m ∈ Re.finditer pattern region.1 ->
  num ∈ Re.findall "\d+" (Re.group0 m) ->
  region.2 +:+ "_" +:+ Re.group0 m +:+ "_" +:+ num
  ∈ seen_citations (handle_region current_year st region).
Proof.
  intros Hp Hm Hnum. revert st. unfold handle_region.
  set (key := region.2 +:+ "_" +:+ Re.group0 m +:+ "_" +:+ num).
  apply (foldl_reaches (fun st => key ∈ seen_citations st) _ _ pattern Hp).
  - intros a. unfold handle_pattern. revert a.
    apply (foldl_reaches (fun st => key ∈ seen_citations st) _ _ m Hm).
    + intros a. unfold handle_match.
      rewrite (library_route pattern region.1 m Hp Hm).
      destruct (numerical_branch_extends (fun _ => True) region.1 region.2
                  m a) as [_ H]; [done|].
      exact (H num Hnum).
    + intros a m' Ha. by apply handle_match_seen_mono.
  - intros a p' Ha. unfold handle_pattern.
    apply (foldl_invariant (fun st => key ∈ seen_citations st));
      [exact Ha|].
    intros a' m' _ Ha'. by apply handle_match_seen_mono.
Qed.

(** *** Every key seen belongs to a record *)

Lemma add_if_new_seen (d : bool) (c : Citation) (k : string) (st : State) :
  k = citation_key c -> seen_has_record st ->
  seen_has_record (add_if_new d c k st).
Proof.
  intros -> Hst key. unfold add_if_new.
  case_bool_decide as Hin; [apply Hst|]. simpl. intros Hkey.
  apply elem_of_union in Hkey as [Hkey | Hkey].
  - apply elem_of_singleton in Hkey as ->. exists c.
    split; [apply elem_of_app; right; left | reflexivity].
  - destruct (Hst key Hkey) as (c' & Hc' & Hk'). exists c'.
    split; [apply elem_of_app; by left | exact Hk'].
Qed.

Lemma finish_seen (matched : string) (o : outcome) (st : State) :
  consistent o -> seen_has_record st -> seen_has_record (finish matched o st).
Proof.
  destruct o as [| |c k]; simpl; intros Ho Hst; [exact Hst | exact Hst |].
  by apply add_if_new_seen.
Qed.

Lemma handle_match_seen (current_year : Z)
  (current_text citation_type pattern : string) (st : State) (m : Re.Match) :
  seen_has_record st ->
  seen_has_record
    (handle_match current_year current_text citation_type pattern st m).
Proof.
  intros Hst. unfold handle_match. destruct (route pattern m).
  - unfold numerical_branch. destruct (last _) as [num_last|]; [|exact Hst].
    apply finish_seen; [reflexivity|].
    apply foldl_invariant; [exact Hst|].
    intros a num _ Ha. by apply add_if_new_seen.
  - apply finish_seen; [apply two_author_branch_consistent | exact Hst].
  - apply finish_seen; [apply single_author_branch_consistent | exact Hst].
Qed.

Lemma handle_region_seen (current_year : Z) (st : State)
  (region : string * string) :
  seen_has_record st -> seen_has_record (handle_region current_year st region).
Proof.
  intros Hst. unfold handle_region.
  apply foldl_invariant; [exact Hst|].
  intros a pattern _ Ha. unfold handle_pattern.
  apply foldl_invariant; [exact Ha|].
  intros a' m _ Ha'. by apply handle_match_seen.
Qed.

(** *** The key string determines tag, citation_text and number *)

Lemma append_empty_l (s : string) : "" +:+ s = s.
Proof. reflexivity. Qed.

Lemma append_underscore_inj (a a' d d' : string) :
  Py.existsb_chars (fun c => Ascii.eqb c "_") d = false ->
  Py.existsb_chars (fun c => Ascii.eqb c "_") d' = false ->
  a +:+ String "_" d = a' +:+ String "_" d' -> a = a' /\ d = d'.
Proof.
  intros Hd Hd'. revert a'. induction a as [|x a IH]; intros [|y a'] E;
    rewrite ?append_empty_l, ?append_cons in E.
  - by injection E as ->.
  - injection E as <- E. subst d.
    rewrite existsb_chars_append in Hd. cbn in Hd.
    apply orb_false_iff in Hd as [_ Hd]. discriminate.
  - injection E as -> E. subst d'.
    rewrite existsb_chars_append in Hd'. cbn in Hd'.
    apply orb_false_iff in Hd' as [_ Hd']. discriminate.
  - injection E as -> E. destruct (IH a' E) as [-> ->]. done.
Qed.

Lemma digits_no_underscore (s : string) :
  all_chars Py.isdecimal s = true ->
  Py.existsb_chars (fun c => Ascii.eqb c "_") s = false.
Proof.
  induction s as [|c s IH]; [reflexivity|]. cbn. intros H.
  apply andb_true_iff in H as [Hc Hs]. rewrite (IH Hs), orb_false_r.
  apply Ascii.eqb_neq. intros ->. vm_compute in Hc. discriminate.
Qed.

Lemma numerical_key_inj (tag tag' citation_text citation_text' : string)
  (number number' : string) :
  tag ∈ ["inline"; "reference"] -> tag' ∈ ["inline"; "reference"] ->
  all_chars Py.isdecimal number = true ->
  all_chars Py.isdecimal number' = true ->
  tag +:+ "_" +:+ citation_text +:+ "_" +:+ number
  = tag' +:+ "_" +:+ citation_text' +:+ "_" +:+ number' ->
  tag = tag' /\ citation_text = citation_text' /\ number = number'.
Proof.
  intros Ht Ht' Hn Hn' E.
  apply digits_no_underscore in Hn, Hn'.
  apply elem_of_cons in Ht as [-> | Ht];
    [|apply list_elem_of_singleton in Ht as ->];
    (apply elem_of_cons in Ht' as [-> | Ht'];
     [|apply list_elem_of_singleton in Ht' as ->]);
    try (vm_compute in E; discriminate).
  all: split; [reflexivity|].
  all: change (?t +:+ "_" +:+ ?n) with (t +:+ String "_" n) in E.
  all: rewrite ?append_cons, ?append_empty_l in E.
  all: injection E as E.
  all: by apply append_underscore_inj.
Qed.

(** X6. Nothing but duplicates is lost: for every match of a library
    pattern in the whole text or in the references text, and every digit
    run of that match, the returned list has a record with the tag of that
    text, the matched text as citation_text and the digit run as
    number. *)
Theorem every_match_leaves_record (current_year : Z) (text : string)
  (lg : list log_entry) (region : string * string) (pattern : string)
  (m : Re.Match) (num : string) :
  region ∈ texts_to_process text -> pattern ∈ patterns ->
  m ∈ Re.finditer pattern region.1 ->
  num ∈ Re.findall "\d+" (Re.group0 m) ->
  exists context,
    Numerical (Re.group0 m) num region.2 context
    ∈ (extract_citations current_year text lg).1.
Proof.
  intros Hr Hp Hm Hnum.
  destruct (findall_digit_run _ _ Hnum) as (Hne & Hall & Hsub).
  assert (Htag : forall r, r ∈ texts_to_process text ->
                           r.2 ∈ ["inline"; "reference"]).
  { intros r H. apply elem_of_cons in H as [-> | H]; [left|].
    apply list_elem_of_singleton in H as ->. right. left. }
  destruct (decide (text = "")) as [-> | Htext].
  { exfalso. destruct (finditer_group0 _ _ _ Hm) as (_ & Hlen & Ho & Hb).
    assert (Hr0 : region.1 = "").
    { apply elem_of_cons in Hr as [-> | Hr]; [reflexivity|].
      by apply list_elem_of_singleton in Hr as ->. }
    rewrite Hr0 in Hb. apply substring_len in Hsub.
    destruct num; [done|]. simpl in Hb, Hsub. unfold Py.len in *. lia. }
  set (st1 := handle_region current_year (initial_state lg) (text, "inline")).
  set (st2 := handle_region current_year st1
                (references_text text, "reference")).
  assert (Hseen : region.2 +:+ "_" +:+ Re.group0 m +:+ "_" +:+ num
                  ∈ seen_citations st2).
  { apply elem_of_cons in Hr as [-> | Hr].
    - apply handle_region_seen_mono.
      by apply (handle_region_sees current_year _ (text, "inline") pattern).
    - apply list_elem_of_singleton in Hr as ->.
      by apply (handle_region_sees current_year _
                  (references_text text, "reference") pattern). }
  assert (Hrec : seen_has_record st2).
  { apply handle_region_seen, handle_region_seen.
    intros key Hkey. by apply elem_of_empty in Hkey. }
  destruct (Hrec _ Hseen) as (c & Hc & Hkey). unfold st2, st1 in Hc.
  rewrite <- (extract_citations_eq current_year text lg Htext) in Hc.
  pose proof Hc as Hc'.
  apply extract_citations_record in Hc'
    as (region' & p' & m' & num' & Hr' & _ & _ & Hnum' & ->).
  destruct (findall_digit_run _ _ Hnum') as (_ & Hall' & _).
  simpl in Hkey.
  apply numerical_key_inj in Hkey as (E1 & E2 & E3); auto.
  rewrite E1, E2, E3 in Hc. by eexists.
Qed.

Lemma every_match_leaves_record_witness :
  exists context,
    Numerical "[2,3]" "3" "inline" context
    ∈ (extract_citations 2026 brackets_text []).1.
Proof.
  apply (every_match_leaves_record 2026 brackets_text []
           (brackets_text, "inline") "\[(\d+(?:,\s*\d+)*)\]"
           {| Re.m_string := brackets_text; Re.m_start := 12; Re.m_end := 17;
              Re.m_groups := [(1, (13, 16))] |} "3").
  - elem_by_compute.
  - elem_by_compute.
  - elem_by_compute.
  - elem_by_compute.
Defined.

(** ** The tag of a record is the tag of its scan *)

Lemma handle_region_records (current_year : Z) (st : State)
  (region : string * string) :
  extends (fun c => exists pattern m num,
             found_in region.1 pattern m num
             /\ c = scan_record region.1 region.2 m num)
          st (handle_region current_year st region).
Proof.
  unfold handle_region. apply foldl_extends. intros a pattern Hp.
  unfold handle_pattern. apply foldl_extends. intros a' m Hm.
  apply handle_match_extends, Forall_forall. intros c Hc.
  unfold candidates in Hc.
  rewrite (library_route pattern region.1 m Hp Hm) in Hc.
  apply list_elem_of_fmap in Hc as (num & -> & Hnum).
  by exists pattern, m, num.
Qed.

(** A key seen is the key of a kept record with the same tag, matched
    text and number, when every kept record is a record of a digit run. *)
Lemma seen_key_record (st : State) (tag citation_text num : string) :
  seen_has_record st ->
  Forall (fun c => exists tag' current_text m' num',
            tag' ∈ ["inline"; "reference"]
            /\ num' ∈ Re.findall "\d+" (Re.group0 m')
            /\ c = scan_record current_text tag' m' num') (citations st) ->
  tag ∈ ["inline"; "reference"] ->
  all_chars Py.isdecimal num = true ->
  tag +:+ "_" +:+ citation_text +:+ "_" +:+ num ∈ seen_citations st ->
  exists context, Numerical citation_text num tag context ∈ citations st.
Proof.
  intros Hrec Hall Htag Hnum Hseen.
  destruct (Hrec _ Hseen) as (c & Hc & Hkey).
  rewrite Forall_forall in Hall.
  destruct (Hall c Hc) as (tag' & current_text & m' & num' & Htag' & Hnum'
                           & E).
  destruct (findall_digit_run _ _ Hnum') as (_ & Hdec & _).
  subst c. unfold scan_record in *. simpl in Hkey.
  apply numerical_key_inj in Hkey as (E1 & E2 & E3); auto.
  rewrite E1, E2, E3 in Hc. by eexists.
Qed.

Lemma references_block_nonempty (text : string) (blk : nat * nat) :
  references_block text = Some blk -> text <> "".
Proof. intros H ->. vm_compute in H. discriminate. Qed.

(** C3, amended. When a references section is detected, the returned list
    is the records of the scan of the whole text, every one tagged
    inline, followed by the records of the scan of the isolated
    references text, every one tagged reference. A record carries the tag
    of the scan that found its match, not of the place of the match: every
    match in the whole text, also one that lies strictly inside the
    references block, leaves an inline record, and every reference record
    comes from a match that lies inside the block. *)
Theorem tagged_by_scan (current_year : Z) (text : string)
  (lg : list log_entry) (blk : nat * nat) :
  references_block text = Some blk ->
  scan_tagged text blk (extract_citations current_year text lg).1.
Proof.
  intros Hblk.
  pose proof (references_block_nonempty _ _ Hblk) as Hne.
  apply references_block_bounds in Hblk as (Hab & Hb & Hrefs).
  rewrite extract_citations_eq by exact Hne.
  set (st1 := handle_region current_year (initial_state lg)
                (text, "inline")).
  set (st2 := handle_region current_year st1
                (references_text text, "reference")).
  destruct (handle_region_records current_year (initial_state lg)
              (text, "inline")) as [(l1 & E1 & F1) _].
  destruct (handle_region_records current_year st1
              (references_text text, "reference")) as [(l2 & E2 & F2) _].
  fold st1 in E1, E2. fold st2 in E2. cbn [fst snd] in F1, F2.
  change (citations (initial_state lg) ++ l1) with l1 in E1.
  rewrite E1 in E2.
  assert (Hrec1 : seen_has_record st1).
  { apply handle_region_seen.
    intros key Hkey. by apply elem_of_empty in Hkey. }
  assert (Hrec2 : seen_has_record st2) by by apply handle_region_seen.
  assert (Hall1 : Forall (fun c => exists tag' current_text m' num',
                            tag' ∈ ["inline"; "reference"]
                            /\ num' ∈ Re.findall "\d+" (Re.group0 m')
                            /\ c = scan_record current_text tag' m' num')
                         l1).
  { eapply Forall_impl; [exact F1|]. intros c (p & m & num & Hf & ->).
    exists "inline", text, m, num.
    split; [left|]. split; [apply Hf | reflexivity]. }
  assert (Hall2 : Forall (fun c => exists tag' current_text m' num',
                            tag' ∈ ["inline"; "reference"]
                            /\ num' ∈ Re.findall "\d+" (Re.group0 m')
                            /\ c = scan_record current_text tag' m' num')
                         l2).
  { eapply Forall_impl; [exact F2|]. intros c (p & m & num & Hf & ->).
    exists "reference", (references_text text), m, num.
    split; [right; left|]. split; [apply Hf | reflexivity]. }
  exists l1, l2.
  split; [exact E2|]. split; [exact Hrefs|]. split; [exact F1|].
  split; [|split].
  - eapply Forall_impl; [exact F2|].
    intros c (p & m & num & Hf & ->). exists p, m, num.
    split; [exact Hf|]. split; [|reflexivity].
    destruct Hf as (_ & Hm & _).
    destruct (finditer_group0 _ _ _ Hm) as (_ & _ & _ & Hend).
    rewrite Hrefs, len_slice in Hend by lia.
    unfold inside. lia.
  - intros p m num (Hp & Hm & Hnum).
    destruct (findall_digit_run _ _ Hnum) as (_ & Hdec & _).
    rewrite <- E1. apply seen_key_record; auto.
    + by rewrite E1.
    + left.
    + by apply (handle_region_sees current_year _ (text, "inline") p).
  - intros p m num (Hp & Hm & Hnum).
    destruct (findall_digit_run _ _ Hnum) as (_ & Hdec & _).
    destruct (seen_key_record st2 "reference" (Re.group0 m) num)
      as (context & Hc); auto.
    + rewrite E2. by apply Forall_app.
    + right. left.
    + by apply (handle_region_sees current_year _
                  (references_text text, "reference") p).
    + exists context. rewrite E2 in Hc.
      apply elem_of_app in Hc as [Hc | Hc]; [|exact Hc].
      exfalso. rewrite Forall_forall in F1.
      destruct (F1 _ Hc) as (p' & m' & num' & _ & E). discriminate.
Qed.

Lemma tagged_by_scan_witness :
  scan_tagged block_text (11, 20)
    (extract_citations 2026 block_text []).1.
Proof.
  apply (tagged_by_scan 2026 block_text [] (11, 20)).
  vm_compute. reflexivity.
Defined.

(** ** The validators *)

Lemma rmatch_chars_cons {A} (fl : Re.flags) (cs : Re.charset) (i : nat)
  (c : ascii) (s : string) (caps : Re.captures)
  (k : nat -> string -> Re.captures -> option A) :
  Re.rmatch fl (Re.RChars cs) i (String c s) caps k
  = if Re.char_ok fl cs c then k (S i) s caps else None.
Proof. reflexivity. Qed.

(** A greedy repetition of a character class over a text made of
    characters of the class runs to the end of the text when the
    continuation accepts there. *)
Lemma greedy_class_to_end {A} (fl : Re.flags) (cs : Re.charset) (lo : nat)
  (k : nat -> string -> Re.captures -> option A) (caps : Re.captures)
  (res : A) (s : string) :
  forall fuel count i,
    all_chars (Re.char_ok fl cs) s = true ->
    Py.len s < fuel -> lo <= count + Py.len s ->
    k (i + Py.len s) "" caps = Some res ->
    Re.repeat_loop (Re.rmatch fl (Re.RChars cs)) lo None true k
      fuel count i s caps = Some res.
Proof.
  induction s as [|c s IH]; intros fuel count i Hs Hf Hlo Hk;
    rewrite repeat_loop_eq; cbv zeta.
  - simpl in Hlo, Hk. rewrite Nat.add_0_r in Hk, Hlo.
    replace (Nat.leb lo count) with true by (symmetry; apply Nat.leb_le; lia).
    rewrite Hk. destruct fuel; reflexivity.
  - destruct fuel as [|f]; [simpl in Hf; lia|].
    cbn in Hs. apply andb_true_iff in Hs as [Hc Hs].
    cbn [Re.below]. rewrite rmatch_chars_cons, Hc.
    replace (Nat.ltb i (S i)) with true by (symmetry; apply Nat.ltb_lt; lia).
    rewrite orb_true_r. rewrite (IH f (S count) (S i)); [reflexivity|..].
    + exact Hs.
    + simpl in Hf. unfold Py.len in *. lia.
    + simpl in Hlo. unfold Py.len in *. lia.
    + simpl in Hk. rewrite <- Hk. f_equal. unfold Py.len. lia.
Qed.

Lemma author_regex_compile :
  Re.compile "^[A-Za-z\s\-\.\']+$" = Some author_regex.
Proof. vm_compute. reflexivity. Qed.

Lemma char_ok_author (c : ascii) :
  Re.char_ok Re.no_flags author_class c = author_char c.
Proof.
  unfold Re.char_ok, Re.cs_mem, author_class, author_char.
  cbn [Re.IGNORECASE Re.no_flags existsb Re.item_mem].
  by rewrite orb_false_r, !orb_assoc.
Qed.

Lemma all_chars_ext (f g : ascii -> bool) (s : string) :
  (forall c, f c = g c) -> all_chars f s = all_chars g s.
Proof.
  intros H. induction s as [|c s IH]; [reflexivity|]. cbn. by rewrite H, IH.
Qed.

Lemma author_match_iff (author : string) :
  is_Some (Re.match_ "^[A-Za-z\s\-\.\']+$" author)
  <-> author <> "" /\ all_chars author_char author = true.
Proof.
  unfold Re.match_. rewrite author_regex_compile. cbn [mbind option_bind].
  set (k := fun e (_ : string) cs =>
              Some {| Re.m_string := author; Re.m_start := 0; Re.m_end := e;
                      Re.m_groups := cs |}).
  change (Re.rmatch Re.no_flags author_regex 0 author [] k)
    with (Re.rmatch Re.no_flags
            (Re.RRepeat (Re.RChars author_class) 1 None true) 0 author []
            (fun i' s' cs' => Re.rmatch Re.no_flags Re.REol i' s' cs' k)).
  split.
  - intros [m Hm].
    apply rmatch_sound in Hm as (w & s' & cs' & -> & HL & _ & Hk).
    destruct HL as (n & Hn & _ & Hit).
    assert (Hw : Py.len w = n /\ all_chars author_char w = true).
    { rewrite <- (all_chars_ext _ _ _ char_ok_author).
      apply iter_chars. exact Hit. }
    destruct Hw as [Hlen Hw].
    split.
    + destruct w; [simpl in Hlen; lia | discriminate].
    + rewrite all_chars_append, Hw. simpl in Hk.
      destruct s' as [|c [|d s']]; [reflexivity | | discriminate].
      destruct (Ascii.eqb c Py.nl) eqn:E; [|discriminate].
      apply Ascii.eqb_eq in E as ->. reflexivity.
  - intros [Hne Hall].
    rewrite <- (rmatch_repeat_fuel _ _ _ _ _ _ _ _ _
                  (S (1 + Py.len author))) by lia.
    erewrite (greedy_class_to_end Re.no_flags author_class 1 _ []);
      [by eexists | | lia | | reflexivity].
    + by rewrite (all_chars_ext _ _ _ char_ok_author).
    + destruct author; [done | simpl; lia].
Qed.

(** X7. [_validate_author] accepts exactly the names of at least two
    characters that are made of ASCII letters, white space, hyphens,
    periods and apostrophes and have a character that is not white
    space. *)
Theorem validate_author_accepts (author : string) :
  _validate_author author = true
  <-> 2 <= Py.len author
      /\ all_chars author_char author = true
      /\ Py.existsb_chars (fun c => negb (Py.isspace c)) author = true.
Proof.
  unfold _validate_author, Py.has_token.
  rewrite !andb_true_iff, bool_decide_eq_true, author_match_iff, Nat.leb_le.
  split.
  - intros [[H1 [_ H2]] H3]. done.
  - intros (H1 & H2 & H3). split; [split; [exact H3|]|exact H1].
    split; [|exact H2]. intros ->. simpl in H1. lia.
Qed.

Lemma strip_eol_letter_digits (d s : string) :
  all_chars Py.isdecimal d = true ->
  strip_eol_letter (d +:+ s) = d +:+ strip_eol_letter s.
Proof.
  induction d as [|c d IH]; intros H; [reflexivity|].
  cbn in H. apply andb_true_iff in H as [Hc Hd].
  rewrite !append_cons. cbn [strip_eol_letter].
  replace (is_lower c) with false.
  - cbn [andb]. f_equal. by apply IH.
  - symmetry. unfold is_lower, Py.isdecimal, Py.in_range in *.
    apply andb_true_iff in Hc as [_ Hc]. apply N.leb_le in Hc.
    apply andb_false_iff. left. apply N.leb_gt. lia.
Qed.

(** X8. A year written as decimal digits, alone or followed by one
    lowercase letter, is accepted by [_validate_year] exactly when it has
    at most 4300 digits, leading zeros counted, and the number lies
    between 1800 and the current year plus one. *)
Theorem validate_year_accepts (current_year : Z) (digits suffix : string) :
  digits <> "" -> all_chars Py.isdecimal digits = true ->
  suffix = "" \/ (exists c, suffix = String c "" /\ is_lower c = true) ->
  _validate_year current_year (digits +:+ suffix) = true
  <-> Py.len digits <= Py.int_max_str_digits
      /\ (1800 <= decimal_value 0 digits <= current_year + 1)%Z.
Proof.
  intros Hne Hd Hs. unfold _validate_year.
  rewrite sub_empty_letter_eol, strip_eol_letter_digits by exact Hd.
  assert (E : strip_eol_letter suffix = "").
  { destruct Hs as [-> | (c & -> & Hc)]; [reflexivity|].
    cbn. by rewrite Hc. }
  rewrite E, append_empty_r, (int_digit_run digits Hne Hd).
  destruct (Nat.leb (Py.len digits) Py.int_max_str_digits) eqn:El.
  - apply Nat.leb_le in El.
    rewrite andb_true_iff, !Z.leb_le. split; [by intros H | by intros [_ H]].
  - apply Nat.leb_gt in El. split; [discriminate|]. intros [H _]. lia.
Qed.

Lemma validate_year_accepts_witness :
  _validate_year 2026 ("2020" +:+ "a") = true
  <-> Py.len "2020" <= Py.int_max_str_digits
      /\ (1800 <= decimal_value 0 "2020" <= 2026 + 1)%Z.
Proof.
  apply (validate_year_accepts 2026 "2020" "a").
  - discriminate.
  - reflexivity.
  - right. exists "a"%char. split; reflexivity.
Defined.

(** ** The search and download branches of the dispatcher *)

Lemma rmatch_any_cons {A} (fl : Re.flags) (i : nat) (c : ascii) (s : string)
  (caps : Re.captures) (k : nat -> string -> Re.captures -> option A) :
  Re.rmatch fl Re.RAny i (String c s) caps k
  = if Re.any_ok fl c then k (S i) s caps else None.
Proof. reflexivity. Qed.

Lemma greedy_any_to_end {A} (fl : Re.flags) (lo : nat)
  (k : nat -> string -> Re.captures -> option A) (caps : Re.captures)
  (res : A) (s : string) :
  forall fuel count i,
    all_chars (Re.any_ok fl) s = true ->
    Py.len s < fuel -> lo <= count + Py.len s ->
    k (i + Py.len s) "" caps = Some res ->
    Re.repeat_loop (Re.rmatch fl Re.RAny) lo None true k
      fuel count i s caps = Some res.
Proof.
  induction s as [|c s IH]; intros fuel count i Hs Hf Hlo Hk;
    rewrite repeat_loop_eq; cbv zeta.
  - simpl in Hlo, Hk. rewrite Nat.add_0_r in Hk, Hlo.
    replace (Nat.leb lo count) with true by (symmetry; apply Nat.leb_le; lia).
    rewrite Hk. destruct fuel; reflexivity.
  - destruct fuel as [|f]; [simpl in Hf; lia|].
    cbn in Hs. apply andb_true_iff in Hs as [Hc Hs].
    cbn [Re.below]. rewrite rmatch_any_cons, Hc.
    replace (Nat.ltb i (S i)) with true by (symmetry; apply Nat.ltb_lt; lia).
    rewrite orb_true_r. rewrite (IH f (S count) (S i)); [reflexivity|..].
    + exact Hs.
    + simpl in Hf. unfold Py.len in *. lia.
    + simpl in Hlo. unfold Py.len in *. lia.
    + simpl in Hk. rewrite <- Hk. f_equal. unfold Py.len. lia.
Qed.

Lemma about_regex_compile : Re.compile "about (.+)" = Some about_regex.
Proof. vm_compute. reflexivity. Qed.

Lemma search_from_skip (fl : Re.flags) (r : Re.regex) (text : string)
  (i : nat) (c : ascii) (s : string) (adv : bool) :
  (forall k : nat -> string -> Re.captures -> option Re.Match,
      Re.rmatch fl r i (String c s) [] k = None) ->
  Re.search_from fl r text i (String c s) adv
  = Re.search_from fl r text (S i) s false.
Proof. intros H. rewrite search_from_eq, H. reflexivity. Qed.

(** On "search papers about " followed by a line [v], the pattern finds
    [v] as its group. *)
Lemma search_about (v : string) :
  v <> "" -> all_chars (fun c => negb (Ascii.eqb c Py.nl)) v = true ->
  exists m,
    Re.search Re.no_flags "about (.+)" (search_task v) = Some m
    /\ Re.group m 1 = Some v.
Proof.
  intros Hne Hv. unfold Re.search. rewrite about_regex_compile.
  cbn [mbind option_bind]. unfold search_task.
  set (text := "search papers about " +:+ v).
  change text with
    (String "s" (String "e" (String "a" (String "r" (String "c"
      (String "h" (String " " (String "p" (String "a" (String "p"
      (String "e" (String "r" (String "s" (String " "
      ("about " +:+ v))))))))))))))) at 2.
  do 14 (rewrite search_from_skip by (intros k; reflexivity)).
  rewrite search_from_eq.
  set (k := fun e (_ : string) cs =>
              if false && Nat.eqb e 14 then None
              else Some {| Re.m_string := text; Re.m_start := 14;
                           Re.m_end := e; Re.m_groups := cs |}).
  assert (E : Re.rmatch Re.no_flags about_regex 14 ("about " +:+ v) [] k
              = Re.repeat_loop (Re.rmatch Re.no_flags Re.RAny) 1 None true
                  (fun i' s' cs' => k i' s' ((1, (20, i')) :: cs'))
                  (S (1 + Py.len v)) 0 20 v []) by reflexivity.
  rewrite E.
  erewrite greedy_any_to_end; [| | lia | | reflexivity].
  - eexists. split; [reflexivity|].
    unfold Re.group, Re.span. cbn [Re.m_groups Re.lookup_group Nat.eqb].
    cbn [mbind option_bind Re.m_string]. f_equal.
    unfold Py.slice, text.
    replace (20 + Py.len v - 20) with (Py.len v) by lia.
    change (Py.drop 20 ("search papers about " +:+ v)) with v.
    rewrite <- (append_empty_r v) at 2. apply take_len_append.
  - erewrite all_chars_ext; [exact Hv|]. intros c. reflexivity.
  - destruct v; [done | simpl; lia].
Qed.

Lemma lower_append (a b : string) :
  Py.lower (a +:+ b) = Py.lower a +:+ Py.lower b.
Proof.
  unfold Py.lower. induction a as [|x a IH]; [reflexivity|].
  rewrite append_cons. cbn. rewrite append_cons. by f_equal.
Qed.

Lemma isspace_lower_char (c : ascii) :
  Py.isspace (Py.lower_char c) = Py.isspace c.
Proof. destruct c as [[] [] [] [] [] [] [] []]; reflexivity. Qed.

Lemma newline_lower_char (c : ascii) :
  Ascii.eqb (Py.lower_char c) Py.nl = Ascii.eqb c Py.nl.
Proof. destruct c as [[] [] [] [] [] [] [] []]; reflexivity. Qed.

Lemma all_chars_lower (f : ascii -> bool) (s : string) :
  (forall c, f (Py.lower_char c) = f c) ->
  all_chars f (Py.lower s) = all_chars f s.
Proof.
  intros H. unfold Py.lower.
  induction s as [|c s IH]; [reflexivity|]. cbn. by rewrite H, IH.
Qed.

Lemma existsb_chars_lower (f : ascii -> bool) (s : string) :
  (forall c, f (Py.lower_char c) = f c) ->
  Py.existsb_chars f (Py.lower s) = Py.existsb_chars f s.
Proof.
  intros H. unfold Py.lower.
  induction s as [|c s IH]; [reflexivity|]. cbn. by rewrite H, IH.
Qed.

Lemma rstrip_chars_append (f : ascii -> bool) (a b : string) :
  Py.rstrip_chars f b <> "" ->
  Py.rstrip_chars f (a +:+ b) = a +:+ Py.rstrip_chars f b.
Proof.
  intros Hb. induction a as [|x a IH]; [reflexivity|].
  rewrite !append_cons. cbn. rewrite IH.
  destruct a as [|y a]; [|reflexivity].
  rewrite append_empty_l. destruct (Py.rstrip_chars f b); [done|reflexivity].
Qed.

Lemma rstrip_chars_empty (f : ascii -> bool) (s : string) :
  Py.rstrip_chars f s = "" <-> all_chars f s = true.
Proof.
  induction s as [|c s IH]; [done|]. cbn.
  destruct (Py.rstrip_chars f s) as [|d t] eqn:E.
  - destruct (f c); cbn; [by rewrite <- IH | done].
  - split; [done|]. intros H. apply andb_true_iff in H as [_ H].
    by apply IH in H.
Qed.

Lemma has_token_not_all_space (s : string) :
  Py.has_token s = true <-> all_chars Py.isspace s = false.
Proof.
  unfold Py.has_token. induction s as [|c s IH]; [done|]. cbn.
  destruct (Py.isspace c); cbn; [exact IH | done].
Qed.

Lemma rstrip_nonempty (s : string) :
  Py.has_token s = true -> Py.rstrip_chars Py.isspace s <> "".
Proof.
  intros H E. apply rstrip_chars_empty in E.
  apply has_token_not_all_space in H. congruence.
Qed.

Lemma lstrip_chars_empty (f : ascii -> bool) (s : string) :
  all_chars f s = true -> Py.lstrip_chars f s = "".
Proof.
  induction s as [|c s IH]; [done|]. cbn. intros H.
  apply andb_true_iff in H as [-> H]. by apply IH.
Qed.

(** Stripping on the left and stripping on the right commute. *)
Lemma lstrip_rstrip_comm (f : ascii -> bool) (s : string) :
  Py.lstrip_chars f (Py.rstrip_chars f s)
  = Py.rstrip_chars f (Py.lstrip_chars f s).
Proof.
  induction s as [|c s IH]; [reflexivity|].
  destruct (f c) eqn:Hc.
  - cbn [Py.lstrip_chars]. rewrite Hc. cbn [Py.rstrip_chars].
    destruct (Py.rstrip_chars f s) as [|d t] eqn:E.
    + rewrite Hc. cbn.
      apply rstrip_chars_empty in E.
      rewrite (lstrip_chars_empty f s E). reflexivity.
    + cbn [Py.lstrip_chars]. rewrite Hc. exact IH.
  - rewrite (lstrip_chars_head f c s Hc).
    destruct (rstrip_chars_keeps_head f c s Hc) as [t Ht].
    rewrite Ht. by apply lstrip_chars_head.
Qed.

Lemma strip_rstrip (s : string) :
  Py.strip (Py.rstrip_chars Py.isspace s) = Py.strip s.
Proof.
  unfold Py.strip, Py.strip_chars.
  by rewrite lstrip_rstrip_comm, rstrip_chars_idem.
Qed.

Lemma all_chars_substring (f : ascii -> bool) (u s : string) :
  substring_of u s -> all_chars f s = true -> all_chars f u = true.
Proof.
  intros (pre & post & ->). rewrite !all_chars_append.
  intros H. apply andb_true_iff in H as [_ H].
  by apply andb_true_iff in H as [H _].
Qed.

(** X9. The instruction [main] builds for a topic reaches the search
    client with the topic in lower case and stripped: for a topic on one
    line that is not blank, [run] on "search papers about " followed by the
    topic returns what [search_papers] returns on that query. *)
Theorem run_search_topic_query {SearchResult PaperResult : Type}
  (search_papers :
     string -> option Z -> list log_entry -> SearchResult * list log_entry)
  (process_paper : string -> list log_entry -> PaperResult * list log_entry)
  (current_year : Z) (topic : string) (max_results : option Z)
  (lg : list log_entry) :
  all_chars (fun c => negb (Ascii.eqb c Py.nl)) topic = true ->
  Py.has_token topic = true ->
  let query := Py.strip (Py.lower topic) in
  Agent.run _ _ search_papers process_paper current_year
    (search_task topic) max_results lg
  = let '(r, lg') :=
      search_papers query max_results
        (Agent.info ("Executing search task with query: " +:+ query)
           (Agent.info ("DEBUG: Agent is searching for '" +:+ query +:+ "'")
              lg)) in
    (Agent.FromSearch _ _ r, lg').
Proof.
  intros Hnl Htok query.
  set (v := Py.rstrip_chars Py.isspace (Py.lower topic)).
  assert (Htok' : Py.has_token (Py.lower topic) = true).
  { unfold Py.has_token in *. rewrite existsb_chars_lower; [exact Htok|].
    intros c. by rewrite isspace_lower_char. }
  assert (Hv : v <> "") by (by apply rstrip_nonempty).
  assert (Hlow : Py.strip (Py.lower (search_task topic)) = search_task v).
  { unfold search_task. rewrite lower_append.
    unfold Py.strip, Py.strip_chars.
    change (Py.lower "search papers about ") with "search papers about ".
    change (Py.lstrip_chars Py.isspace
              ("search papers about " +:+ Py.lower topic))
      with ("search papers about " +:+ Py.lower topic).
    by rewrite rstrip_chars_append. }
  assert (Hvnl : all_chars (fun c => negb (Ascii.eqb c Py.nl)) v = true).
  { apply (all_chars_substring _ _ (Py.lower topic)).
    - destruct (rstrip_chars_prefix Py.isspace (Py.lower topic)) as [post E].
      exists "", post. by rewrite append_empty_l.
    - rewrite all_chars_lower; [exact Hnl|].
      intros c. by rewrite newline_lower_char. }
  destruct (search_about v Hv Hvnl) as (m & Hm & Hg).
  unfold Agent.run. rewrite bool_decide_eq_false_2 by discriminate.
  unfold Agent.run_body. rewrite Hlow.
  change (Agent.is_search_task (search_task v)) with true. cbv iota.
  rewrite Hm, Hg. cbn [default from_option id].
  replace (Py.strip v) with query by (symmetry; apply strip_rstrip).
  by destruct (search_papers _ _ _).
Qed.

Lemma run_search_topic_query_witness :
  Agent.run _ _ no_search no_paper 2026 (search_task "Dark Matter ") None []
  = let '(r, lg') :=
      no_search "dark matter" None
        (Agent.info "Executing search task with query: dark matter"
           (Agent.info "DEBUG: Agent is searching for 'dark matter'" [])) in
    (Agent.FromSearch _ _ r, lg').
Proof.
  apply (run_search_topic_query no_search no_paper 2026 "Dark Matter " None []).
  - reflexivity.
  - reflexivity.
Defined.

Lemma rstrip_chars_unchanged (f : ascii -> bool) (s : string) :
  (forall c, ends_with c s -> f c = false) -> Py.rstrip_chars f s = s.
Proof.
  induction s as [|c s IH]; intros H; [reflexivity|]. cbn.
  rewrite IH.
  - destruct s as [|d t]; [|reflexivity].
    rewrite (H c); [reflexivity|]. by exists "".
  - intros c' [pre ->]. apply H. exists (String c pre).
    by rewrite append_cons.
Qed.

Lemma no_space_no_blank (s : string) :
  all_chars (fun c => negb (Py.isspace c)) s = true -> ~ occurs " " s.
Proof.
  intros H (a & b & ->). rewrite all_chars_append in H.
  apply andb_true_iff in H as [_ H]. cbn in H. discriminate.
Qed.

Lemma startswith_append (sub s : string) :
  Py.startswith sub s = true -> exists rest, s = sub +:+ rest.
Proof.
  revert s. induction sub as [|x sub IH]; intros s H; [by exists s|].
  destruct s as [|y s]; [discriminate|]. cbn in H.
  apply andb_true_iff in H as [Hxy H]. apply Ascii.eqb_eq in Hxy as ->.
  destruct (IH s H) as [rest ->]. exists rest. by rewrite append_cons.
Qed.

Lemma ends_with_last_char (c : ascii) (s : string) :
  ends_with c s -> last_char s = Some c.
Proof.
  intros [pre ->]. induction pre as [|x pre IH]; [reflexivity|].
  rewrite append_cons. cbn. rewrite IH.
  destruct pre; reflexivity.
Qed.

(** The instruction for a URL without white space, in lower case and
    stripped as [run] does first. *)
Lemma download_task_lower (url : string) :
  all_chars (fun c => negb (Py.isspace c)) url = true -> url <> "" ->
  Py.strip (Py.lower (download_task url)) = download_task (Py.lower url).
Proof.
  intros Hsp Hne. unfold download_task. rewrite lower_append.
  unfold Py.strip, Py.strip_chars.
  change (Py.lower "download and summarize this paper: ")
    with "download and summarize this paper: ".
  change (Py.lstrip_chars Py.isspace
            ("download and summarize this paper: " +:+ Py.lower url))
    with ("download and summarize this paper: " +:+ Py.lower url).
  assert (E : Py.rstrip_chars Py.isspace (Py.lower url) = Py.lower url).
  { apply rstrip_chars_none. rewrite all_chars_lower; [exact Hsp|].
    intros c. by rewrite isspace_lower_char. }
  rewrite rstrip_chars_append; rewrite E; [reflexivity|].
  destruct url; [done | discriminate].
Qed.

(** The download branch of [run] on the instruction [main] builds, for a
    URL that the branch reads back unchanged. *)
Lemma run_paper_url {SearchResult PaperResult : Type}
  (search_papers :
     string -> option Z -> list log_entry -> SearchResult * list log_entry)
  (process_paper : string -> list log_entry -> PaperResult * list log_entry)
  (current_year : Z) (url : string) (max_results : option Z)
  (lg : list log_entry) :
  Py.startswith "http" url = true ->
  all_chars (fun c => negb (Py.isspace c)) url = true ->
  Py.rstrip_chars is_url_trailer url = url ->
  Py.contains "search" (Py.lower url) = false ->
  Agent.run _ _ search_papers process_paper current_year
    (download_task url) max_results lg
  = let '(r, lg') :=
      process_paper url
        (Agent.info ("Executing paper processing task for URL: " +:+ url)
           lg) in
    (Agent.FromPaper _ _ r, lg').
Proof.
  intros Hhttp Hsp Htrail Hsearch.
  destruct (startswith_append _ _ Hhttp) as [rest Hrest].
  assert (Hne : url <> "") by (rewrite Hrest; discriminate).
  pose proof (download_task_lower url Hsp Hne) as Hlow.
  unfold Agent.run. rewrite bool_decide_eq_false_2 by discriminate.
  unfold Agent.run_body. rewrite Hlow.
  assert (E1 : Agent.is_search_task (download_task (Py.lower url)) = false).
  { unfold Agent.is_search_task.
    change (Py.contains "search" (download_task (Py.lower url)))
      with (Py.contains "search" (Py.lower url)).
    by rewrite Hsearch. }
  rewrite E1.
  change (Agent.is_paper_task (download_task (Py.lower url))) with true.
  cbv iota.
  assert (E2 : Py.find "http" (download_task url) 0 = Some 35).
  { unfold Py.find.
    change (Nat.leb 0 ?n) with true. cbv iota.
    change (Py.find_at "http" (Py.drop 0 (download_task url)) 0)
      with (Py.find_at "http" url 35).
    rewrite Hrest. reflexivity. }
  rewrite E2.
  assert (E3 : Py.find " " (download_task url) 35 = None).
  { unfold Py.find.
    change (Nat.leb 35 (Py.len (download_task url))) with true. cbv iota.
    change (Py.drop 35 (download_task url)) with url.
    apply find_at_none. by apply no_space_no_blank. }
  rewrite E3. cbn [default from_option id].
  assert (E4 : Py.slice 35 (Py.len (download_task url)) (download_task url)
               = url).
  { unfold Py.slice.
    change (Py.drop 35 (download_task url)) with url.
    change (Py.len (download_task url)) with (35 + Py.len url).
    replace (35 + Py.len url - 35) with (Py.len url) by lia.
    rewrite <- (append_empty_r url) at 2. apply take_len_append. }
  rewrite E4.
  change (fun c : ascii => Py.contains (String c "") ".,;")
    with is_url_trailer.
  rewrite Htrail.
  rewrite (bool_decide_eq_false_2 _ Hne).
  by destruct (process_paper _ _).
Qed.

(** X10. The instruction [main] builds for a paper reaches the fetcher
    with the very URL: for a URL that starts with "http", has no white
    space, does not end with a period, comma or semicolon and does not
    contain "search" in any case, [run] on "download and summarize this
    paper: " followed by the URL returns what [process_paper] returns on
    that URL. *)
Theorem run_download_url {SearchResult PaperResult : Type}
  (search_papers :
     string -> option Z -> list log_entry -> SearchResult * list log_entry)
  (process_paper : string -> list log_entry -> PaperResult * list log_entry)
  (current_year : Z) (url : string) (max_results : option Z)
  (lg : list log_entry) :
  Py.startswith "http" url = true ->
  all_chars (fun c => negb (Py.isspace c)) url = true ->
  (forall c, last_char url = Some c -> is_url_trailer c = false) ->
  Py.contains "search" (Py.lower url) = false ->
  Agent.run _ _ search_papers process_paper current_year
    (download_task url) max_results lg
  = let '(r, lg') :=
      process_paper url
        (Agent.info ("Executing paper processing task for URL: " +:+ url)
           lg) in
    (Agent.FromPaper _ _ r, lg').
Proof.
  intros Hhttp Hsp Htrail Hsearch.
  apply run_paper_url; [exact Hhttp | exact Hsp | | exact Hsearch].
  apply rstrip_chars_unchanged. intros c Hc.
  apply Htrail. by apply ends_with_last_char.
Qed.

Lemma run_download_url_witness :
  Agent.run _ _ no_search no_paper 2026
    (download_task "https://arxiv.org/pdf/2101.00001.pdf") None []
  = let '(r, lg') :=
      no_paper "https://arxiv.org/pdf/2101.00001.pdf"
        (Agent.info
           ("Executing paper processing task for URL: "
            +:+ "https://arxiv.org/pdf/2101.00001.pdf") []) in
    (Agent.FromPaper _ _ r, lg').
Proof.
  apply (run_download_url no_search no_paper 2026
           "https://arxiv.org/pdf/2101.00001.pdf" None []).
  - reflexivity.
  - reflexivity.
  - intros c H. vm_compute in H. injection H as <-. reflexivity.
  - reflexivity.
Defined.

(** X21. The search test comes first: for a URL without white space that
    contains "search" in any case, as in "research", the instruction
    [main] builds for a paper is run as a search; [process_paper] is
    not called, and [run] returns what [search_papers] returns on some
    query. *)
Theorem run_download_misrouted {SearchResult PaperResult : Type}
  (search_papers :
     string -> option Z -> list log_entry -> SearchResult * list log_entry)
  (process_paper : string -> list log_entry -> PaperResult * list log_entry)
  (current_year : Z) (url : string) (max_results : option Z)
  (lg : list log_entry) :
  all_chars (fun c => negb (Py.isspace c)) url = true ->
  Py.contains "search" (Py.lower url) = true ->
  exists query,
    Agent.run _ _ search_papers process_paper current_year
      (download_task url) max_results lg
    = let '(r, lg') :=
        search_papers query max_results
          (Agent.info ("Executing search task with query: " +:+ query)
             (Agent.info
                ("DEBUG: Agent is searching for '" +:+ query +:+ "'") lg)) in
      (Agent.FromSearch _ _ r, lg').
Proof.
  intros Hsp Hsearch.
  assert (Hne : url <> "") by (intros ->; discriminate).
  unfold Agent.run. rewrite bool_decide_eq_false_2 by discriminate.
  unfold Agent.run_body. rewrite (download_task_lower url Hsp Hne).
  assert (E : Agent.is_search_task (download_task (Py.lower url)) = true).
  { unfold Agent.is_search_task.
    change (Py.contains "search" (download_task (Py.lower url)))
      with (Py.contains "search" (Py.lower url)).
    rewrite Hsearch.
    change (Py.contains "paper" (download_task (Py.lower url))) with true.
    reflexivity. }
  rewrite E.
  exists (match Re.search Re.no_flags "about (.+)"
                  (download_task (Py.lower url)) with
          | Some m => Py.strip (default "" (Re.group m 1))
          | None =>
              Py.strip
                (Py.remove_all "papers"
                   (Py.remove_all "search" (download_task (Py.lower url))))
          end).
  cbv zeta. by destruct (search_papers _ _ _).
Qed.

Lemma run_download_misrouted_witness :
  exists query,
    Agent.run _ _ no_search no_paper 2026
      (download_task "https://research.example.org/a.pdf") None []
    = let '(r, lg') :=
        no_search query None
          (Agent.info ("Executing search task with query: " +:+ query)
             (Agent.info
                ("DEBUG: Agent is searching for '" +:+ query +:+ "'") [])) in
      (Agent.FromSearch _ _ r, lg').
Proof.
  apply (run_download_misrouted no_search no_paper 2026
           "https://research.example.org/a.pdf" None []).
  - reflexivity.
  - reflexivity.
Defined.

(** ** The PDF address of an arXiv entry *)

Lemma rmatch_seq_eq {A} (fl : Re.flags) (r1 r2 : Re.regex) (i : nat)
  (s : string) (caps : Re.captures)
  (k : nat -> string -> Re.captures -> option A) :
  Re.rmatch fl (Re.RSeq r1 r2) i s caps k
  = Re.rmatch fl r1 i s caps
      (fun i' s' cs' => Re.rmatch fl r2 i' s' cs' k).
Proof. reflexivity. Qed.

Lemma rmatch_group_eq {A} (fl : Re.flags) (n : nat) (r : Re.regex) (i : nat)
  (s : string) (caps : Re.captures)
  (k : nat -> string -> Re.captures -> option A) :
  Re.rmatch fl (Re.RGroup n r) i s caps k
  = Re.rmatch fl r i s caps
      (fun i' s' cs' => k i' s' ((n, (i, i')) :: cs')).
Proof. reflexivity. Qed.

Lemma rmatch_repeat_eq {A} (fl : Re.flags) (r : Re.regex) (lo : nat)
  (hi : option nat) (greedy : bool) (i : nat) (s : string)
  (caps : Re.captures) (k : nat -> string -> Re.captures -> option A) :
  Re.rmatch fl (Re.RRepeat r lo hi greedy) i s caps k
  = Re.repeat_loop (Re.rmatch fl r) lo hi greedy k (S (lo + Py.len s)) 0 i s
      caps.
Proof. reflexivity. Qed.

Lemma rmatch_bol_eq {A} (fl : Re.flags) (s : string) (caps : Re.captures)
  (k : nat -> string -> Re.captures -> option A) :
  Re.rmatch fl Re.RBol 0 s caps k = k 0 s caps.
Proof. reflexivity. Qed.

Lemma rmatch_eol_inv {A} (fl : Re.flags) (i : nat) (s : string)
  (caps : Re.captures) (k : nat -> string -> Re.captures -> option A)
  (res : A) :
  Re.rmatch fl Re.REol i s caps k = Some res ->
  eol s = true /\ k i s caps = Some res.
Proof.
  unfold eol. destruct s as [|c [|d s]]; cbn [Re.rmatch]; intros H.
  - by split.
  - destruct (Ascii.eqb c Py.nl) eqn:E; [|discriminate]. by split.
  - discriminate.
Qed.

Lemma eol_cases (s : string) :
  eol s = true -> s = "" \/ s = String Py.nl "".
Proof.
  destruct s as [|c [|d s]]; cbn; intros H; [by left | | discriminate].
  apply Ascii.eqb_eq in H as ->. by right.
Qed.

Lemma rmatch_chars_inv {A} (fl : Re.flags) (cs : Re.charset) (i : nat)
  (s : string) (caps : Re.captures)
  (k : nat -> string -> Re.captures -> option A) (res : A) :
  Re.rmatch fl (Re.RChars cs) i s caps k = Some res ->
  exists c s', s = String c s' /\ Re.char_ok fl cs c = true
               /\ k (S i) s' caps = Some res.
Proof.
  destruct s as [|c s']; [discriminate|]. rewrite rmatch_chars_cons.
  destruct (Re.char_ok fl cs c) eqn:E; [|discriminate].
  intros H. by exists c, s'.
Qed.

Lemma char_ok_single (a c : ascii) :
  Re.char_ok Re.no_flags [Re.CChar a] c = true -> c = a.
Proof.
  unfold Re.char_ok, Re.cs_mem. cbn [Re.IGNORECASE Re.no_flags existsb].
  rewrite orb_false_r. cbn [Re.item_mem]. intros H.
  by apply Ascii.eqb_eq in H.
Qed.

(** What a repetition of a character class hands to its continuation:
    the group spans untouched and the text after a run of the class. *)
Lemma repeat_class_inv {A} (fl : Re.flags) (cs : Re.charset) (lo : nat)
  (hi : option nat) (greedy : bool)
  (k : nat -> string -> Re.captures -> option A) :
  forall fuel count i s caps res,
    Re.repeat_loop (Re.rmatch fl (Re.RChars cs)) lo hi greedy k
      fuel count i s caps = Some res ->
    exists w s',
      s = w +:+ s' /\ all_chars (Re.char_ok fl cs) w = true
      /\ lo <= count + Py.len w
      /\ (forall h, hi = Some h -> count <= h -> count + Py.len w <= h)
      /\ k (i + Py.len w) s' caps = Some res.
Proof.
  induction fuel as [|f IH]; intros count i s caps res H;
    rewrite repeat_loop_eq in H; cbv zeta in H.
  all: set (stop := if Nat.leb lo count then k i s caps else None) in H.
  all: assert (Hstop : stop = Some res ->
         exists w s',
           s = w +:+ s' /\ all_chars (Re.char_ok fl cs) w = true
           /\ lo <= count + Py.len w
           /\ (forall h, hi = Some h -> count <= h -> count + Py.len w <= h)
           /\ k (i + Py.len w) s' caps = Some res)
    by (unfold stop; intros Hs;
        destruct (Nat.leb lo count) eqn:Hlo; [|discriminate];
        apply Nat.leb_le in Hlo;
        exists "", s; simpl; rewrite !Nat.add_0_r;
        repeat split; [lia | intros; lia | exact Hs]).
  - destruct greedy; [exact (Hstop H)|].
    destruct stop; [exact (Hstop H) | discriminate].
  - set (more := if Re.below count hi then _ else None) in H.
    assert (Hmore : more = Some res ->
      exists w s',
        s = w +:+ s' /\ all_chars (Re.char_ok fl cs) w = true
        /\ lo <= count + Py.len w
        /\ (forall h, hi = Some h -> count <= h -> count + Py.len w <= h)
        /\ k (i + Py.len w) s' caps = Some res).
    { unfold more. intros Hm.
      destruct (Re.below count hi) eqn:Hb; [|discriminate].
      apply rmatch_chars_inv in Hm as (c & s1 & -> & Hc & Hk).
      destruct (Nat.ltb count lo || Nat.ltb i (S i)); [|discriminate].
      apply IH in Hk as (w2 & s2 & -> & Hw2 & Hlo & Hhi & Hk).
      exists (String c w2), s2. rewrite append_cons. cbn [all_chars].
      rewrite Hc, Hw2.
      replace (i + Py.len (String c w2)) with (S i + Py.len w2)
        by (simpl; lia).
      repeat split; [simpl in *; lia| |exact Hk].
      intros h -> Hcount. unfold Re.below in Hb. apply Nat.ltb_lt in Hb.
      specialize (Hhi h eq_refl). simpl in *. lia. }
    destruct greedy.
    + destruct more; [exact (Hmore H) | exact (Hstop H)].
    + destruct stop; [exact (Hstop H) | exact (Hmore H)].
Qed.

Lemma char_ok_not_slash (c : ascii) :
  Re.char_ok Re.no_flags Arxiv.not_slash c = negb (Ascii.eqb c "/").
Proof. destruct c as [[] [] [] [] [] [] [] []]; reflexivity. Qed.

Lemma char_ok_digit (c : ascii) :
  Re.char_ok Re.no_flags [Re.CDigit] c = Py.isdecimal c.
Proof.
  unfold Re.char_ok, Re.cs_mem. cbn [Re.IGNORECASE Re.no_flags existsb].
  by rewrite orb_false_r.
Qed.

(** A match of [abs/([^/]+)$]: the text read, and the span of the
    group. *)
Lemma abs_match_inv {A} (i : nat) (s : string)
  (k : nat -> string -> Re.captures -> option A) (res : A) :
  Re.rmatch Re.no_flags Arxiv.abs_regex i s [] k = Some res ->
  exists w s',
    s = "abs/" +:+ w +:+ s' /\ w <> ""
    /\ all_chars (fun c => negb (Ascii.eqb c "/")) w = true
    /\ eol s' = true
    /\ k (i + 4 + Py.len w) s' [(1, (i + 4, i + 4 + Py.len w))] = Some res.
Proof.
  unfold Arxiv.abs_regex. intros H.
  rewrite rmatch_seq_eq in H.
  apply rmatch_chars_inv in H as (c1 & s1 & -> & ->%char_ok_single & H).
  rewrite rmatch_seq_eq in H.
  apply rmatch_chars_inv in H as (c2 & s2 & -> & ->%char_ok_single & H).
  rewrite rmatch_seq_eq in H.
  apply rmatch_chars_inv in H as (c3 & s3 & -> & ->%char_ok_single & H).
  rewrite rmatch_seq_eq in H.
  apply rmatch_chars_inv in H as (c4 & s4 & -> & ->%char_ok_single & H).
  rewrite rmatch_seq_eq, rmatch_group_eq, rmatch_repeat_eq in H.
  apply repeat_class_inv in H as (w & s' & -> & Hw & Hlo & _ & H).
  apply rmatch_eol_inv in H as [He H].
  exists w, s'. split; [reflexivity|]. split.
  { intros ->. simpl in Hlo. lia. }
  split.
  { by rewrite <- (all_chars_ext _ _ _ char_ok_not_slash). }
  split; [exact He|].
  replace (i + 4) with (S (S (S (S i)))) by lia. exact H.
Qed.

(** A successful search ends in a successful match at some offset. *)
Lemma search_from_inv (fl : Re.flags) (r : Re.regex) (text : string) :
  forall s i adv m,
    Re.search_from fl r text i s adv = Some m ->
    exists pre s1 adv',
      s = pre +:+ s1
      /\ Re.rmatch fl r (i + Py.len pre) s1 []
           (fun e _ cs =>
              if (adv' : bool) && Nat.eqb e (i + Py.len pre) then None
              else Some {| Re.m_string := text;
                           Re.m_start := i + Py.len pre;
                           Re.m_end := e; Re.m_groups := cs |}) = Some m.
Proof.
  induction s as [|c s IH]; intros i adv m H; rewrite search_from_eq in H.
  all: match type of H with
       | match ?x with _ => _ end = _ => destruct x as [m'|] eqn:E
       end.
  all: try discriminate.
  - exists "", "", adv. simpl. rewrite Nat.add_0_r.
    split; [done|]. by rewrite E.
  - exists "", (String c s), adv. simpl. rewrite Nat.add_0_r.
    split; [done|]. by rewrite E.
  - apply IH in H as (pre & s1 & adv' & -> & H).
    exists (String c pre), s1, adv'. rewrite append_cons.
    split; [done|].
    replace (i + Py.len (String c pre)) with (S i + Py.len pre)
      by (simpl; lia).
    exact H.
Qed.

Lemma drop_len_append (a b : string) : Py.drop (Py.len a) (a +:+ b) = b.
Proof. induction a as [|x a IH]; [reflexivity | exact IH]. Qed.

Lemma slice_middle (a w b : string) :
  Py.slice (Py.len a) (Py.len a + Py.len w) (a +:+ w +:+ b) = w.
Proof.
  unfold Py.slice. rewrite drop_len_append.
  replace (Py.len a + Py.len w - Py.len a) with (Py.len w) by lia.
  apply take_len_append.
Qed.

Lemma id_pattern_compile :
  Re.compile Arxiv.id_pattern
  = Some (Re.RSeq Re.RBol
            (Re.RSeq (Re.RRepeat (Re.RChars [Re.CDigit]) 4 (Some 4) true)
               (Re.RSeq (Re.RChars [Re.CChar "."])
                  (Re.RSeq
                     (Re.RRepeat (Re.RChars [Re.CDigit]) 5 (Some 5) true)
                     (Re.RSeq
                        (Re.RRepeat
                           (Re.RSeq (Re.RChars [Re.CChar "v"])
                              (Re.RRepeat (Re.RChars [Re.CDigit]) 1 None
                                 true))
                           0 (Some 1) true)
                        Re.REol))))).
Proof. vm_compute. reflexivity. Qed.

(** The shape of an identifier the validation accepts: four digits, a
    period, five digits, at most one version suffix and at most one
    newline. *)
Lemma id_match_inv (paper_id : string) (m : Re.Match) :
  Re.match_ Arxiv.id_pattern paper_id = Some m ->
  exists d4 d5 version e,
    paper_id = d4 +:+ "." +:+ d5 +:+ version +:+ e
    /\ (Py.len d4 = 4 /\ all_chars Py.isdecimal d4 = true)
    /\ (Py.len d5 = 5 /\ all_chars Py.isdecimal d5 = true)
    /\ (version = ""
        \/ exists ds, version = String "v" ds /\ ds <> ""
                      /\ all_chars Py.isdecimal ds = true)
    /\ eol e = true.
Proof.
  unfold Re.match_. rewrite id_pattern_compile. cbn [mbind option_bind].
  intros H.
  rewrite rmatch_seq_eq, rmatch_bol_eq, rmatch_seq_eq, rmatch_repeat_eq in H.
  apply repeat_class_inv in H as (d4 & s1 & -> & Hd4 & Hlo4 & Hhi4 & H).
  specialize (Hhi4 4 eq_refl ltac:(lia)).
  rewrite rmatch_seq_eq in H.
  apply rmatch_chars_inv in H as (c & s2 & -> & ->%char_ok_single & H).
  rewrite rmatch_seq_eq, rmatch_repeat_eq in H.
  apply repeat_class_inv in H as (d5 & s3 & -> & Hd5 & Hlo5 & Hhi5 & H).
  specialize (Hhi5 5 eq_refl ltac:(lia)).
  rewrite rmatch_seq_eq in H.
  apply rmatch_sound in H as (version & e & cs' & -> & HL & _ & H).
  apply rmatch_eol_inv in H as [He _].
  exists d4, d5, version, e.
  split; [reflexivity|].
  split; [split; [lia | by rewrite <- (all_chars_ext _ _ _ char_ok_digit)]|].
  split; [split; [lia | by rewrite <- (all_chars_ext _ _ _ char_ok_digit)]|].
  split; [|exact He].
  destruct HL as (n & _ & Hn & Hit). specialize (Hn 1 eq_refl).
  destruct n as [|[|n]]; [by left | right | lia].
  destruct Hit as (w1 & w2 & -> & HL & ->).
  destruct HL as (v1 & v2 & -> & (c & -> & ->%char_ok_single) & HL).
  destruct HL as (n & Hn1 & _ & Hit).
  apply iter_chars in Hit as [Hlen Hds].
  exists v2. rewrite append_empty_r. split; [reflexivity|].
  split; [destruct v2; [simpl in Hlen; lia | done]|].
  by rewrite <- (all_chars_ext _ _ _ char_ok_digit).
Qed.

Lemma digits_no_char (x : ascii) (s : string) :
  Py.isdecimal x = false -> all_chars Py.isdecimal s = true ->
  Py.existsb_chars (fun c => Ascii.eqb c x) s = false.
Proof.
  intros Hx. induction s as [|c s IH]; [reflexivity|]. cbn. intros H.
  apply andb_true_iff in H as [Hc Hs]. rewrite (IH Hs), orb_false_r.
  apply Ascii.eqb_neq. intros ->. congruence.
Qed.

Lemma contains_char_existsb (x : ascii) (s : string) :
  Py.contains (String x "") s = Py.existsb_chars (fun c => Ascii.eqb c x) s.
Proof.
  induction s as [|c s IH]; [reflexivity|].
  change (Py.contains (String x "") (String c s))
    with (Py.startswith (String x "") (String c s)
          || Py.contains (String x "") s).
  cbn. rewrite IH, andb_true_r. f_equal. apply Ascii.eqb_sym.
Qed.

Lemma before_first_append (x : ascii) (a b : string) :
  Py.existsb_chars (fun c => Ascii.eqb c x) a = false ->
  Arxiv.before_first x (a +:+ String x b) = a.
Proof.
  induction a as [|c a IH]; cbn [Py.existsb_chars].
  - intros _. rewrite append_empty_l. cbn [Arxiv.before_first].
    by rewrite Ascii.eqb_refl.
  - intros H. apply orb_false_iff in H as [Hc Ha].
    rewrite append_cons. cbn [Arxiv.before_first]. rewrite Hc.
    f_equal. by apply IH.
Qed.

Lemma eol_no_char (x : ascii) (e : string) :
  x <> Py.nl -> eol e = true ->
  Py.existsb_chars (fun c => Ascii.eqb c x) e = false.
Proof.
  intros Hx [-> | ->]%eol_cases; [reflexivity|].
  cbn [Py.existsb_chars]. rewrite orb_false_r.
  apply Ascii.eqb_neq. congruence.
Qed.

(** What [_format_pdf_url] read when it returns an address. *)
Lemma format_pdf_url_inv (arxiv_url url : string)
  (lg : list Arxiv.event) :
  Arxiv._format_pdf_url arxiv_url = (Some url, lg) ->
  exists pre d4 d5 version e s',
    arxiv_url
    = pre +:+ "abs/" +:+ (d4 +:+ "." +:+ d5 +:+ version +:+ e) +:+ s'
    /\ (Py.len d4 = 4 /\ all_chars Py.isdecimal d4 = true)
    /\ (Py.len d5 = 5 /\ all_chars Py.isdecimal d5 = true)
    /\ (version = ""
        \/ exists ds, version = String "v" ds /\ ds <> ""
                      /\ all_chars Py.isdecimal ds = true)
    /\ eol e = true /\ eol s' = true
    /\ url = "https://arxiv.org/pdf/" +:+ d4 +:+ "." +:+ d5
             +:+ (if version is EmptyString then e else "") +:+ ".pdf"
    /\ lg = [].
Proof.
  unfold Arxiv._format_pdf_url. intros H.
  destruct (Re.search_from _ _ _ _ _ _) as [m|] eqn:Hs; [|discriminate].
  destruct (Re.group m 1) as [paper_id|] eqn:Hg; [|discriminate].
  destruct (Re.match_ _ paper_id) as [m'|] eqn:Hm; [|discriminate].
  injection H as <- <-.
  apply search_from_inv in Hs as (pre & s1 & adv' & Hu & Hs).
  apply abs_match_inv in Hs as (w & s' & -> & Hne & Hw & He' & Hs).
  assert (Hm0 : m = {| Re.m_string := arxiv_url;
                       Re.m_start := 0 + Py.len pre;
                       Re.m_end := 0 + Py.len pre + 4 + Py.len w;
                       Re.m_groups := [(1, (0 + Py.len pre + 4,
                                            0 + Py.len pre + 4 + Py.len w))]
                    |}).
  { destruct (adv' && _); [discriminate|]. by injection Hs as <-. }
  assert (Hid : paper_id = w).
  { rewrite Hm0 in Hg. unfold Re.group, Re.span in Hg.
    cbn [Re.m_groups Re.lookup_group Nat.eqb mbind option_bind
         Re.m_string] in Hg.
    injection Hg as <-. rewrite Hu.
    replace (Py.len pre + 4) with (Py.len (pre +:+ "abs/"))
      by (rewrite len_append; simpl; lia).
    rewrite <- (append_assoc pre "abs/"). apply slice_middle. }
  subst paper_id.
  apply id_match_inv in Hm
    as (d4 & d5 & version & e & -> & Hd4 & Hd5 & Hv & He).
  exists pre, d4, d5, version, e, s'.
  split; [exact Hu|]. do 5 (split; [assumption|]).
  split; [|reflexivity].
  assert (Hnov : forall d, all_chars Py.isdecimal d = true ->
                 Py.existsb_chars (fun c => Ascii.eqb c "v") d = false)
    by (intros d; by apply digits_no_char).
  destruct Hv as [-> | (ds & -> & _ & Hds)].
  - rewrite contains_char_existsb, !existsb_chars_append.
    rewrite (Hnov d4), (Hnov d5) by (by destruct Hd4, Hd5).
    rewrite (eol_no_char "v" e ltac:(unfold Py.nl; discriminate) He).
    cbn [Py.existsb_chars orb].
    change (Ascii.eqb "." "v") with false. cbn [orb].
    by rewrite !append_assoc.
  - rewrite contains_char_existsb, !existsb_chars_append.
    cbn [Py.existsb_chars]. rewrite Ascii.eqb_refl, !orb_true_r.
    replace (d4 +:+ "." +:+ d5 +:+ String "v" ds +:+ e)
      with ((d4 +:+ "." +:+ d5) +:+ String "v" (ds +:+ e))
      by (by rewrite !append_assoc, append_cons).
    rewrite before_first_append.
    + by rewrite !append_assoc, append_empty_l.
    + rewrite !existsb_chars_append, (Hnov d4), (Hnov d5)
        by (by destruct Hd4, Hd5). reflexivity.
Qed.

Lemma digits_iff (n : nat) (s : string) :
  digits n s = true <-> Py.len s = n /\ all_chars Py.isdecimal s = true.
Proof. unfold digits. by rewrite andb_true_iff, Nat.eqb_eq. Qed.

(** X11. An address [_format_pdf_url] returns has the shape
    https://arxiv.org/pdf/NNNN.NNNNN.pdf, where "abs/NNNN.NNNNN" occurs
    in the entry address; the one exception the code leaves is a
    newline right after an identifier without version, which is carried
    into the address. Nothing is logged. *)
Theorem format_pdf_url_shape (arxiv_url url : string)
  (lg : list Arxiv.event) :
  Arxiv._format_pdf_url arxiv_url = (Some url, lg) ->
  exists d4 d5 e,
    digits 4 d4 = true /\ digits 5 d5 = true
    /\ (e = "" \/ e = String Py.nl "")
    /\ substring_of ("abs/" +:+ d4 +:+ "." +:+ d5 +:+ e) arxiv_url
    /\ url = "https://arxiv.org/pdf/" +:+ d4 +:+ "." +:+ d5 +:+ e +:+ ".pdf"
    /\ lg = [].
Proof.
  intros H.
  apply format_pdf_url_inv in H
    as (pre & d4 & d5 & version & e & s' & -> & Hd4 & Hd5 & Hv & He & _
        & -> & ->).
  apply digits_iff in Hd4, Hd5.
  destruct Hv as [-> | (ds & -> & _ & _)].
  - exists d4, d5, e. do 2 (split; [assumption|]).
    split; [by apply eol_cases|]. split; [|done].
    exists pre, s'. by rewrite !append_assoc.
  - exists d4, d5, "". do 2 (split; [assumption|]).
    split; [by left|]. split; [|done].
    exists pre, (String "v" ds +:+ e +:+ s').
    by rewrite !append_assoc.
Qed.

Lemma format_pdf_url_shape_witness :
  exists d4 d5 e,
    digits 4 d4 = true /\ digits 5 d5 = true
    /\ (e = "" \/ e = String Py.nl "")
    /\ substring_of ("abs/" +:+ d4 +:+ "." +:+ d5 +:+ e)
         "http://arxiv.org/abs/2101.00001v2"
    /\ "https://arxiv.org/pdf/2101.00001.pdf"
       = "https://arxiv.org/pdf/" +:+ d4 +:+ "." +:+ d5 +:+ e +:+ ".pdf"
    /\ @nil Arxiv.event = [].
Proof.
  apply (format_pdf_url_shape "http://arxiv.org/abs/2101.00001v2").
  vm_compute. reflexivity.
Defined.

Lemma append_sep_inj (x : ascii) (a a' d d' : string) :
  Py.existsb_chars (fun c => Ascii.eqb c x) d = false ->
  Py.existsb_chars (fun c => Ascii.eqb c x) d' = false ->
  a +:+ String x d = a' +:+ String x d' -> a = a' /\ d = d'.
Proof.
  intros Hd Hd'. revert a'. induction a as [|y a IH]; intros [|z a'] E;
    rewrite ?append_empty_l, ?append_cons in E.
  - by injection E as ->.
  - injection E as <- E. subst d.
    rewrite existsb_chars_append in Hd. cbn [Py.existsb_chars] in Hd.
    rewrite Ascii.eqb_refl in Hd.
    apply orb_false_iff in Hd as [_ Hd]. discriminate.
  - injection E as -> E. subst d'.
    rewrite existsb_chars_append in Hd'. cbn [Py.existsb_chars] in Hd'.
    rewrite Ascii.eqb_refl in Hd'.
    apply orb_false_iff in Hd' as [_ Hd']. discriminate.
  - injection E as -> E. destruct (IH a' E) as [-> ->]. done.
Qed.

Lemma all_chars_negb (f : ascii -> bool) (s : string) :
  all_chars (fun c => negb (f c)) s = negb (Py.existsb_chars f s).
Proof.
  induction s as [|c s IH]; [reflexivity|]. cbn.
  by rewrite IH, negb_orb.
Qed.

(** The search tries the offsets in turn: where the pattern fails at
    every offset of [pre], the search goes on behind [pre]. *)
Lemma search_from_first (fl : Re.flags) (r : Re.regex) (text : string)
  (s : string) :
  forall pre i,
    (forall p1 c p2 k (res : Re.Match),
        pre = p1 +:+ String c p2 ->
        Re.rmatch fl r (i + Py.len p1) (String c p2 +:+ s) [] k
        <> Some res) ->
    Re.search_from fl r text i (pre +:+ s) false
    = Re.search_from fl r text (i + Py.len pre) s false.
Proof.
  induction pre as [|c pre IH]; intros i Hfail.
  - simpl. by rewrite Nat.add_0_r.
  - rewrite append_cons, search_from_eq.
    match goal with
    | |- match ?x with _ => _ end = _ => destruct x as [m'|] eqn:E
    end.
    + exfalso. eapply (Hfail "" c pre); [reflexivity|].
      simpl. rewrite Nat.add_0_r, append_cons. exact E.
    + rewrite IH.
      * f_equal. simpl. lia.
      * intros p1 d p2 k res -> H.
        eapply (Hfail (String c p1) d p2); [by rewrite append_cons|].
        replace (i + Py.len (String c p1)) with (S i + Py.len p1)
          by (simpl; lia).
        exact H.
Qed.

(** A repetition of a character class with equal bounds reads exactly
    that many characters. *)
Lemma greedy_class_exact {A} (fl : Re.flags) (cs : Re.charset) (lo h : nat)
  (k : nat -> string -> Re.captures -> option A) (caps : Re.captures)
  (res : A) (s : string) :
  forall w fuel count i,
    all_chars (Re.char_ok fl cs) w = true ->
    count + Py.len w = h -> lo <= h -> Py.len w < fuel ->
    k (i + Py.len w) s caps = Some res ->
    Re.repeat_loop (Re.rmatch fl (Re.RChars cs)) lo (Some h) true k
      fuel count i (w +:+ s) caps = Some res.
Proof.
  induction w as [|c w IH]; intros fuel count i Hw Hh Hlo Hf Hk;
    rewrite repeat_loop_eq; cbv zeta.
  - simpl in Hh, Hk. rewrite Nat.add_0_r in Hk, Hh. subst count.
    cbn [Re.below]. rewrite Nat.ltb_irrefl.
    replace (Nat.leb lo h) with true by (symmetry; apply Nat.leb_le; lia).
    rewrite append_empty_l, Hk. destruct fuel; reflexivity.
  - destruct fuel as [|f]; [simpl in Hf; lia|].
    cbn in Hw. apply andb_true_iff in Hw as [Hc Hw].
    cbn [Re.below].
    replace (Nat.ltb count h) with true
      by (symmetry; apply Nat.ltb_lt; simpl in Hh; lia).
    rewrite append_cons, rmatch_chars_cons, Hc.
    replace (Nat.ltb i (S i)) with true by (symmetry; apply Nat.ltb_lt; lia).
    rewrite orb_true_r. rewrite (IH f (S count) (S i)); [reflexivity|..].
    + exact Hw.
    + simpl in Hh. lia.
    + exact Hlo.
    + simpl in Hf. unfold Py.len in *. lia.
    + simpl in Hk. rewrite <- Hk. f_equal. unfold Py.len. lia.
Qed.

Lemma is_version_cases (version : string) :
  is_version version = true ->
  version = ""
  \/ exists ds, version = String "v" ds /\ ds <> ""
                /\ all_chars Py.isdecimal ds = true.
Proof.
  destruct version as [|c ds]; [by left|]. cbn [is_version]. intros H.
  apply andb_true_iff in H as [H Hds]. apply andb_true_iff in H as [Hc Hlen].
  apply Ascii.eqb_eq in Hc as ->. apply Nat.ltb_lt in Hlen.
  right. exists ds. split; [done|]. split; [|done].
  intros ->. simpl in Hlen. lia.
Qed.

(** The optional version group, followed by the end of the text. *)
Lemma version_match {A} (i : nat) (version : string) (caps : Re.captures)
  (k : nat -> string -> Re.captures -> option A) (res : A) :
  is_version version = true ->
  k (i + Py.len version) "" caps = Some res ->
  Re.rmatch Re.no_flags
    (Re.RRepeat
       (Re.RSeq (Re.RChars [Re.CChar "v"])
          (Re.RRepeat (Re.RChars [Re.CDigit]) 1 None true))
       0 (Some 1) true) i version caps k = Some res.
Proof.
  intros [-> | (ds & -> & Hne & Hds)]%is_version_cases Hk.
  - simpl in Hk. rewrite Nat.add_0_r in Hk.
    rewrite rmatch_repeat_eq, repeat_loop_eq. cbv zeta.
    cbn [Py.len String.length Nat.add Re.below Nat.ltb Nat.leb].
    rewrite rmatch_seq_eq. cbn [Re.rmatch]. exact Hk.
  - rewrite rmatch_repeat_eq, repeat_loop_eq. cbv zeta.
    cbn [Nat.add Re.below]. change (Nat.ltb 0 1) with true. cbv iota.
    rewrite rmatch_seq_eq, rmatch_chars_cons.
    change (Re.char_ok Re.no_flags [Re.CChar "v"] "v") with true.
    cbv iota. rewrite rmatch_repeat_eq.
    erewrite (greedy_class_to_end Re.no_flags [Re.CDigit] 1 _ caps res);
      [reflexivity | | lia | | ].
    + by rewrite (all_chars_ext _ _ _ char_ok_digit).
    + destruct ds; [done | simpl; lia].
    + change (Nat.ltb 0 0) with false.
      replace (Nat.ltb i (S i + Py.len ds)) with true
        by (symmetry; apply Nat.ltb_lt; lia).
      cbn [orb]. rewrite repeat_loop_eq. cbv zeta.
      cbn [Py.len String.length Re.below].
      change (Nat.ltb 1 1) with false. change (Nat.leb 0 1) with true.
      cbv iota. rewrite <- Hk. f_equal. simpl. lia.
Qed.

Lemma decimal_not_slash (s : string) :
  all_chars Py.isdecimal s = true ->
  Py.existsb_chars (fun c => Ascii.eqb c "/") s = false.
Proof. by apply digits_no_char. Qed.

Lemma is_version_no_slash (version : string) :
  is_version version = true ->
  Py.existsb_chars (fun c => Ascii.eqb c "/") version = false.
Proof.
  intros [-> | (ds & -> & _ & Hds)]%is_version_cases; [reflexivity|].
  cbn [Py.existsb_chars]. by rewrite decimal_not_slash.
Qed.

Lemma id_match (d4 d5 version : string) :
  digits 4 d4 = true -> digits 5 d5 = true -> is_version version = true ->
  is_Some (Re.match_ Arxiv.id_pattern (d4 +:+ "." +:+ d5 +:+ version)).
Proof.
  intros [Hl4 Hd4]%digits_iff [Hl5 Hd5]%digits_iff Hv.
  unfold Re.match_. rewrite id_pattern_compile. cbn [mbind option_bind].
  rewrite rmatch_seq_eq, rmatch_bol_eq, rmatch_seq_eq, rmatch_repeat_eq.
  eexists. eapply greedy_class_exact.
  - by rewrite (all_chars_ext _ _ _ char_ok_digit).
  - lia.
  - lia.
  - rewrite len_append. lia.
  - rewrite append_cons, append_empty_l, rmatch_seq_eq, rmatch_chars_cons.
    change (Re.char_ok Re.no_flags [Re.CChar "."] ".") with true. cbv iota.
    rewrite rmatch_seq_eq, rmatch_repeat_eq.
    eapply greedy_class_exact.
    + by rewrite (all_chars_ext _ _ _ char_ok_digit).
    + lia.
    + lia.
    + rewrite len_append. lia.
    + rewrite rmatch_seq_eq. apply version_match; [exact Hv|].
      reflexivity.
Qed.

(** On a text that ends in "abs/" and an identifier without slash, the
    search finds the identifier as its group. *)
Lemma abs_search (text base id : string) :
  id <> "" -> Py.existsb_chars (fun c => Ascii.eqb c "/") id = false ->
  Re.search_from Re.no_flags Arxiv.abs_regex text 0
    (base +:+ "abs/" +:+ id) false
  = Some {| Re.m_string := text; Re.m_start := Py.len base;
            Re.m_end := Py.len base + 4 + Py.len id;
            Re.m_groups := [(1, (Py.len base + 4,
                                 Py.len base + 4 + Py.len id))] |}.
Proof.
  intros Hne Hid. rewrite search_from_first.
  - rewrite search_from_eq. cbn [Nat.add].
    set (k := fun e (_ : string) cs =>
                if false && Nat.eqb e (Py.len base) then None
                else Some {| Re.m_string := text; Re.m_start := Py.len base;
                             Re.m_end := e; Re.m_groups := cs |}).
    assert (E : Re.rmatch Re.no_flags Arxiv.abs_regex (Py.len base)
                  ("abs/" +:+ id) [] k
                = Re.repeat_loop
                    (Re.rmatch Re.no_flags (Re.RChars Arxiv.not_slash))
                    1 None true
                    (fun i' s' cs' =>
                       Re.rmatch Re.no_flags Re.REol i' s'
                         ((1, (S (S (S (S (Py.len base)))), i')) :: cs') k)
                    (S (1 + Py.len id)) 0 (S (S (S (S (Py.len base))))) id [])
      by reflexivity.
    rewrite E.
    erewrite greedy_class_to_end; [| | lia | | reflexivity].
    + cbv beta iota. do 3 f_equal; [lia|]. do 3 f_equal; lia.
    + rewrite (all_chars_ext _ _ _ char_ok_not_slash), all_chars_negb.
      by rewrite Hid.
    + destruct id; [done | simpl; lia].
  - intros p1 c p2 k res _ H.
    apply abs_match_inv in H as (w & s' & Heq & _ & Hw & He & _).
    rewrite all_chars_negb in Hw. apply negb_true_iff in Hw.
    assert (Heq' : (String c p2 +:+ "abs") +:+ String "/" id
                   = "abs" +:+ String "/" (w +:+ s'))
      by (rewrite append_assoc; exact Heq).
    apply append_sep_inj in Heq' as [Heq' _]; [|exact Hid|].
    + apply (f_equal Py.len) in Heq'. rewrite len_append in Heq'.
      simpl in Heq'. lia.
    + rewrite existsb_chars_append, Hw.
      by rewrite (eol_no_char "/" s' ltac:(unfold Py.nl; discriminate) He).
Qed.

Lemma slice_suffix (a w : string) :
  Py.slice (Py.len a) (Py.len a + Py.len w) (a +:+ w) = w.
Proof.
  unfold Py.slice. rewrite drop_len_append.
  replace (Py.len a + Py.len w - Py.len a) with (Py.len w) by lia.
  rewrite <- (append_empty_r w) at 2. apply take_len_append.
Qed.

(** X12. The address of an arXiv entry, whatever stands before "abs/",
    with an identifier of four digits, a period and five digits and an
    optional version suffix, is turned into the PDF address of that
    identifier without the version. *)
Theorem format_pdf_url_entry (base d4 d5 version : string) :
  digits 4 d4 = true -> digits 5 d5 = true -> is_version version = true ->
  Arxiv._format_pdf_url (base +:+ "abs/" +:+ d4 +:+ "." +:+ d5 +:+ version)
  = (Some ("https://arxiv.org/pdf/" +:+ d4 +:+ "." +:+ d5 +:+ ".pdf"), []).
Proof.
  intros H4 H5 Hv.
  destruct (id_match d4 d5 version H4 H5 Hv) as [m' Hm'].
  apply digits_iff in H4 as [Hl4 Hd4]. apply digits_iff in H5 as [Hl5 Hd5].
  set (id := d4 +:+ "." +:+ d5 +:+ version) in *.
  assert (Hne : id <> "").
  { unfold id. destruct d4; [simpl in Hl4; lia | done]. }
  assert (Hid : Py.existsb_chars (fun c => Ascii.eqb c "/") id = false).
  { unfold id.
    rewrite !existsb_chars_append, (decimal_not_slash d4 Hd4),
      (decimal_not_slash d5 Hd5), (is_version_no_slash version Hv).
    reflexivity. }
  unfold Arxiv._format_pdf_url. rewrite (abs_search _ base id Hne Hid).
  unfold Re.group, Re.span.
  cbn [Re.m_groups Re.lookup_group Nat.eqb mbind option_bind Re.m_string].
  replace (Py.len base + 4) with (Py.len (base +:+ "abs/"))
    by (rewrite len_append; simpl; lia).
  rewrite <- (append_assoc base "abs/" id), slice_suffix, Hm'.
  assert (Hnov : forall d, all_chars Py.isdecimal d = true ->
                 Py.existsb_chars (fun c => Ascii.eqb c "v") d = false)
    by (intros d; by apply digits_no_char).
  unfold id.
  apply is_version_cases in Hv as [-> | (ds & -> & _ & Hds)].
  - rewrite contains_char_existsb, !existsb_chars_append.
    rewrite (Hnov d4), (Hnov d5) by done. cbn [Py.existsb_chars orb].
    change (Ascii.eqb "." "v") with false. cbn [orb].
    by rewrite append_empty_r, !append_assoc.
  - rewrite contains_char_existsb, !existsb_chars_append.
    cbn [Py.existsb_chars]. rewrite Ascii.eqb_refl, !orb_true_r.
    replace (d4 +:+ "." +:+ d5 +:+ String "v" ds)
      with ((d4 +:+ "." +:+ d5) +:+ String "v" ds)
      by (by rewrite !append_assoc).
    rewrite before_first_append.
    + by rewrite !append_assoc.
    + rewrite !existsb_chars_append, (Hnov d4), (Hnov d5) by done.
      reflexivity.
Qed.

Lemma format_pdf_url_entry_witness :
  Arxiv._format_pdf_url
    ("http://arxiv.org/" +:+ "abs/" +:+ "2101" +:+ "." +:+ "00001" +:+ "v2")
  = (Some ("https://arxiv.org/pdf/" +:+ "2101" +:+ "." +:+ "00001"
           +:+ ".pdf"), []).
Proof. apply format_pdf_url_entry; reflexivity. Defined.

(** ** The search loop *)

Section ClientFacts.

Variable word_tokenize : string -> option (list string).
Variable stop_words : gset string.
Variable self_max_results : Z.
Variable date_filter_of : Z -> string + Z.
Variable arxiv_results : string -> Z -> Arxiv.feed.

Lemma paper_of_inv (date_filter : Z) (result : Arxiv.entry)
  (paper : Arxiv.paper_data) (ev : list Arxiv.event) :
  Arxiv.paper_of date_filter result = (Some paper, ev) ->
  (date_filter <= Arxiv.instant (Arxiv.published paper))%Z
  /\ Arxiv.utcoffset (Arxiv.published paper) <> None
  /\ Arxiv.arxiv_url paper = Arxiv.entry_id result
  /\ Arxiv._format_pdf_url (Arxiv.entry_id result)
     = (Some (Arxiv.pdf_url paper), []).
Proof.
  unfold Arxiv.paper_of. intros H.
  destruct (Z.ltb _ date_filter) eqn:Hlt; [discriminate|].
  apply Z.ltb_ge in Hlt.
  destruct (Arxiv._format_pdf_url _) as [[[|c url]|] ev'] eqn:Hf;
    try discriminate.
  injection H as <- <-. cbn [Arxiv.published Arxiv.arxiv_url Arxiv.pdf_url].
  split; [exact Hlt|]. split.
  { destruct (Arxiv.utcoffset (Arxiv.r_published result)) eqn:E;
      [by rewrite E | done]. }
  split; [reflexivity|].
  destruct (format_pdf_url_inv _ _ _ Hf)
    as (_ & _ & _ & _ & _ & _ & _ & _ & _ & _ & _ & _ & _ & ->).
  reflexivity.
Qed.

(** What the loop keeps: the papers so far stay, each paper added comes
    from a result of the feed, and the list does not grow past the cap. *)
Lemma collect_inv (P : Arxiv.paper_data -> Prop) (date_filter limit : Z) :
  forall f results tr rs tr',
    (forall result paper ev,
        Arxiv.paper_of date_filter result = (Some paper, ev) -> P paper) ->
    Forall P results ->
    (results = [] \/ (Z.of_nat (length results) < limit)%Z) ->
    Arxiv.collect date_filter limit f results tr = (Arxiv.Finished rs, tr') ->
    Forall P rs /\ length rs <= cap limit.
Proof.
  induction f as [|result rest IH|message|message];
    intros results tr rs tr' HP Hrs Hlen H; cbn [Arxiv.collect] in H;
    try discriminate.
  - injection H as <- <-. split; [exact Hrs|]. unfold cap.
    destruct Hlen as [-> | Hlen]; simpl; lia.
  - destruct (Arxiv.paper_of date_filter result) as [[paper|] ev] eqn:Hp.
    + cbv zeta in H.
      assert (Hrs' : Forall P (results ++ [paper])).
      { apply Forall_app. split; [exact Hrs|].
        apply Forall_singleton. by eapply HP. }
      destruct (Z.leb limit _) eqn:Hle.
      * injection H as <- <-. split; [exact Hrs'|]. unfold cap.
        rewrite length_app. simpl.
        destruct Hlen as [-> | Hlen]; simpl; lia.
      * apply Z.leb_gt in Hle.
        eapply IH; [exact HP | exact Hrs' | by right | exact H].
    + eapply IH; [exact HP | exact Hrs | exact Hlen | exact H].
Qed.

(** On a feed that ends without an exception the loop returns the first
    papers of the feed, up to the cap. *)
Lemma collect_feed_of (date_filter limit : Z) :
  forall l results tr,
    (results = [] \/ (Z.of_nat (length results) < limit)%Z) ->
    (Arxiv.collect date_filter limit (feed_of l) results tr).1
    = Arxiv.Finished
        (take (cap limit)
           (results ++ omap (fun r => (Arxiv.paper_of date_filter r).1) l)).
Proof.
  induction l as [|result l IH]; intros results tr Hlen;
    cbn [feed_of Arxiv.collect omap list_omap].
  - cbn [fst]. f_equal. rewrite app_nil_r. symmetry. apply take_ge.
    unfold cap. destruct Hlen as [-> | Hlen]; simpl; lia.
  - destruct (Arxiv.paper_of date_filter result) as [[paper|] ev] eqn:Hp;
      cbn [fst]; [|by apply IH].
    cbv zeta. destruct (Z.leb limit _) eqn:Hle.
    + cbn [fst]. f_equal.
      rewrite (cons_middle paper results (omap _ l)), (assoc_L (++)).
      replace (cap limit) with (length (results ++ [paper])).
      * by rewrite take_app_length.
      * unfold cap. apply Z.leb_le in Hle. rewrite length_app in *.
        simpl in *. destruct Hlen as [-> | Hlen]; simpl in *; lia.
    + apply Z.leb_gt in Hle. rewrite IH by (by right).
      by rewrite (cons_middle paper results (omap _ l)), (assoc_L (++)).
Qed.

End ClientFacts.

Lemma all_chars_impl (f g : ascii -> bool) (s : string) :
  (forall c, f c = true -> g c = true) ->
  all_chars f s = true -> all_chars g s = true.
Proof.
  intros H. induction s as [|c s IH]; [done|]. cbn.
  intros [Hc Hs]%andb_true_iff. by rewrite (H c Hc), IH.
Qed.

Lemma all_chars_map_lower (f : ascii -> bool) (s : string) :
  all_chars f (Py.lower s) = all_chars (fun c => f (Py.lower_char c)) s.
Proof.
  unfold Py.lower. induction s as [|c s IH]; [reflexivity|]. cbn.
  by rewrite IH.
Qed.

Lemma contains_substring (sub s : string) :
  Py.contains sub s = true -> substring_of sub s.
Proof.
  induction s as [|c s IH].
  - destruct sub; [|discriminate]. intros _. by exists "", "".
  - change (Py.contains sub (String c s))
      with (Py.startswith sub (String c s) || Py.contains sub s).
    intros [H | H]%orb_true_iff.
    + destruct (startswith_append _ _ H) as [rest ->].
      by exists "", rest.
    + destruct (IH H) as (pre & post & ->).
      exists (String c pre), post. by rewrite append_cons.
Qed.

(** The characters of the addresses [_format_pdf_url] builds. *)
Lemma pdf_address_chars (d4 d5 : string) :
  all_chars Py.isdecimal d4 = true -> all_chars Py.isdecimal d5 = true ->
  forall f : ascii -> bool,
    (forall c, Py.isdecimal c = true -> f c = true) ->
    all_chars f "https://arxiv.org/pdf/.pdf" = true ->
    all_chars f ("https://arxiv.org/pdf/" +:+ d4 +:+ "." +:+ d5 +:+ ".pdf")
    = true.
Proof.
  intros H4 H5 f Hf Hlit. rewrite !all_chars_append.
  rewrite (all_chars_impl _ f d4 Hf H4), (all_chars_impl _ f d5 Hf H5).
  change "https://arxiv.org/pdf/.pdf"
    with ("https://arxiv.org/pdf/" +:+ ".pdf") in Hlit.
  rewrite all_chars_append in Hlit.
  apply andb_true_iff in Hlit as [-> Hpdf]. rewrite Hpdf.
  cbn [all_chars] in Hpdf |- *.
  apply andb_true_iff in Hpdf as [-> _]. reflexivity.
Qed.

(** An address [_format_pdf_url] built from an entry address without
    newline is read back unchanged by the download branch of [run]. *)
Lemma formatted_url_run {SearchResult PaperResult : Type}
  (search_papers :
     string -> option Z -> list log_entry -> SearchResult * list log_entry)
  (process_paper : string -> list log_entry -> PaperResult * list log_entry)
  (current_year : Z) (arxiv_url url : string) (ev : list Arxiv.event)
  (max_results : option Z) (lg : list log_entry) :
  Arxiv._format_pdf_url arxiv_url = (Some url, ev) ->
  Py.existsb_chars (fun c => Ascii.eqb c Py.nl) arxiv_url = false ->
  Agent.run _ _ search_papers process_paper current_year
    (download_task url) max_results lg
  = let '(r, lg') :=
      process_paper url
        (Agent.info ("Executing paper processing task for URL: " +:+ url)
           lg) in
    (Agent.FromPaper _ _ r, lg').
Proof.
  intros Hf Hnl.
  apply format_pdf_url_inv in Hf
    as (pre & d4 & d5 & version & e & s' & Hu & [_ H4] & [_ H5] & Hv & He
        & _ & Hurl & _).
  assert (Hurl' : url = "https://arxiv.org/pdf/" +:+ d4 +:+ "." +:+ d5
                        +:+ ".pdf").
  { rewrite Hurl. destruct version as [|c version]; [|reflexivity].
    apply eol_cases in He as [-> | ->]; [reflexivity|].
    rewrite Hu, !existsb_chars_append in Hnl.
    cbn [Py.existsb_chars] in Hnl. rewrite Ascii.eqb_refl in Hnl.
    rewrite ?orb_true_r, ?orb_true_l in Hnl. discriminate. }
  clear Hurl. subst url.
  apply run_paper_url.
  - reflexivity.
  - apply pdf_address_chars; [done | done | | reflexivity].
    intros c Hc. destruct c as [[] [] [] [] [] [] [] []]; by vm_compute in Hc.
  - rewrite <- !append_assoc. rewrite rstrip_chars_append; [|discriminate].
    reflexivity.
  - destruct (Py.contains _ _) eqn:E; [|reflexivity]. exfalso.
    apply contains_substring in E.
    apply (existsb_chars_substring (fun c => Ascii.eqb c "e")) in E;
      [|reflexivity].
    assert (Hno : all_chars (fun c => negb (Ascii.eqb c "e"))
                    (Py.lower ("https://arxiv.org/pdf/" +:+ d4 +:+ "."
                               +:+ d5 +:+ ".pdf")) = true).
    { rewrite all_chars_map_lower.
      apply pdf_address_chars; [done | done | | reflexivity].
      intros c Hc.
      destruct c as [[] [] [] [] [] [] [] []]; by vm_compute in Hc. }
    rewrite all_chars_negb, E in Hno. discriminate.
Qed.

Section ClientProperties.

Variable word_tokenize : string -> option (list string).
Variable stop_words : gset string.
Variable self_max_results : Z.
Variable date_filter_of : Z -> string + Z.
Variable arxiv_results : string -> Z -> Arxiv.feed.

(** How [search] ends: with an empty list, or with the list the loop
    finished with and no error. *)
Lemma search_inv (query : string) (max_results : option Z) (days_back : Z) :
  let r := (Arxiv.search word_tokenize stop_words self_max_results
             date_filter_of arxiv_results query max_results days_back).1 in
  Arxiv.results r = []
  \/ (Arxiv.error r = None
      /\ exists date_filter sent tr tr',
           date_filter_of days_back = inr date_filter
           /\ Arxiv.collect date_filter
                (Arxiv.or_int max_results self_max_results)
                (arxiv_results sent
                   (Arxiv.or_int max_results self_max_results)) [] tr
              = (Arxiv.Finished (Arxiv.results r), tr')).
Proof.
  cbv zeta. unfold Arxiv.search.
  case_bool_decide; [by left|].
  destruct (if Nat.ltb 200 (Py.len query) then _ else _) as [query' ev].
  destruct (date_filter_of days_back) as [message | date_filter] eqn:Hd;
    [by left|].
  destruct (Arxiv.collect _ _ _ _ _) as [[rs | message | message] tr] eqn:Hc;
    cbn [fst Arxiv.results Arxiv.error]; [|by left ..].
  right. split; [reflexivity|]. by eexists date_filter, query', _, tr.
Qed.

(** X13. Whatever the arXiv API yields, every paper [search] returns was
    published at or after the date filter, carries a timezone-aware
    date, and has as pdf_url the address [_format_pdf_url] builds from
    its arxiv_url; the list is no longer than the limit (one when the
    limit is below one), and it is empty when an error is reported. *)
Theorem search_results_sound (query : string) (max_results : option Z)
  (days_back : Z) :
  let r := (Arxiv.search word_tokenize stop_words self_max_results
             date_filter_of arxiv_results query max_results days_back).1 in
  Forall (fun paper =>
            exists date_filter,
              date_filter_of days_back = inr date_filter
              /\ (date_filter <= Arxiv.instant (Arxiv.published paper))%Z
              /\ Arxiv.utcoffset (Arxiv.published paper) <> None
              /\ Arxiv._format_pdf_url (Arxiv.arxiv_url paper)
                 = (Some (Arxiv.pdf_url paper), []))
         (Arxiv.results r)
  /\ length (Arxiv.results r)
     <= cap (Arxiv.or_int max_results self_max_results)
  /\ (Arxiv.error r <> None -> Arxiv.results r = []).
Proof.
  cbv zeta.
  destruct (search_inv query max_results days_back)
    as [-> | (He & date_filter & sent & tr & tr' & Hd & Hc)].
  { by repeat split; [constructor | simpl; lia]. }
  eapply (collect_inv
            (fun paper =>
               (date_filter <= Arxiv.instant (Arxiv.published paper))%Z
               /\ Arxiv.utcoffset (Arxiv.published paper) <> None
               /\ Arxiv._format_pdf_url (Arxiv.arxiv_url paper)
                  = (Some (Arxiv.pdf_url paper), [])))
    in Hc as [HP Hlen]; [| | constructor | by left].
  - split; [|split; [exact Hlen | by rewrite He]].
    eapply Forall_impl; [exact HP|]. intros paper (H1 & H2 & H3).
    by exists date_filter.
  - intros result paper ev' Hp.
    apply paper_of_inv in Hp as (H1 & H2 & H3 & H4).
    by rewrite H3.
Qed.

(** X14. When the feed of the arXiv API ends without an exception,
    [search] returns, in the order of the feed, the first results that
    pass the date filter and have an address [_format_pdf_url] accepts,
    up to the limit (one when the limit is below one), and no error. *)
Theorem search_first_papers (query : string) (max_results : option Z)
  (days_back date_filter : Z) (l : list Arxiv.entry) :
  query <> "" ->
  date_filter_of days_back = inr date_filter ->
  arxiv_results
    (if Nat.ltb 200 (Py.len query)
     then (Arxiv._preprocess_query word_tokenize stop_words query 10).1
     else query)
    (Arxiv.or_int max_results self_max_results) = feed_of l ->
  (Arxiv.search word_tokenize stop_words self_max_results date_filter_of
     arxiv_results query max_results days_back).1
  = {| Arxiv.results :=
         take (cap (Arxiv.or_int max_results self_max_results))
           (omap (fun r => (Arxiv.paper_of date_filter r).1) l);
       Arxiv.error := None |}.
Proof.
  intros Hq Hd Hfeed. unfold Arxiv.search.
  rewrite bool_decide_eq_false_2 by exact Hq.
  destruct (Nat.ltb 200 (Py.len query)).
  - destruct (Arxiv._preprocess_query _ _ _ _) as [query' ev].
    cbn [fst] in Hfeed. rewrite Hd, Hfeed.
    pose proof (collect_feed_of date_filter
                  (Arxiv.or_int max_results self_max_results) l []
                  ([Arxiv.PrintQuery query; Arxiv.RateLimitCheck] ++ ev)
                  (or_introl eq_refl)) as Hc.
    destruct (Arxiv.collect _ _ _ _ _) as [le tr].
    cbn [fst] in Hc. by rewrite Hc.
  - rewrite Hd, Hfeed.
    pose proof (collect_feed_of date_filter
                  (Arxiv.or_int max_results self_max_results) l []
                  ([Arxiv.PrintQuery query; Arxiv.RateLimitCheck] ++ [])
                  (or_introl eq_refl)) as Hc.
    destruct (Arxiv.collect _ _ _ _ _) as [le tr].
    cbn [fst] in Hc. by rewrite Hc.
Qed.

(** X15. From the search to the download: for every paper [search]
    returns whose arxiv_url has no newline, the instruction [main]
    builds from its pdf_url makes [run] call [process_paper] with that
    pdf_url, and [run] returns that call's result. *)
Theorem search_results_fetched {SearchResult PaperResult : Type}
  (search_papers :
     string -> option Z -> list log_entry -> SearchResult * list log_entry)
  (process_paper : string -> list log_entry -> PaperResult * list log_entry)
  (current_year : Z) (query : string) (max_results : option Z)
  (days_back : Z) (lg : list log_entry) :
  Forall (fun paper =>
            Py.existsb_chars (fun c => Ascii.eqb c Py.nl)
              (Arxiv.arxiv_url paper) = false ->
            Agent.run _ _ search_papers process_paper current_year
              (download_task (Arxiv.pdf_url paper)) None lg
            = let '(r, lg') :=
                process_paper (Arxiv.pdf_url paper)
                  (Agent.info
                     ("Executing paper processing task for URL: "
                      +:+ Arxiv.pdf_url paper) lg) in
              (Agent.FromPaper _ _ r, lg'))
         (Arxiv.results
            (Arxiv.search word_tokenize stop_words self_max_results
               date_filter_of arxiv_results query max_results days_back).1).
Proof.
  destruct (search_inv query max_results days_back)
    as [-> | (_ & date_filter & sent & tr & tr' & _ & Hc)]; [constructor|].
  eapply (collect_inv
            (fun paper =>
               Arxiv._format_pdf_url (Arxiv.arxiv_url paper)
               = (Some (Arxiv.pdf_url paper), [])))
    in Hc as [HP _]; [| | constructor | by left].
  - eapply Forall_impl; [exact HP|]. intros paper Hf Hnl.
    exact (formatted_url_run search_papers process_paper current_year _ _ _
             None lg Hf Hnl).
  - intros result paper ev' Hp.
    apply paper_of_inv in Hp as (_ & _ & H3 & H4). by rewrite H3.
Qed.

End ClientProperties.

Lemma search_first_papers_witness :
  (Arxiv.search (fun _ => None) ∅ 2 (fun _ => inr 10%Z)
     (fun _ _ => feed_of sample_entries) "dark matter" None 1095).1
  = {| Arxiv.results :=
         take (cap (Arxiv.or_int None 2))
           (omap (fun r => (Arxiv.paper_of 10 r).1) sample_entries);
       Arxiv.error := None |}.
Proof.
  apply (search_first_papers (fun _ => None) ∅ 2 (fun _ => inr 10%Z)
           (fun _ _ => feed_of sample_entries) "dark matter" None 1095 10
           sample_entries).
  - discriminate.
  - reflexivity.
  - reflexivity.
Defined.

(** ** The key terms of a long query *)

Lemma occurrences_app (t : string) (l1 l2 : list string) :
  occurrences t (l1 ++ l2) = occurrences t l1 + occurrences t l2.
Proof. unfold occurrences. by rewrite List.filter_app, length_app. Qed.

Lemma occurrences_pos (t : string) (l : list string) :
  0 < occurrences t l <-> t ∈ l.
Proof.
  unfold occurrences. induction l as [|x l IH]; simpl.
  - split; [lia | by intros ?%elem_of_nil].
  - rewrite elem_of_cons. destruct (String.eqb t x) eqn:E.
    + apply String.eqb_eq in E as ->. simpl. split; [by left | lia].
    + apply String.eqb_neq in E. rewrite IH. split; [by right|].
      by intros [? | ?].
Qed.

Lemma occurrences_filter (f : string -> bool) (t : string)
  (l : list string) :
  occurrences t (List.filter f l)
  = if f t then occurrences t l else 0.
Proof.
  unfold occurrences. induction l as [|x l IH]; simpl.
  - by destruct (f t).
  - destruct (f x) eqn:Hx; simpl.
    + destruct (String.eqb t x) eqn:E; simpl.
      * apply String.eqb_eq in E as ->. rewrite Hx in *. by rewrite IH.
      * exact IH.
    + destruct (String.eqb t x) eqn:E; simpl; [|exact IH].
      apply String.eqb_eq in E as ->. rewrite Hx in *. exact IH.
Qed.

Lemma count_in_add (t x : string) (acc : list (string * nat)) :
  count_in t (Arxiv.count_add x acc)
  = count_in t acc + (if String.eqb x t then 1 else 0).
Proof.
  induction acc as [|[u n] acc IH]; cbn [Arxiv.count_add count_in].
  - destruct (String.eqb x t); reflexivity.
  - destruct (String.eqb u x) eqn:Eux; cbn [count_in].
    + apply String.eqb_eq in Eux as ->.
      destruct (String.eqb x t); lia.
    + destruct (String.eqb u t) eqn:Eut; [|exact IH].
      apply String.eqb_eq in Eut as ->. rewrite String.eqb_sym, Eux. lia.
Qed.

Lemma count_add_keys (x : string) (acc : list (string * nat)) :
  (Arxiv.count_add x acc).*1
  = acc.*1 ++ (if bool_decide (x ∈ acc.*1) then [] else [x]).
Proof.
  induction acc as [|[u n] acc IH]; cbn [Arxiv.count_add].
  - rewrite bool_decide_eq_false_2 by apply not_elem_of_nil. reflexivity.
  - destruct (String.eqb u x) eqn:Eux.
    + apply String.eqb_eq in Eux as ->. cbn [fmap list_fmap fst].
      rewrite bool_decide_eq_true_2 by apply list_elem_of_here.
      by rewrite app_nil_r.
    + apply String.eqb_neq in Eux. cbn [fmap list_fmap fst].
      change (list_fmap _ _ fst ?l) with (l.*1). rewrite IH. f_equal.
      case_bool_decide as H1; case_bool_decide as H2; try reflexivity.
      * exfalso. apply H2. by right.
      * exfalso. apply elem_of_cons in H2 as [H2 | H2]; [congruence|done].
Qed.

Lemma count_add_pos (x : string) (acc : list (string * nat)) :
  Forall (fun p => 0 < p.2) acc ->
  Forall (fun p => 0 < p.2) (Arxiv.count_add x acc).
Proof.
  induction acc as [|[u n] acc IH]; cbn [Arxiv.count_add]; intros H.
  - repeat constructor.
  - apply Forall_cons in H as [Hn H].
    destruct (String.eqb u x); constructor; simpl in *; auto; lia.
Qed.

(** What [Counter] holds: distinct keys, the tokens of the list, each
    with the number of its occurrences. *)
Lemma Counter_spec (l : list string) :
  NoDup (Arxiv.Counter l).*1
  /\ Forall (fun p => 0 < p.2) (Arxiv.Counter l)
  /\ (forall t, t ∈ (Arxiv.Counter l).*1 <-> t ∈ l)
  /\ (forall t, count_in t (Arxiv.Counter l) = occurrences t l).
Proof.
  unfold Arxiv.Counter.
  induction l as [|x l IH] using rev_ind.
  - repeat split; try constructor; by intros ?%elem_of_nil.
  - rewrite foldl_app. cbn [foldl].
    destruct IH as (Hnd & Hpos & Hkeys & Hcount).
    set (acc := foldl _ [] l) in *.
    split; [|split; [|split]].
    + rewrite count_add_keys. case_bool_decide as Hx.
      * by rewrite app_nil_r.
      * apply NoDup_app. split; [exact Hnd|]. split; [|apply NoDup_singleton].
        intros y Hy ->%list_elem_of_singleton. done.
    + by apply count_add_pos.
    + intros t. rewrite count_add_keys, !elem_of_app, Hkeys.
      case_bool_decide as Hx.
      * rewrite elem_of_nil, list_elem_of_singleton.
        apply Hkeys in Hx. split; [by intros [? | []]; left|].
        intros [? | ->]; by left.
      * by rewrite list_elem_of_singleton.
    + intros t. rewrite count_in_add, Hcount, occurrences_app.
      f_equal. unfold occurrences. simpl. rewrite String.eqb_sym.
      by destruct (String.eqb t x).
Qed.

Lemma count_in_elem (t : string) (n : nat) (acc : list (string * nat)) :
  NoDup acc.*1 -> (t, n) ∈ acc -> count_in t acc = n.
Proof.
  induction acc as [|[u m] acc IH]; [by intros _ ?%elem_of_nil|].
  cbn [fmap list_fmap fst count_in]. intros [Hu Hnd]%NoDup_cons H.
  apply elem_of_cons in H as [H | H].
  - injection H as -> ->. by rewrite String.eqb_refl.
  - destruct (String.eqb u t) eqn:E; [|by apply IH].
    apply String.eqb_eq in E as ->. exfalso. apply Hu.
    apply list_elem_of_fmap. by exists (t, n).
Qed.

Lemma descending_cons (x : string * nat) (l : list (string * nat)) :
  descending (x :: l) <-> (forall y, y ∈ l -> y.2 <= x.2) /\ descending l.
Proof.
  unfold descending. split.
  - intros H. split.
    + intros y Hy. by apply (H [] l x y).
    + intros a b x' y -> Hy. by apply (H (x :: a) b x' y).
  - intros [H1 H2] a b x' y E Hy. destruct a as [|z a]; simpl in E.
    + injection E as <- <-. by apply H1.
    + injection E as <- ->. by apply (H2 a b x' y).
Qed.

Lemma insert_desc_perm (x : string * nat) (l : list (string * nat)) :
  Arxiv.insert_desc x l ≡ₚ x :: l.
Proof.
  induction l as [|y l IH]; cbn [Arxiv.insert_desc]; [done|].
  destruct (Nat.ltb y.2 x.2); [done|]. rewrite IH. apply Permutation_swap.
Qed.

Lemma insert_desc_descending (x : string * nat) (l : list (string * nat)) :
  descending l -> descending (Arxiv.insert_desc x l).
Proof.
  induction l as [|y l IH]; cbn [Arxiv.insert_desc]; intros H.
  - apply descending_cons. split; [by intros ? ?%elem_of_nil|exact H].
  - destruct (Nat.ltb y.2 x.2) eqn:E.
    + apply Nat.ltb_lt in E. apply descending_cons. split; [|exact H].
      apply descending_cons in H as [H _].
      intros z [-> | Hz]%elem_of_cons; [lia|]. specialize (H z Hz). lia.
    + apply Nat.ltb_ge in E. apply descending_cons in H as [H1 H2].
      apply descending_cons. split; [|by apply IH].
      intros z Hz. rewrite insert_desc_perm in Hz.
      apply elem_of_cons in Hz as [-> | Hz]; [exact E | by apply H1].
Qed.

Lemma sorted_desc_spec (l : list (string * nat)) :
  Arxiv.sorted_desc l ≡ₚ l /\ descending (Arxiv.sorted_desc l).
Proof.
  unfold Arxiv.sorted_desc.
  induction l as [|x l [IH1 IH2]] using rev_ind.
  - split; [done|]. intros [] ? ? ? ?; discriminate.
  - rewrite foldl_app. cbn [foldl]. split.
    + rewrite insert_desc_perm, IH1. by rewrite Permutation_app_comm.
    + by apply insert_desc_descending.
Qed.

Section Terms.

Variable stop_words : gset string.

Lemma keep_token_spec (t : string) :
  Arxiv.keep_token stop_words t = true
  <-> (t ∉ stop_words) /\ Arxiv.isalnum t = true /\ 2 < Py.len t.
Proof.
  unfold Arxiv.keep_token.
  rewrite !andb_true_iff, bool_decide_eq_true, Nat.ltb_lt. tauto.
Qed.

(** The key terms are distinct, at most [max_terms], pass the filters,
    and no token left out occurs more often than one kept. *)
Lemma key_terms_spec (tokens : list string) (max_terms : Z) :
  let key_terms := Arxiv.key_terms_of stop_words tokens max_terms in
  NoDup key_terms
  /\ (Z.of_nat (length key_terms) <= Z.max 0 max_terms)%Z
  /\ Forall (fun t => t ∈ tokens /\ Arxiv.keep_token stop_words t = true)
       key_terms
  /\ (forall t u,
        t ∈ key_terms -> u ∈ tokens ->
        Arxiv.keep_token stop_words u = true -> u ∉ key_terms ->
        occurrences u tokens <= occurrences t tokens).
Proof.
  cbv zeta. unfold Arxiv.key_terms_of, Arxiv.most_common.
  set (F := List.filter (Arxiv.keep_token stop_words) tokens).
  destruct (Counter_spec F) as (Hnd & _ & Hkeys & Hcount).
  destruct (sorted_desc_spec (Arxiv.Counter F)) as [Hperm Hdesc].
  set (srt := Arxiv.sorted_desc (Arxiv.Counter F)) in *.
  set (k := Z.to_nat max_terms).
  assert (HndS : NoDup (srt.*1)) by (by rewrite Hperm).
  assert (HF : forall t, t ∈ F <-> t ∈ tokens
                                   /\ Arxiv.keep_token stop_words t = true).
  { intros t. unfold F. rewrite !list_elem_of_In, List.filter_In. tauto. }
  assert (Hsub : forall p, p ∈ take k srt -> p ∈ srt).
  { intros p Hp. rewrite <- (firstn_skipn k srt). apply elem_of_app. by left. }
  assert (Hocc : forall t n, (t, n) ∈ srt -> n = occurrences t F).
  { intros t n Ht. rewrite Hperm in Ht.
    by rewrite <- Hcount, (count_in_elem t n _ Hnd Ht). }
  split; [|split; [|split]].
  - rewrite <- (firstn_skipn k srt), fmap_app in HndS.
    by apply NoDup_app in HndS as [HndS _].
  - rewrite length_fmap, length_take. lia.
  - apply Forall_forall. intros t (p & -> & Hp)%list_elem_of_fmap.
    apply HF, Hkeys. rewrite <- Hperm. apply list_elem_of_fmap.
    exists p. split; [reflexivity | by apply Hsub].
  - intros t u (p & -> & Hp)%list_elem_of_fmap Hu Hkeep Hnot.
    destruct p as [t n]. cbn [fst].
    assert (HuF : u ∈ F) by (by apply HF).
    assert (HuS : (u, occurrences u F) ∈ srt).
    { apply Hkeys in HuF. rewrite <- Hperm in HuF.
      apply list_elem_of_fmap in HuF as ([u' m] & Hu' & Hm).
      cbn [fst] in Hu'. subst u'. by rewrite <- (Hocc _ _ Hm). }
    assert (Ht : n = occurrences t F) by (by apply Hocc, Hsub).
    assert (Htk : Arxiv.keep_token stop_words t = true).
    { apply HF, Hkeys. rewrite <- Hperm. apply list_elem_of_fmap.
      exists (t, n). split; [reflexivity | by apply Hsub]. }
    unfold F in Ht. rewrite occurrences_filter, Htk in Ht.
    pose proof (occurrences_filter (Arxiv.keep_token stop_words) u tokens)
      as Hou. rewrite Hkeep in Hou. fold F in Hou.
    rewrite <- Hou, <- Ht.
    apply list_elem_of_split in Hp as (a & b & Hab).
    rewrite <- (firstn_skipn k srt) in HuS, Hdesc. rewrite Hab in HuS, Hdesc.
    rewrite <- (assoc_L (++)) in Hdesc. cbn [app] in Hdesc.
    apply (Hdesc a (b ++ drop k srt) (t, n) (u, occurrences u F));
      [reflexivity|].
    rewrite <- (assoc_L (++)) in HuS. cbn [app] in HuS.
    apply elem_of_app in HuS as [HuS | HuS].
    + exfalso. apply Hnot. apply list_elem_of_fmap.
      exists (u, occurrences u F). split; [reflexivity|].
      rewrite Hab. apply elem_of_app. by left.
    + apply elem_of_cons in HuS as [HuS | HuS]; [|exact HuS].
      exfalso. apply Hnot. apply list_elem_of_fmap.
      exists (u, occurrences u F). split; [reflexivity|].
      rewrite Hab, HuS. apply elem_of_app. right. apply list_elem_of_here.
Qed.

End Terms.

(** X16. For a query of more than 200 characters that the tokenizer
    accepts, [_preprocess_query] returns key terms joined by " AND ":
    the terms are distinct, at most [max_terms], each a token of the
    query in lower case that is no stop word, alphanumeric and longer
    than two characters; and no such token that was left out occurs
    more often than a term that was kept. *)
Theorem preprocess_query_terms (word_tokenize : string -> option (list string))
  (stop_words : gset string) (query : string) (max_terms : Z)
  (tokens : list string) :
  200 < Py.len query ->
  word_tokenize (Py.lower query) = Some tokens ->
  exists key_terms,
    (Arxiv._preprocess_query word_tokenize stop_words query max_terms).1
    = Arxiv.join " AND " key_terms
    /\ NoDup key_terms
    /\ (Z.of_nat (length key_terms) <= Z.max 0 max_terms)%Z
    /\ Forall (fun t => t ∈ tokens /\ (t ∉ stop_words)
                        /\ Arxiv.isalnum t = true /\ 2 < Py.len t)
         key_terms
    /\ (forall t u,
          t ∈ key_terms -> u ∈ tokens -> u ∉ stop_words ->
          Arxiv.isalnum u = true -> 2 < Py.len u -> u ∉ key_terms ->
          occurrences u tokens <= occurrences t tokens).
Proof.
  intros Hlen Htok.
  exists (Arxiv.key_terms_of stop_words tokens max_terms).
  destruct (key_terms_spec stop_words tokens max_terms)
    as (Hnd & Hmax & Hall & Htop).
  split; [|split; [exact Hnd | split; [exact Hmax | split]]].
  - unfold Arxiv._preprocess_query.
    replace (Nat.leb (Py.len query) 200) with false
      by (symmetry; apply Nat.leb_gt; lia).
    by rewrite Htok.
  - eapply Forall_impl; [exact Hall|]. intros t [Ht Hk].
    apply keep_token_spec in Hk. tauto.
  - intros t u Ht Hu H1 H2 H3 Hnot. apply Htop; try done.
    by apply keep_token_spec.
Qed.

Lemma preprocess_query_terms_witness :
  exists key_terms,
    (Arxiv._preprocess_query sample_tokenize sample_stop_words long_query 3).1
    = Arxiv.join " AND " key_terms
    /\ NoDup key_terms
    /\ (Z.of_nat (length key_terms) <= Z.max 0 3)%Z
    /\ Forall (fun t => t ∈ default [] (sample_tokenize (Py.lower long_query))
                        /\ (t ∉ sample_stop_words)
                        /\ Arxiv.isalnum t = true /\ 2 < Py.len t)
         key_terms
    /\ (forall t u,
          t ∈ key_terms ->
          u ∈ default [] (sample_tokenize (Py.lower long_query)) ->
          u ∉ sample_stop_words ->
          Arxiv.isalnum u = true -> 2 < Py.len u -> u ∉ key_terms ->
          occurrences u (default [] (sample_tokenize (Py.lower long_query)))
          <= occurrences t
               (default [] (sample_tokenize (Py.lower long_query)))).
Proof.
  apply (preprocess_query_terms sample_tokenize sample_stop_words long_query
           3).
  - vm_compute. lia.
  - reflexivity.
Defined.

(** ** The PDF processor *)

Lemma gets_app (a b : list Pdf.event) : gets (a ++ b) = gets a + gets b.
Proof. unfold gets. by rewrite List.filter_app, length_app. Qed.

Lemma sleeps_app (a b : list Pdf.event) :
  sleeps (a ++ b) = sleeps a + sleeps b.
Proof. unfold sleeps. by rewrite List.filter_app, length_app. Qed.

Section ProcessorFacts.

Variable urlparse : string -> string + string * string.
Variable requests_get : list Pdf.event -> string -> Pdf.get_outcome.
Variable read_pdf : Pdf.bytes -> string + list Pdf.page.
Variable max_retries : nat.

Lemma checked_inr (o : Pdf.get_outcome) (r : Pdf.response) :
  Pdf.checked o = inr r -> o = Pdf.Responds r /\ Pdf.http_error r = None.
Proof.
  destruct o as [message | r']; [discriminate|]. cbn [Pdf.checked].
  destruct (Pdf.http_error r') eqn:E; [discriminate|].
  intros [= <-]. done.
Qed.

(** The retry loop: at most one request for each attempt left, one wait
    fewer than requests, and content only from a good response. *)
Lemma attempts_spec (url : string) :
  forall remaining attempt tr res tr',
    attempt + remaining = max_retries ->
    Pdf.attempts requests_get max_retries url remaining attempt tr
    = (res, tr') ->
    exists ev,
      tr' = tr ++ ev
      /\ gets ev <= remaining /\ (0 < remaining -> 0 < gets ev)
      /\ sleeps ev = gets ev - 1
      /\ Forall (fun e => is_get e = true -> e = Pdf.Get url) ev
      /\ (forall pdf_content,
            res = Some pdf_content ->
            exists history r,
              requests_get history url = Pdf.Responds r
              /\ good_response r /\ Pdf.content r = pdf_content).
Proof.
  induction remaining as [|remaining IH]; intros attempt tr res tr' Hn H;
    cbn [Pdf.attempts] in H.
  - injection H as <- <-. exists []. rewrite app_nil_r.
    repeat split; try done; try lia; try constructor.
  - cbv zeta in H.
    destruct (Pdf.checked _) as [message | r] eqn:Hc.
    + destruct (Nat.ltb attempt (max_retries - 1)) eqn:Hlt.
      * apply Nat.ltb_lt in Hlt.
        apply IH in H as (ev & -> & Hg & Hpos & Hs & Hall & Hres); [|lia].
        exists ([Pdf.Get url; Pdf.WarnAttemptFailed (attempt + 1) url message;
                 Pdf.InfoWaiting (attempt + 2); Pdf.Sleep] ++ ev).
        specialize (Hpos ltac:(lia)).
        split; [by rewrite <- !(assoc_L (++))|].
        rewrite gets_app, sleeps_app.
        change (gets [_; _; _; _]) with 1. change (sleeps [_; _; _; _]) with 1.
        repeat split; try lia; [|exact Hres].
        apply Forall_app. split; [|exact Hall].
        repeat constructor; discriminate.
      * injection H as <- <-.
        exists [Pdf.Get url; Pdf.WarnAttemptFailed (attempt + 1) url message;
                Pdf.ErrorGaveUp url max_retries].
        split; [by rewrite <- !(assoc_L (++))|].
        change (gets [_; _; _]) with 1. change (sleeps [_; _; _]) with 0.
        repeat split; try lia; try done.
        repeat constructor; discriminate.
    + apply checked_inr in Hc as [Hget Herr].
      destruct (negb _) eqn:Hct.
      * injection H as <- <-.
        exists [Pdf.Get url;
                Pdf.ErrorContentType url
                  (Py.lower (default "" (Pdf.content_type r)))].
        split; [by rewrite <- !(assoc_L (++))|].
        change (gets [_; _]) with 1. change (sleeps [_; _]) with 0.
        repeat split; try lia; try done.
        repeat constructor; discriminate.
      * apply negb_false_iff in Hct.
        destruct (Nat.eqb _ 0) eqn:Hlen.
        -- injection H as <- <-.
           exists [Pdf.Get url; Pdf.ErrorEmptyContent url].
           split; [by rewrite <- !(assoc_L (++))|].
           change (gets [_; _]) with 1. change (sleeps [_; _]) with 0.
           repeat split; try lia; try done.
           repeat constructor; discriminate.
        -- injection H as <- <-. apply Nat.eqb_neq in Hlen.
           exists [Pdf.Get url;
                   Pdf.InfoDownloaded url (length (Pdf.content r))].
           split; [by rewrite <- !(assoc_L (++))|].
           change (gets [_; _]) with 1. change (sleeps [_; _]) with 0.
           repeat split; try lia; try done.
           ++ repeat constructor; discriminate.
           ++ intros pdf_content [= <-].
              exists (tr ++ [Pdf.Get url]), r.
              split; [exact Hget|]. split; [|reflexivity].
              split; [exact Herr|]. split; [exact Hct|].
              intros E. by rewrite E in Hlen.
Qed.

Lemma validate_pdf_url_inv (url : string) (tr tr' : list Pdf.event)
  (valid : bool) :
  Pdf._validate_pdf_url urlparse url tr = (valid, tr') ->
  (exists ev, tr' = tr ++ ev /\ gets ev = 0 /\ sleeps ev = 0)
  /\ (valid = true ->
      exists scheme netloc,
        urlparse url = inr (scheme, netloc) /\ scheme <> "" /\ netloc <> "").
Proof.
  unfold Pdf._validate_pdf_url.
  destruct (urlparse url) as [message | [scheme netloc]].
  - intros [= <- <-]. split; [by eexists|discriminate].
  - destruct (bool_decide (scheme = "") || bool_decide (netloc = ""))
      eqn:E.
    + intros [= <- <-]. split; [by eexists|discriminate].
    + apply orb_false_iff in E as [E1 E2].
      apply bool_decide_eq_false in E1, E2.
      destruct (Pdf.endswith _ _); intros [= <- <-].
      * split; [exists []; by rewrite app_nil_r|]. intros _.
        by exists scheme, netloc.
      * split; [by eexists|]. intros _. by exists scheme, netloc.
Qed.

(** X17. [download_pdf] adds events to the history and nothing else: at
    most [max_retries] requests, all for the given URL, and one wait
    fewer than requests (no wait without a request). Content is returned
    only for a URL with a scheme and a network location, and it is the
    body, not empty, of a response that passed [raise_for_status] and
    names a PDF content type. *)
Theorem download_pdf_requests (url : string) (tr : list Pdf.event) :
  exists ev,
    (Pdf.download_pdf urlparse requests_get max_retries url tr).2 = tr ++ ev
    /\ gets ev <= max_retries
    /\ sleeps ev = gets ev - 1
    /\ Forall (fun e => is_get e = true -> e = Pdf.Get url) ev
    /\ (forall pdf_content,
          (Pdf.download_pdf urlparse requests_get max_retries url tr).1
          = Some pdf_content ->
          (exists scheme netloc,
              urlparse url = inr (scheme, netloc)
              /\ scheme <> "" /\ netloc <> "")
          /\ exists history r,
               requests_get history url = Pdf.Responds r
               /\ good_response r /\ Pdf.content r = pdf_content).
Proof.
  unfold Pdf.download_pdf.
  destruct (Pdf._validate_pdf_url urlparse url tr) as [valid tr1] eqn:Hv.
  apply validate_pdf_url_inv in Hv as [(ev1 & -> & Hg1 & Hs1) Hvalid].
  destruct valid; cbn [negb].
  - destruct (Pdf.attempts _ _ _ _ _ _) as [res tr2] eqn:Ha.
    apply attempts_spec in Ha as (ev2 & -> & Hg & _ & Hs & Hall & Hres);
      [|lia].
    exists (ev1 ++ [Pdf.InfoStarting url] ++ ev2). cbn [fst snd].
    split; [by rewrite <- !(assoc_L (++))|].
    rewrite !gets_app, !sleeps_app, Hg1, Hs1.
    change (gets [_]) with 0. change (sleeps [_]) with 0.
    repeat split; try lia.
    + apply Forall_app. split.
      * apply Forall_forall. intros e He Hget. exfalso.
        unfold gets in Hg1. apply length_zero_iff_nil in Hg1.
        apply list_elem_of_In in He.
        assert (Hin : In e (List.filter is_get ev1))
          by (apply List.filter_In; by split).
        by rewrite Hg1 in Hin.
      * apply Forall_app. split; [|exact Hall].
        repeat constructor; discriminate.
    + by apply Hvalid.
    + by apply Hres.
  - exists (ev1 ++ [Pdf.ErrorInvalidUrl url]). cbn [fst snd].
    split; [by rewrite <- !(assoc_L (++))|].
    rewrite !gets_app, !sleeps_app, Hg1, Hs1.
    change (gets [_]) with 0. change (sleeps [_]) with 0.
    repeat split; try lia; try discriminate.
    apply Forall_app. split; [|repeat constructor; discriminate].
    apply Forall_forall. intros e He Hget. exfalso.
    unfold gets in Hg1. apply length_zero_iff_nil in Hg1.
    apply list_elem_of_In in He.
    assert (Hin : In e (List.filter is_get ev1))
      by (apply List.filter_In; by split).
    by rewrite Hg1 in Hin.
Qed.

Lemma extract_text_stripped (pdf_content : Pdf.bytes)
  (tr tr' : list Pdf.event) (text : string) :
  Pdf.extract_text read_pdf pdf_content tr = (Some text, tr') ->
  Py.strip text = text.
Proof.
  unfold Pdf.extract_text. destruct pdf_content as [|b bs]; [discriminate|].
  destruct (read_pdf _) as [message | [|p pages]]; try discriminate.
  destruct (Pdf.pages_text _ _ _ _) as [t tr1].
  case_bool_decide; [discriminate|]. intros [= <- <-]. apply strip_idem.
Qed.

(** X18. The dictionary [process_pdf] returns has the keys success, url,
    text and error, and url is the given URL. Either success is true,
    error is None and text is a text that is not empty and has no white
    space at its ends; or success is false, text is None and error is
    one of the two failure messages. *)
Theorem process_pdf_result (url : string) (tr : list Pdf.event) :
  let result :=
    (Pdf.process_pdf urlparse requests_get read_pdf max_retries url tr).1 in
  dom result = ({["success"; "url"; "text"; "error"]} : gset string)
  /\ result !! "url" = Some (Pdf.VStr url)
  /\ ((result !! "success" = Some (Pdf.VBool true)
       /\ result !! "error" = Some Pdf.VNone
       /\ exists text,
            result !! "text" = Some (Pdf.VStr text)
            /\ text <> "" /\ Py.strip text = text)
      \/ (result !! "success" = Some (Pdf.VBool false)
          /\ result !! "text" = Some Pdf.VNone
          /\ (result !! "error" = Some (Pdf.VStr "Failed to download PDF")
              \/ result !! "error"
                 = Some (Pdf.VStr "Failed to extract text from PDF")))).
Proof.
  cbv zeta. unfold Pdf.process_pdf.
  destruct (Pdf.download_pdf _ _ _ _ _) as [[[|b pdf_content]|] tr1];
    cbn [fst].
  1, 3: split; [by rewrite !dom_insert_L, dom_singleton_L; set_solver|];
        split; [reflexivity|]; right;
        split; [reflexivity|]; split; [reflexivity|]; by left.
  destruct (Pdf.extract_text _ _ _) as [[[|c text]|] tr2] eqn:He;
    cbn [fst].
  1, 3: split; [by rewrite !dom_insert_L, dom_singleton_L; set_solver|];
        split; [reflexivity|]; right;
        split; [reflexivity|]; split; [reflexivity|]; by right.
  split; [by rewrite !dom_insert_L, dom_singleton_L; set_solver|].
  split; [reflexivity|]. left.
  split; [reflexivity|]. split; [reflexivity|].
  exists (String c text). split; [reflexivity|]. split; [done|].
  by eapply extract_text_stripped.
Qed.

Lemma paragraphs_empty (texts : list string) :
  paragraphs texts = "" <-> texts = [].
Proof.
  destruct texts as [|t texts]; [done|]. cbn [paragraphs].
  split; [|discriminate]. destruct t; discriminate.
Qed.

(** The loop over the pages appends the texts of the pages that give
    one, and logs one event for each page. *)
Lemma pages_text_spec (pages : list Pdf.page) :
  forall (i : nat) (text : string) (tr : list Pdf.event),
    exists ev,
      Pdf.pages_text pages i text tr
      = (text +:+ paragraphs (omap page_text_of pages), tr ++ ev)
      /\ length ev = length pages.
Proof.
  induction pages as [|[page_text | message] pages IH]; intros i text tr;
    cbn [Pdf.pages_text omap list_omap page_text_of paragraphs].
  - exists []. by rewrite append_empty_r, app_nil_r.
  - case_bool_decide as E.
    + destruct (IH (S i) text (tr ++ [Pdf.WarnNoPageText i]))
        as (ev & -> & Hlen).
      exists (Pdf.WarnNoPageText i :: ev).
      split; [by rewrite <- (assoc_L (++)) | simpl; lia].
    + destruct (IH (S i)
                  (text +:+ page_text +:+ String Py.nl (String Py.nl ""))
                  (tr ++ [Pdf.DebugPage i (Py.len page_text)]))
        as (ev & -> & Hlen).
      exists (Pdf.DebugPage i (Py.len page_text) :: ev).
      cbn [paragraphs].
      split; [|simpl; lia].
      by rewrite <- (assoc_L (++)), !append_assoc.
  - destruct (IH (S i) text (tr ++ [Pdf.WarnPageFailed i message]))
      as (ev & -> & Hlen).
    exists (Pdf.WarnPageFailed i message :: ev).
    split; [by rewrite <- (assoc_L (++)) | simpl; lia].
Qed.

(** X19. When the reader opens the content, [extract_text] returns the
    texts of the pages that give one, each followed by an empty line,
    joined in page order and stripped; it returns None when no page gives
    a text. Besides the history it logs an announcement, one event for
    each page and a verdict, or a single error when there is no page. *)
Theorem extract_text_joins_pages (pdf_content : Pdf.bytes)
  (tr : list Pdf.event) (pages : list Pdf.page) :
  pdf_content <> [] -> read_pdf pdf_content = inr pages ->
  (Pdf.extract_text read_pdf pdf_content tr).1
  = (if bool_decide (omap page_text_of pages = []) then None
     else Some (Py.strip (paragraphs (omap page_text_of pages))))
  /\ exists ev,
       (Pdf.extract_text read_pdf pdf_content tr).2 = tr ++ ev
       /\ length ev = (if bool_decide (pages = []) then 1
                       else length pages + 2).
Proof.
  intros Hne Hread. unfold Pdf.extract_text.
  destruct pdf_content as [|b bs]; [done|]. rewrite Hread.
  destruct pages as [|p pages]; [split; [done | by eexists]|].
  rewrite (bool_decide_eq_false_2 (p :: pages = [])) by done.
  destruct (pages_text_spec (p :: pages) 1 ""
              (tr ++ [Pdf.InfoExtracting (length (p :: pages))]))
    as (ev & -> & Hlen).
  rewrite append_empty_l.
  case_bool_decide as E.
  - apply paragraphs_empty in E. rewrite E. split; [done|].
    exists (Pdf.InfoExtracting (length (p :: pages)) :: ev
            ++ [Pdf.ErrorNoText]).
    cbn [snd]. split; [by rewrite <- !(assoc_L (++))|].
    simpl. rewrite length_app. simpl. simpl in Hlen. lia.
  - rewrite bool_decide_eq_false_2
      by (intros E'; by apply E, paragraphs_empty).
    split; [done|].
    eexists (Pdf.InfoExtracting (length (p :: pages)) :: ev ++ [_]).
    cbn [snd]. split; [by rewrite <- !(assoc_L (++))|].
    simpl. rewrite length_app. simpl. simpl in Hlen. lia.
Qed.

End ProcessorFacts.

Lemma extract_text_joins_pages_witness :
  (Pdf.extract_text sample_read_pdf [Byte.x25; Byte.x50; Byte.x44; Byte.x46]
     []).1
  = (if bool_decide
          (omap page_text_of
             [Pdf.PageText " As shown in [1], the effect is small. ";
              Pdf.PageText ""] = [])
     then None
     else Some (Py.strip
                  (paragraphs
                     (omap page_text_of
                        [Pdf.PageText
                           " As shown in [1], the effect is small. ";
                         Pdf.PageText ""]))))
  /\ exists ev,
       (Pdf.extract_text sample_read_pdf
          [Byte.x25; Byte.x50; Byte.x44; Byte.x46] []).2 = [] ++ ev
       /\ length ev
          = (if bool_decide
                  ([Pdf.PageText " As shown in [1], the effect is small. ";
                    Pdf.PageText ""] = [])
             then 1
             else length
                    [Pdf.PageText " As shown in [1], the effect is small. ";
                     Pdf.PageText ""] + 2).
Proof.
  apply (extract_text_joins_pages sample_read_pdf
           [Byte.x25; Byte.x50; Byte.x44; Byte.x46] []).
  - discriminate.
  - reflexivity.
Defined.

(** ** The citation summary of [main] *)

Lemma group_in_add (num x t : string) (g : list (string * list string)) :
  group_in num (Main.group_add x t g)
  = group_in num g ++ (if String.eqb x num then [t] else []).
Proof.
  induction g as [|[k l] g IH]; cbn [Main.group_add group_in].
  - destruct (String.eqb x num); reflexivity.
  - destruct (String.eqb k x) eqn:Ekx; cbn [group_in].
    + apply String.eqb_eq in Ekx as ->.
      destruct (String.eqb x num); [reflexivity | by rewrite app_nil_r].
    + destruct (String.eqb k num) eqn:Ekn; [|exact IH].
      apply String.eqb_eq in Ekn as ->.
      by rewrite String.eqb_sym, Ekx, app_nil_r.
Qed.

Lemma group_add_keys (x t : string) (g : list (string * list string)) :
  (Main.group_add x t g).*1
  = g.*1 ++ (if bool_decide (x ∈ g.*1) then [] else [x]).
Proof.
  induction g as [|[k l] g IH]; cbn [Main.group_add].
  - rewrite bool_decide_eq_false_2 by apply not_elem_of_nil. reflexivity.
  - destruct (String.eqb k x) eqn:Ekx.
    + apply String.eqb_eq in Ekx as ->. cbn [fmap list_fmap fst].
      rewrite bool_decide_eq_true_2 by apply list_elem_of_here.
      by rewrite app_nil_r.
    + apply String.eqb_neq in Ekx. cbn [fmap list_fmap fst].
      change (list_fmap _ _ fst ?l) with (l.*1). rewrite IH. f_equal.
      case_bool_decide as H1; case_bool_decide as H2; try reflexivity.
      * exfalso. apply H2. by right.
      * exfalso. apply elem_of_cons in H2 as [H2 | H2]; [congruence|done].
Qed.

Lemma group_in_elem (k : string) (l : list string)
  (g : list (string * list string)) :
  NoDup g.*1 -> (k, l) ∈ g -> group_in k g = l.
Proof.
  induction g as [|[u m] g IH]; [by intros _ ?%elem_of_nil|].
  cbn [fmap list_fmap fst group_in]. intros [Hu Hnd]%NoDup_cons H.
  apply elem_of_cons in H as [H | H].
  - injection H as -> ->. by rewrite String.eqb_refl.
  - destruct (String.eqb u k) eqn:E; [|by apply IH].
    apply String.eqb_eq in E as ->. exfalso. apply Hu.
    apply list_elem_of_fmap. by exists (k, l).
Qed.

Lemma group_in_key (k : string) (g : list (string * list string)) :
  k ∈ g.*1 -> (k, group_in k g) ∈ g.
Proof.
  induction g as [|[u m] g IH]; [by intros ?%elem_of_nil|].
  cbn [fmap list_fmap fst group_in]. intros H.
  destruct (String.eqb u k) eqn:E.
  - apply String.eqb_eq in E as ->. apply list_elem_of_here.
  - apply String.eqb_neq in E. apply elem_of_cons in H as [H | H]; [done|].
    right. by apply IH.
Qed.

Lemma texts_of_app (num : string) (l1 l2 : list Citation) :
  texts_of num (l1 ++ l2) = texts_of num l1 ++ texts_of num l2.
Proof. apply omap_app. Qed.

Lemma texts_of_snoc (num : string) (l : list Citation) (c : Citation) :
  texts_of num (l ++ [c])
  = texts_of num l
    ++ match c with
       | Numerical citation_text number _ _ =>
           if String.eqb number num then [citation_text] else []
       | _ => []
       end.
Proof.
  rewrite texts_of_app. f_equal. unfold texts_of. cbn [omap list_omap].
  destruct c as [t n tag ctx | | ]; try reflexivity.
  by destruct (String.eqb n num).
Qed.

(** What the grouping loop holds after the records [l]: distinct keys,
    the numbers that occur, each with the citation texts of its
    records. *)
Lemma group_fold_spec (l : list Citation) :
  let acc := foldl Main.group_step ([], []) l in
  NoDup acc.1.*1
  /\ (forall num, num ∈ acc.1.*1 <-> texts_of num l <> [])
  /\ (forall num, group_in num acc.1 = texts_of num l).
Proof.
  cbv zeta. induction l as [|c l (Hnd & Hkeys & Hin)] using rev_ind.
  - repeat split; try constructor; try done. by intros ?%elem_of_nil.
  - rewrite foldl_app. cbn [foldl].
    set (acc := foldl Main.group_step ([], []) l) in *.
    assert (Hnum : forall citation_text number,
               NoDup (Main.group_add number citation_text acc.1).*1
               /\ (forall num,
                      num ∈ (Main.group_add number citation_text acc.1).*1
                      <-> texts_of num l
                          ++ (if String.eqb number num
                              then [citation_text] else []) <> [])
               /\ (forall num,
                      group_in num (Main.group_add number citation_text acc.1)
                      = texts_of num l
                        ++ (if String.eqb number num
                            then [citation_text] else []))).
    { intros t n. split; [|split].
      - rewrite group_add_keys. case_bool_decide as Hx.
        + by rewrite app_nil_r.
        + apply NoDup_app. split; [exact Hnd|].
          split; [|apply NoDup_singleton].
          intros y Hy ->%list_elem_of_singleton. done.
      - intros num. rewrite group_add_keys, elem_of_app, Hkeys.
        destruct (String.eqb n num) eqn:E.
        + apply String.eqb_eq in E as ->. split.
          * intros _ H. by apply app_eq_nil in H as [_ H].
          * intros _. case_bool_decide as Hx.
            -- left. by apply Hkeys.
            -- right. apply list_elem_of_here.
        + apply String.eqb_neq in E. rewrite app_nil_r. split; [|by left].
          intros [H | H]; [exact H|]. case_bool_decide as Hx.
          * by apply elem_of_nil in H.
          * apply list_elem_of_singleton in H. congruence.
      - intros num. by rewrite group_in_add, Hin. }
    destruct c as [t n tag ctx | a1 a2 y tag ctx | a y tag ctx];
      cbn [Main.group_step fst snd].
    + destruct (Hnum t n) as (H1 & H2 & H3).
      split; [exact H1|].
      split; intros num; rewrite texts_of_snoc; [apply H2 | apply H3].
    + split; [exact Hnd|].
      split; intros num; rewrite texts_of_snoc, app_nil_r;
        [apply Hkeys | apply Hin].
    + split; [exact Hnd|].
      split; intros num; rewrite texts_of_snoc, app_nil_r;
        [apply Hkeys | apply Hin].
Qed.

(** Records with distinct keys and one tag: under one number, the
    citation texts are distinct. *)
Lemma texts_of_NoDup (num tag : string) (l : list Citation) :
  NoDup (citation_key <$> l) ->
  Forall (fun c => citation_type_of c = tag) l ->
  NoDup (texts_of num l).
Proof.
  induction l as [|c l IH]; [constructor|].
  cbn [fmap list_fmap]. intros [Hc Hnd]%NoDup_cons [Htag Hall]%Forall_cons.
  specialize (IH Hnd Hall). unfold texts_of. cbn [omap list_omap].
  destruct c as [t n tag' ctx | | ]; try exact IH.
  destruct (String.eqb n num) eqn:E; [|exact IH].
  apply String.eqb_eq in E as ->. cbn [citation_type_of] in Htag. subst tag'.
  apply NoDup_cons. split; [|exact IH].
  intros (c' & Hc' & Hf)%list_elem_of_omap. apply Hc.
  apply list_elem_of_fmap. exists c'. split; [|exact Hc'].
  destruct c' as [t' n' tag' ctx' | | ]; try discriminate.
  destruct (String.eqb n' num) eqn:E'; [|discriminate].
  apply String.eqb_eq in E' as ->. injection Hf as ->.
  rewrite Forall_forall in Hall. specialize (Hall _ Hc').
  cbn [citation_type_of] in Hall. by subst tag'.
Qed.

Lemma increasing_cons {A} (x : Z * A) (l : list (Z * A)) :
  increasing (x :: l)
  <-> (forall y, y ∈ l -> (x.1 <= y.1)%Z) /\ increasing l.
Proof.
  unfold increasing. split.
  - intros H. split.
    + intros y Hy. by apply (H [] l x y).
    + intros a b x' y -> Hy. by apply (H (x :: a) b x' y).
  - intros [H1 H2] a b x' y E Hy. destruct a as [|z a]; simpl in E.
    + injection E as <- <-. by apply H1.
    + injection E as <- ->. by apply (H2 a b x' y).
Qed.

Lemma insert_asc_perm (x : Z * (string * list string))
  (l : list (Z * (string * list string))) :
  Main.insert_asc x l ≡ₚ x :: l.
Proof.
  induction l as [|y l IH]; cbn [Main.insert_asc]; [done|].
  destruct (Z.ltb x.1 y.1); [done|]. rewrite IH. apply Permutation_swap.
Qed.

Lemma insert_asc_increasing (x : Z * (string * list string))
  (l : list (Z * (string * list string))) :
  increasing l -> increasing (Main.insert_asc x l).
Proof.
  induction l as [|y l IH]; cbn [Main.insert_asc]; intros H.
  - apply increasing_cons. split; [by intros ? ?%elem_of_nil|exact H].
  - destruct (Z.ltb x.1 y.1) eqn:E.
    + apply Z.ltb_lt in E. apply increasing_cons. split; [|exact H].
      apply increasing_cons in H as [H _].
      intros z [-> | Hz]%elem_of_cons; [lia|]. specialize (H z Hz). lia.
    + apply Z.ltb_ge in E. apply increasing_cons in H as [H1 H2].
      apply increasing_cons. split; [|by apply IH].
      intros z Hz. rewrite insert_asc_perm in Hz.
      apply elem_of_cons in Hz as [-> | Hz]; [exact E | by apply H1].
Qed.

Lemma sorted_asc_spec (l : list (Z * (string * list string))) :
  foldl (fun acc x => Main.insert_asc x acc) [] l ≡ₚ l
  /\ increasing (foldl (fun acc x => Main.insert_asc x acc) [] l).
Proof.
  induction l as [|x l [IH1 IH2]] using rev_ind.
  - split; [done|]. intros [] ? ? ? ?; discriminate.
  - rewrite foldl_app. cbn [foldl]. split.
    + rewrite insert_asc_perm, IH1. by rewrite Permutation_app_comm.
    + by apply insert_asc_increasing.
Qed.

(** The sort of [main] on items whose keys [int] reads: it raises
    nothing and returns the items in ascending order of the integers. *)
Lemma sorted_by_int_spec (items : list (string * list string)) :
  Forall (fun item => is_Some (Py.int item.1)) items ->
  exists sorted,
    Main.sorted_by_int items = Some sorted
    /\ sorted ≡ₚ items
    /\ (forall a b x y,
          sorted = a ++ x :: b -> y ∈ b ->
          exists nx ny,
            Py.int x.1 = Some nx /\ Py.int y.1 = Some ny /\ (nx <= ny)%Z).
Proof.
  intros Hint. unfold Main.sorted_by_int.
  set (f := fun item : string * list string =>
              match Py.int item.1 with
              | Some n => Some (n, item)
              | None => None
              end).
  assert (Hf : forall item k, f item = Some k ->
                 k.2 = item /\ Py.int item.1 = Some k.1).
  { intros item k. unfold f. destruct (Py.int item.1); [|discriminate].
    by intros [= <-]. }
  destruct (mapM f items) as [keyed|] eqn:Hm.
  - apply mapM_Some_1 in Hm.
    assert (Hk : keyed.*2 = items /\ Forall (fun k => Py.int k.2.1 = Some k.1)
                                       keyed).
    { clear Hint. induction Hm as [|item k items keyed H _ [IH1 IH2]];
        [by split|].
      apply Hf in H as [H1 H2]. cbn [fmap list_fmap]. split.
      - f_equal; [exact H1 | exact IH1].
      - constructor; [by rewrite H1 | exact IH2]. }
    destruct Hk as [Hk1 Hk2].
    destruct (sorted_asc_spec keyed) as [Hperm Hinc].
    set (K := foldl _ [] keyed) in *.
    exists (K.*2). split; [reflexivity|]. split.
    + by rewrite Hperm, Hk1.
    + intros a b x y Hab Hy.
      apply fmap_app_inv in Hab as (Ka & Kb' & -> & Hb & HK).
      symmetry in Hb.
      apply fmap_cons_inv in Hb as (kx & Kb & -> & -> & ->).
      apply list_elem_of_fmap in Hy as (ky & -> & Hy).
      assert (Hall : Forall (fun k => Py.int k.2.1 = Some k.1) K)
        by (by rewrite Hperm).
      rewrite Forall_forall in Hall.
      exists kx.1, ky.1. split; [|split].
      * apply Hall. rewrite HK. apply elem_of_app. right.
        apply list_elem_of_here.
      * apply Hall. rewrite HK. apply elem_of_app. right. by right.
      * by apply (Hinc Ka Kb kx ky).
  - exfalso. apply mapM_None_1 in Hm. apply Exists_exists in Hm
      as (item & Hitem & Hnone).
    rewrite Forall_forall in Hint. destruct (Hint _ Hitem) as [n Hn].
    unfold f in Hnone. by rewrite Hn in Hnone.
Qed.

Lemma NoDup_fmap_filter {A B} (f : A -> B) (p : A -> bool) (l : list A) :
  NoDup (f <$> l) -> NoDup (f <$> List.filter p l).
Proof.
  induction l as [|x l IH]; [done|]. cbn [fmap list_fmap List.filter].
  intros [Hx Hnd]%NoDup_cons. destruct (p x); [|by apply IH].
  cbn [fmap list_fmap]. apply NoDup_cons. split; [|by apply IH].
  intros (y & Hy & Hin)%list_elem_of_fmap. apply Hx.
  apply list_elem_of_fmap. exists y. split; [exact Hy|].
  apply list_elem_of_In in Hin. apply List.filter_In in Hin as [Hin _].
  by apply list_elem_of_In.
Qed.

Lemma texts_of_elem (num t : string) (l : list Citation) :
  t ∈ texts_of num l <->
  exists tag ctx, Numerical t num tag ctx ∈ l.
Proof.
  unfold texts_of. rewrite list_elem_of_omap. split.
  - intros (c & Hc & Hf). destruct c as [t' n tag ctx | | ]; try discriminate.
    destruct (String.eqb n num) eqn:E; [|discriminate].
    apply String.eqb_eq in E as ->. injection Hf as ->. by exists tag, ctx.
  - intros (tag & ctx & Hc). exists (Numerical t num tag ctx).
    split; [exact Hc|]. by rewrite String.eqb_refl.
Qed.

Lemma forallb_false_elem {A} (f : A -> bool) (l : list A) :
  forallb f l = false -> exists x, x ∈ l /\ f x = false.
Proof.
  induction l as [|x l IH]; [discriminate|]. cbn [forallb].
  intros [H | H]%andb_false_iff.
  - exists x. split; [left | exact H].
  - destruct (IH H) as (y & Hy & Hf). exists y. split; [by right | exact Hf].
Qed.

(** X20. The summary [main] prints for the citations of a text. When no
    inline record has a number of more than 4300 digits, sorting the
    numbers with [int] does not raise; there is one line for each number
    that an inline record carries, the lines are in ascending order of
    the integers the numbers denote, and the count on a line is the
    number of inline records with that number, the citation texts
    collected under one number being distinct. When an inline record has
    a longer number, [int] raises in the sort and no line is printed. *)
Theorem summary_numerical_lines (current_year : Z) (text : string)
  (lg : list log_entry) :
  let citations := (extract_citations current_year text lg).1 in
  if short_numbers citations then
    exists lines,
      Main.numerical_lines citations = Some lines
      /\ NoDup lines.*1
      /\ (forall num n,
            (num, n) ∈ lines <-> 0 < n /\ n = inline_count num citations)
      /\ ascending lines
  else Main.numerical_lines citations = None.
Proof.
  cbv zeta. set (cs := (extract_citations current_year text lg).1).
  set (inl := List.filter
                (fun c => String.eqb (citation_type_of c) "inline") cs).
  assert (Hsub : forall c, c ∈ inl -> c ∈ cs).
  { intros c Hc. apply list_elem_of_In in Hc.
    apply List.filter_In in Hc as [Hc _]. by apply list_elem_of_In. }
  assert (Htag : Forall (fun c => citation_type_of c = "inline") inl).
  { apply Forall_forall. intros c Hc. apply list_elem_of_In in Hc.
    apply List.filter_In in Hc as [_ Hc]. by apply String.eqb_eq. }
  assert (Hkey : NoDup (citation_key <$> inl))
    by apply NoDup_fmap_filter, extract_citations_keys.
  destruct (group_fold_spec inl) as (Hnd & Hkeys & Hin).
  set (G := (foldl Main.group_step ([], []) inl).1) in *.
  assert (Hlen : forall num, texts_of num inl <> []
                             <-> 0 < inline_count num cs).
  { intros num. unfold inline_count. fold inl.
    destruct (texts_of num inl); simpl; split; try done; lia. }
  assert (Hrun : forall t num tag ctx,
             Numerical t num tag ctx ∈ cs ->
             num <> "" /\ all_chars Py.isdecimal num = true).
  { intros t num tag ctx Hc.
    apply extract_citations_record in Hc
      as (region & p & m & d & _ & _ & _ & Hd & [= _ -> _ _]).
    apply findall_digit_run in Hd as (Hne & Hall & _). by split. }
  destruct (short_numbers cs) eqn:Hshort.
  - assert (Hint : Forall (fun item => is_Some (Py.int item.1)) G).
    { apply Forall_forall. intros [num l] Hitem. cbn [fst].
      assert (Hnum : num ∈ G.*1)
        by (apply list_elem_of_fmap; by exists (num, l)).
      apply Hkeys in Hnum.
      destruct (texts_of num inl) as [|t ts] eqn:E; [done|].
      assert (Ht : t ∈ texts_of num inl)
        by (rewrite E; apply list_elem_of_here).
      apply texts_of_elem in Ht as (tag & ctx & Hc).
      rewrite Forall_forall in Htag. pose proof (Htag _ Hc) as Ei.
      cbn in Ei. subst tag. apply Hsub in Hc.
      destruct (Hrun _ _ _ _ Hc) as [Hne Hall].
      unfold short_numbers in Hshort. rewrite forallb_forall in Hshort.
      specialize (Hshort _ (proj1 (list_elem_of_In _ _) Hc)).
      cbn in Hshort. apply Nat.leb_le in Hshort.
      destruct (int_digit_string num Hne Hall Hshort) as [Hd _].
      by eexists. }
    destruct (sorted_by_int_spec G Hint) as (sorted & Hs & Hperm & Hasc).
    set (g := fun item : string * list string =>
                (item.1, Main.distinct item.2)).
    assert (Hg : forall num, num ∈ G.*1 ->
                   (num, group_in num G) ∈ sorted
                   /\ Main.distinct (group_in num G) = inline_count num cs).
    { intros num Hnum. split.
      - rewrite Hperm. by apply group_in_key.
      - rewrite Hin. unfold Main.distinct, inline_count. fold inl.
        apply size_list_to_set. by eapply texts_of_NoDup. }
    exists (g <$> sorted).
    split; [|split; [|split]].
    + unfold Main.numerical_lines, Main.group_inline. fold inl. fold G.
      by rewrite Hs.
    + rewrite <- list_fmap_compose.
      replace (fst ∘ g) with (@fst string (list string)) by reflexivity.
      by rewrite Hperm.
    + intros num n. rewrite list_elem_of_fmap. split.
      * intros ([num' l] & [= -> ->] & Hitem). cbn [fst snd].
        rewrite Hperm in Hitem.
        assert (Hnum : num' ∈ G.*1)
          by (apply list_elem_of_fmap; by exists (num', l)).
        rewrite <- (group_in_elem num' l G Hnd Hitem).
        destruct (Hg num' Hnum) as [_ ->].
        split; [|reflexivity]. by apply Hlen, Hkeys.
      * intros [Hpos ->]. apply Hlen, Hkeys in Hpos.
        destruct (Hg num Hpos) as [Hitem Hd].
        exists (num, group_in num G). split; [|exact Hitem].
        unfold g. cbn [fst snd]. by rewrite Hd.
    + intros a b x y Hab Hy.
      apply fmap_app_inv in Hab as (sa & sb' & -> & Hb & Hsorted).
      symmetry in Hb.
      apply fmap_cons_inv in Hb as (sx & sb & -> & -> & ->).
      apply list_elem_of_fmap in Hy as (sy & -> & Hy).
      exact (Hasc sa sb sx sy Hsorted Hy).
  - assert (Hlong : exists t num ctx,
               Numerical t num "inline" ctx ∈ cs
               /\ Py.int_max_str_digits < Py.len num).
    { unfold short_numbers in Hshort.
      apply forallb_false_elem in Hshort as (c & Hc & Hf).
      destruct c as [t num tag ctx | |]; try done.
      apply orb_false_iff in Hf as [Htg Hl].
      apply negb_false_iff, String.eqb_eq in Htg as ->.
      apply Nat.leb_gt in Hl. by exists t, num, ctx. }
    destruct Hlong as (t & num & ctx & Hc & Hl).
    destruct (Hrun _ _ _ _ Hc) as [_ Hall].
    assert (Hnum : num ∈ G.*1).
    { apply Hkeys. intros E.
      assert (Ht : t ∈ texts_of num inl).
      { apply texts_of_elem. exists "inline", ctx.
        apply list_elem_of_In, List.filter_In.
        split; [by apply list_elem_of_In | reflexivity]. }
      rewrite E in Ht. by apply elem_of_nil in Ht. }
    apply list_elem_of_fmap in Hnum as ([num' l] & E & Hitem).
    cbn in E. subst num'.
    unfold Main.numerical_lines, Main.group_inline, Main.sorted_by_int.
    fold inl. fold G.
    rewrite mapM_None_2; [reflexivity|].
    apply Exists_exists. exists (num, l). split; [exact Hitem|].
    cbn [fst]. by rewrite (int_too_long num Hall Hl).
Qed.
